(** * numerox.metrics: per-era and per-name metrics, concordance

    A shallow embedding of [numerox/metrics.py].  The module is glue code over
    numpy, pandas, scikit-learn and scipy; the embedding keeps the control flow
    of the Python functions (joins, loops, try/except, raised errors) and
    models the library calls by their documented behaviour.

    Numbers.  A numpy [float64] is modelled through the interface [Float64],
    which has two instances:
    - [Float64_prim], IEEE 754 binary64 as the kernel implements it: the
      definitions run on it, rounding included;
    - [Float64_exact], the extended reals with a NaN: the same special values
      and comparison rules, arithmetic without rounding or overflow and without
      a sign on zero.  Identities of arithmetic are proved on it.
    Both satisfy [Float64Laws], on which the order and NaN arguments rest.

    Conventions.
    - Errors: a function that can raise returns a [res]; [do x <- m; k] is
      sequencing, the first exception ends the call.
    - Frames: a [DataFrame] is an index and named columns of Python values
      ([pyobj]); [data.df] and [prediction.df] are lists of rows keyed by the
      row index, which is unique on each side.
    - Sums run left to right from 0.  numpy adds in pairs on long arrays; the
      two agree on the exact model and on the short arrays run here.
    - Outside the file: [nx.tournament_str], [ERA_INT_TO_STR],
      [REGION_INT_TO_STR], the fitted k-means model, [ks_2samp] and the
      wording of [.loc]'s KeyError are parameters; [sklearn.metrics] is the
      interface [Sklearn], with the model [sklearn_documented] of its
      documented behaviour.
    - pandas is a 1.x release, 1.5: [groupby().mean()] leaves the
      non-numeric columns out, [dropna()] is [how='any'], [std()] is
      [ddof=1], [sort_values] puts NaN last, [unique()] keeps one NaN,
      [isin([nan])] finds no row, and [.loc] with a label that is not in the
      index raises KeyError. *)

From Stdlib Require Import List String ZArith Bool Lia Permutation Sorted.
From Stdlib Require Import Reals Lra.
From Stdlib Require Import Floats Uint63.
Import ListNotations.

Set Implicit Arguments.
Set Warnings "-inexact-float".
Set Warnings "-at-level-200-changed".

Local Open Scope string_scope.
Local Open Scope list_scope.

(** ** Exceptions *)

Inductive exn : Type :=
| ValueError (msg : string)
| KeyError (msg : string)
| OtherError (msg : string).

Inductive res (A : Type) : Type :=
| Ok (a : A)
| Raise (e : exn).

Arguments Ok {A} a.
Arguments Raise {A} e.

Definition bind {A B : Type} (m : res A) (k : A -> res B) : res B :=
  match m with
  | Ok a => k a
  | Raise e => Raise e
  end.

Notation "'do' x <- m ; k" := (bind m (fun x => k))
  (at level 10, x name, m at level 100, k at level 200).

Definition is_ok {A : Type} (m : res A) : bool :=
  match m with Ok _ => true | Raise _ => false end.

Definition is_value_error {A : Type} (m : res A) : bool :=
  match m with Raise (ValueError _) => true | _ => false end.

(** ** float64 *)

(** The operations on [float64] the module and the libraries use. [of_Z]
    is the conversion of a Python int (a count, a literal). *)
Class Float64 (F : Type) : Type := {
  of_Z : Z -> F;
  fadd : F -> F -> F;
  fsub : F -> F -> F;
  fmul : F -> F -> F;
  fdiv : F -> F -> F;
  fsqrt : F -> F;
  feqb : F -> F -> bool;
  fltb : F -> F -> bool;
  fleb : F -> F -> bool
}.

Section FloatBasics.
Context {F : Type} `{Float64 F}.

(** A count ([len], [size]) as a float. *)
Definition of_nat (n : nat) : F := of_Z (Z.of_nat n).

(** [np.nan] *)
Definition nan : F := fdiv (of_Z 0) (of_Z 0).

(** [x != x], the test behind [np.isnan] and pandas' [isna] on floats. *)
Definition isnan (x : F) : bool := negb (feqb x x).

(** [x >= y] *)
Definition fgeb (x y : F) : bool := fleb y x.

(** A decimal literal [m / 10^k], e.g. [0.693] is [decimal 693 3]. *)
Definition decimal (m : Z) (k : nat) : F := fdiv (of_Z m) (of_Z (10 ^ Z.of_nat k)).
End FloatBasics.

(** *** IEEE 754 binary64

    [of_Z] goes through a 63-bit integer: it is exact on the counts and
    literals of this file, all far below 2^53. *)

#[export] Instance Float64_prim : Float64 float := {
  of_Z z :=
    if (z <? 0)%Z then PrimFloat.opp (PrimFloat.of_uint63 (Uint63.of_Z (- z)))
    else PrimFloat.of_uint63 (Uint63.of_Z z);
  fadd := PrimFloat.add;
  fsub := PrimFloat.sub;
  fmul := PrimFloat.mul;
  fdiv := PrimFloat.div;
  fsqrt := PrimFloat.sqrt;
  feqb := PrimFloat.eqb;
  fltb := PrimFloat.ltb;
  fleb := PrimFloat.leb
}.

(** *** Extended reals with NaN *)

Inductive xreal : Type :=
| XNaN
| XInf (neg : bool)
| XFin (r : R).

Definition Rltb (a b : R) : bool := if Rlt_dec a b then true else false.
Definition Rleb (a b : R) : bool := if Rle_dec a b then true else false.
Definition Reqb (a b : R) : bool := if Req_dec_T a b then true else false.

Definition xadd (x y : xreal) : xreal :=
  match x, y with
  | XNaN, _ | _, XNaN => XNaN
  | XInf s, XInf t => if Bool.eqb s t then XInf s else XNaN
  | XInf s, XFin _ | XFin _, XInf s => XInf s
  | XFin a, XFin b => XFin (a + b)
  end.

Definition xopp (x : xreal) : xreal :=
  match x with
  | XNaN => XNaN
  | XInf s => XInf (negb s)
  | XFin a => XFin (- a)
  end.

Definition xsub (x y : xreal) : xreal := xadd x (xopp y).

(** The sign of [Inf * a] and [Inf / a]; zero counts as positive. *)
Definition xscale (s : bool) (a : R) : xreal := XInf (xorb s (Rltb a 0)).

Definition xmul (x y : xreal) : xreal :=
  match x, y with
  | XNaN, _ | _, XNaN => XNaN
  | XInf s, XInf t => XInf (xorb s t)
  | XInf s, XFin a | XFin a, XInf s => if Reqb a 0 then XNaN else xscale s a
  | XFin a, XFin b => XFin (a * b)
  end.

Definition xdiv (x y : xreal) : xreal :=
  match x, y with
  | XNaN, _ | _, XNaN => XNaN
  | XInf _, XInf _ => XNaN
  | XInf s, XFin b => xscale s b
  | XFin _, XInf _ => XFin 0
  | XFin a, XFin b =>
      if Reqb b 0 then (if Reqb a 0 then XNaN else XInf (Rltb a 0))
      else XFin (a / b)
  end.

Definition xsqrt (x : xreal) : xreal :=
  match x with
  | XNaN => XNaN
  | XInf s => if s then XNaN else XInf false
  | XFin a => if Rltb a 0 then XNaN else XFin (R_sqrt.sqrt a)
  end.

Definition xeqb (x y : xreal) : bool :=
  match x, y with
  | XNaN, _ | _, XNaN => false
  | XInf s, XInf t => Bool.eqb s t
  | XFin a, XFin b => Reqb a b
  | _, _ => false
  end.

Definition xltb (x y : xreal) : bool :=
  match x, y with
  | XNaN, _ | _, XNaN => false
  | XInf s, XInf t => s && negb t
  | XInf s, XFin _ => s
  | XFin _, XInf t => negb t
  | XFin a, XFin b => Rltb a b
  end.

Definition xleb (x y : xreal) : bool :=
  match x, y with
  | XNaN, _ | _, XNaN => false
  | XInf s, XInf t => s || negb t
  | XInf s, XFin _ => s
  | XFin _, XInf t => negb t
  | XFin a, XFin b => Rleb a b
  end.

#[export] Instance Float64_exact : Float64 xreal := {
  of_Z z := XFin (IZR z);
  fadd := xadd;
  fsub := xsub;
  fmul := xmul;
  fdiv := xdiv;
  fsqrt := xsqrt;
  feqb := xeqb;
  fltb := xltb;
  fleb := xleb
}.

(** What both models of [float64] satisfy and the proofs below rely on:
    a NaN compares false with everything, [<] is irreflexive, [<=] is a total
    preorder on the numbers, and 0 and 1 are two different numbers. *)
Class Float64Laws (F : Type) `{Float64 F} : Prop := {
  nan_isnan : isnan (nan : F) = true;
  fltb_nan_l : forall x y : F, isnan x = true -> fltb x y = false;
  fltb_irrefl : forall x : F, fltb x x = false;
  fleb_nan_l : forall x y : F, isnan x = true -> fleb x y = false;
  fleb_nan_r : forall x y : F, isnan y = true -> fleb x y = false;
  fleb_total : forall x y : F,
    isnan x = false -> isnan y = false -> fleb x y = true \/ fleb y x = true;
  fleb_trans : forall x y z : F, fleb x y = true -> fleb y z = true -> fleb x z = true;
  feqb_0_0 : feqb (of_Z 0 : F) (of_Z 0) = true;
  feqb_1_1 : feqb (of_Z 1 : F) (of_Z 1) = true;
  feqb_0_1 : feqb (of_Z 0 : F) (of_Z 1) = false;
  feqb_1_0 : feqb (of_Z 1 : F) (of_Z 0) = false
}.

Arguments Float64Laws F {_}.

(** ** numpy reductions on a one-dimensional float64 array *)

Section Numpy.
Context {F : Type} `{Float64 F}.

(** [a.sum()], added left to right. *)
Definition np_sum (xs : list F) : F := fold_left fadd xs (of_Z 0).

(** [a.size] *)
Definition np_size (xs : list F) : Z := Z.of_nat (List.length xs).

(** [a.mean()]: the sum over the number of elements. *)
Definition np_mean (xs : list F) : F := fdiv (np_sum xs) (of_nat (List.length xs)).

(** [(x - m) ** 2] as numpy's [_var] computes it, [x = arr - arrmean] then
    [multiply(x, x)]. *)
Definition sq_dev (m x : F) : F := let d := fsub x m in fmul d d.

(** [a.var(ddof)]: squared deviations from the mean, summed, over
    [max (n - ddof) 0]. *)
Definition np_var (ddof : nat) (xs : list F) : F :=
  fdiv (np_sum (map (sq_dev (np_mean xs)) xs)) (of_nat (List.length xs - ddof)).

(** [a.std()]: numpy's default is [ddof=0], the divisor is [n]. *)
Definition np_std (xs : list F) : F := fsqrt (np_var 0 xs).

(** [np.minimum] and [np.maximum] of two elements: a NaN wins. *)
Definition np_minimum (a b : F) : F :=
  if isnan a then a else if isnan b then b else if fltb b a then b else a.
Definition np_maximum (a b : F) : F :=
  if isnan a then a else if isnan b then b else if fltb a b then b else a.

(** [a.min()], [a.max()]: a zero-size array has no minimum, numpy raises
    ValueError. *)
Definition np_min (xs : list F) : res F :=
  match xs with
  | [] => Raise (ValueError "zero-size array to reduction operation minimum which has no identity")
  | x :: rest => Ok (fold_left np_minimum rest x)
  end.
Definition np_max (xs : list F) : res F :=
  match xs with
  | [] => Raise (ValueError "zero-size array to reduction operation maximum which has no identity")
  | x :: rest => Ok (fold_left np_maximum rest x)
  end.
End Numpy.

(** ** pandas reductions down one column (axis=0) *)

Section PandasReductions.
Context {F : Type} `{Float64 F}.

(** [skipna=True], pandas' default: the NaN cells of the column are left out. *)
Definition notna (xs : list F) : list F := filter (fun x => negb (isnan x)) xs.

(** [Series.mean()]. *)
Definition pd_mean (xs : list F) : F := np_mean (notna xs).

(** [Series.std()]: pandas' default is [ddof=1]; NaN when no more than
    [ddof] cells are observed. *)
Definition pd_var (ddof : nat) (xs : list F) : F :=
  let vs := notna xs in
  if (List.length vs <=? ddof)%nat then nan
  else fdiv (np_sum (map (sq_dev (np_mean vs)) vs)) (of_nat (List.length vs - ddof)).
Definition pd_std (xs : list F) : F := fsqrt (pd_var 1 xs).

(** [mean()] of a boolean column: the share of [True]. *)
Definition pd_mean_bool (bs : list bool) : F :=
  fdiv (of_nat (List.length (filter (fun b => b) bs))) (of_nat (List.length bs)).
End PandasReductions.

(** ** sklearn.metrics

    The three scores the module calls.  Each either returns a float or raises;
    the module catches ValueError only. *)

Class Sklearn (F : Type) : Type := {
  log_loss : list F -> list F -> res F;
  roc_auc_score : list F -> list F -> res F;
  accuracy_score : list F -> list F -> res F
}.

(** The documented behaviour on the arrays this module passes: [y_true] holds
    the 0/1 targets of a tournament, possibly NaN (unknown target, or a row the
    join left unmatched).  Arrays of different lengths and arrays with a NaN
    are rejected with ValueError; so is, in this model, a target that is
    not 0 or 1, the module having none.  [log_loss] and [roc_auc_score] also
    reject a [y_true] with fewer than two classes; [accuracy_score] does not:
    it is the share of positions where the two arrays agree.  The value of the
    cross-entropy (it needs a logarithm) and of the area under the curve are
    parameters. *)
Section SklearnDocumented.
Context {F : Type} `{Float64 F}.
Variable cross_entropy : list F -> list F -> F.
Variable area_under_curve : list F -> list F -> F.

Definition is_label (x : F) : bool := feqb x (of_Z 0) || feqb x (of_Z 1).

Definition has_class (c : Z) (y : list F) : bool := existsb (fun x => feqb x (of_Z c)) y.

Definition two_classes (y : list F) : bool := has_class 0 y && has_class 1 y.

Definition consistent (y yhat : list F) : bool := (List.length y =? List.length yhat)%nat.

Definition sk_log_loss (y yhat : list F) : res F :=
  if negb (consistent y yhat) then
    Raise (ValueError "Found input variables with inconsistent numbers of samples")
  else if negb (forallb is_label y) || existsb isnan yhat then
    Raise (ValueError "Input contains NaN or labels other than 0 and 1")
  else if negb (two_classes y) then
    Raise (ValueError "y_true contains only one label")
  else Ok (cross_entropy y yhat).

Definition sk_roc_auc_score (y yhat : list F) : res F :=
  if negb (consistent y yhat) then
    Raise (ValueError "Found input variables with inconsistent numbers of samples")
  else if negb (forallb is_label y) || existsb isnan yhat then
    Raise (ValueError "Input contains NaN or labels other than 0 and 1")
  else if negb (two_classes y) then
    Raise (ValueError "Only one class present in y_true")
  else Ok (area_under_curve y yhat).

(** The share of positions where the predicted label equals the true one. *)
Definition sk_accuracy_score (y yh : list F) : res F :=
  if negb (consistent y yh) then
    Raise (ValueError "Found input variables with inconsistent numbers of samples")
  else if negb (forallb is_label y) || negb (forallb is_label yh) then
    Raise (ValueError "Input contains NaN or labels other than 0 and 1")
  else Ok (pd_mean_bool (map (fun p => feqb (fst p) (snd p)) (combine y yh))).

Definition sklearn_documented : Sklearn F := {|
  log_loss := sk_log_loss;
  roc_auc_score := sk_roc_auc_score;
  accuracy_score := sk_accuracy_score
|}.
End SklearnDocumented.

(** ** Python values held in a metrics row *)

(** A tournament is named by its number or by its name. *)
Inductive label : Type :=
| LInt (t : Z)
| LStr (s : string).

(** A pair: (model name, tournament), the key of one prediction column. *)
Definition pair : Type := (string * label)%type.

Inductive pyobj (F : Type) : Type :=
| PFloat (x : F)
| PBool (b : bool)
| PInt (n : Z)
| PStr (s : string)
| PPair (p : pair).

Arguments PFloat {F} x.
Arguments PBool {F} b.
Arguments PInt {F} n.
Arguments PStr {F} s.
Arguments PPair {F} p.

(** ** calc_metrics_arrays *)

Section CalcMetricsArrays.
Context {F : Type} `{Float64 F} {sk : Sklearn F}.

Definition LOGLOSS_BENCHMARK : F := decimal 693 3.

Definition obj_isnan (o : pyobj F) : bool :=
  match o with
  | PFloat x => isnan x
  | _ => false
  end.

(** [try: m = <call> except ValueError: m = np.nan]; any other exception
    passes through. *)
Definition except_ValueError_nan (call : res (pyobj F)) : res (pyobj F) :=
  match call with
  | Ok m => Ok m
  | Raise (ValueError _) => Ok (PFloat nan)
  | Raise e => Raise e
  end.

(** [yh = np.zeros(yhat.size); yh[yhat >= 0.5] = 1] *)
Definition threshold (yhat : list F) : list F :=
  map (fun p => if fgeb p (decimal 5 1) then of_Z 1 else of_Z 0) yhat.

(** One pass of the loop body: the [if]/[elif] chain on the column name. *)
Definition calc_metric (y yhat : list F) (col : string) : res (pyobj F) :=
  if col =? "logloss" then
    except_ValueError_nan (do m <- log_loss y yhat; Ok (PFloat m))
  else if col =? "logloss_pass" then
    except_ValueError_nan (do m <- log_loss y yhat; Ok (PBool (fltb m LOGLOSS_BENCHMARK)))
  else if col =? "auc" then
    except_ValueError_nan (do m <- roc_auc_score y yhat; Ok (PFloat m))
  else if col =? "acc" then
    let yh := threshold yhat in
    except_ValueError_nan (do m <- accuracy_score y yh; Ok (PFloat m))
  else if col =? "ymin" then
    do m <- np_min yhat; Ok (PFloat m)
  else if col =? "ymax" then
    do m <- np_max yhat; Ok (PFloat m)
  else if col =? "ymean" then
    Ok (PFloat (np_mean yhat))
  else if col =? "ystd" then
    Ok (PFloat (np_std yhat))
  else if col =? "length" then
    Ok (PInt (np_size yhat))
  else
    Raise (ValueError ("unknown metric (" ++ col ++ ")")).

(** [for col in columns: ...; metrics.append(m)] *)
Fixpoint calc_metrics_arrays (y yhat : list F) (columns : list string)
  : res (list (pyobj F)) :=
  match columns with
  | [] => Ok []
  | col :: rest =>
      do m <- calc_metric y yhat col;
      do ms <- calc_metrics_arrays y yhat rest;
      Ok (m :: ms)
  end.
End CalcMetricsArrays.


(** ** Sequencing a loop that may raise *)

Fixpoint mapM {A B : Type} (f : A -> res B) (xs : list A) : res (list B) :=
  match xs with
  | [] => Ok []
  | x :: rest =>
      do y <- f x;
      do ys <- mapM f rest;
      Ok (y :: ys)
  end.

(** [enumerate(xs)] *)
Definition enumerate {A : Type} (xs : list A) : list (nat * A) :=
  combine (seq 0 (List.length xs)) xs.

(** A sort for [sort_values], [groupby] and [pivot]: insertion keeps equal
    keys in their order. *)
Section Sort.
Variable A : Type.
Variable leb : A -> A -> bool.

Fixpoint insert_sorted (x : A) (xs : list A) : list A :=
  match xs with
  | [] => [x]
  | y :: rest => if leb x y then x :: y :: rest else y :: insert_sorted x rest
  end.

Fixpoint sort_by (xs : list A) : list A :=
  match xs with
  | [] => []
  | x :: rest => insert_sorted x (sort_by rest)
  end.
End Sort.

(** [unique()]: the distinct values in order of first appearance. *)
Section Unique.
Variable A : Type.
Variable same : A -> A -> bool.

Fixpoint unique_from (seen : list A) (xs : list A) : list A :=
  match xs with
  | [] => []
  | x :: rest =>
      if existsb (same x) seen then unique_from seen rest
      else x :: unique_from (x :: seen) rest
  end.

Definition unique (xs : list A) : list A := unique_from [] xs.
End Unique.

(** ** Keys *)

Definition label_eqb (a b : label) : bool :=
  match a, b with
  | LInt s, LInt t => (s =? t)%Z
  | LStr s, LStr t => (s =? t)%string
  | _, _ => false
  end.

Definition pair_eqb (p q : pair) : bool :=
  (fst p =? fst q)%string && label_eqb (snd p) (snd q).

(** The order of tuples: by name, then by tournament; a number sorts before
    a name. *)
Definition label_leb (a b : label) : bool :=
  match a, b with
  | LInt s, LInt t => (s <=? t)%Z
  | LStr s, LStr t => String.leb s t
  | LInt _, LStr _ => true
  | LStr _, LInt _ => false
  end.

Definition pair_leb (p q : pair) : bool :=
  if (fst p =? fst q)%string then label_leb (snd p) (snd q)
  else String.leb (fst p) (fst q).

Section FloatKeys.
Context {F : Type} `{Float64 F}.

(** pandas hashes floats with all NaN equal: [unique] keeps one NaN. *)
Definition same_key (a b : F) : bool := feqb a b || (isnan a && isnan b).

(** [column.isin([b])] at a cell [a]: the listed value is compared as a
    Python object, with [==]: a number selects the cells equal to it, and a
    NaN, which equals nothing, itself included, selects no cell. *)
Definition isin (a b : F) : bool := negb (isnan b) && feqb a b.

(** Ascending with NaN last, [sort_values]'s default [na_position]. *)
Definition key_leb (a b : F) : bool := isnan b || fleb a b.
End FloatKeys.

(** ** DataFrame

    A frame is an index and named columns of equal length; a cell holds a
    Python value. *)

Record DataFrame (F : Type) : Type := {
  index : list (pyobj F);
  columns : list (string * list (pyobj F))
}.

Section Frames.
Context {F : Type} `{Float64 F}.

(** ['name' in df] *)
Definition has_column (name : string) (df : DataFrame F) : bool :=
  existsb (fun c => (fst c =? name)%string) (columns df).

(** [df[name]] *)
Definition column (name : string) (df : DataFrame F) : res (list (pyobj F)) :=
  match find (fun c => (fst c =? name)%string) (columns df) with
  | Some c => Ok (snd c)
  | None => Raise (KeyError name)
  end.

(** [df.insert(0, name, values)]: a column of that name must not exist. *)
Definition insert0 (name : string) (values : list (pyobj F)) (df : DataFrame F)
  : res (DataFrame F) :=
  if has_column name df then
    Raise (ValueError ("cannot insert " ++ name ++ ", already exists"))
  else Ok {| index := index df; columns := (name, values) :: columns df |}.

(** [range(n)] as an index. *)
Definition RangeIndex (n : nat) : list (pyobj F) := map (fun i => PInt (Z.of_nat i)) (seq 0 n).

(** [pd.DataFrame(rows, columns=names)]: column [j] holds the [j]-th item
    of every row. *)
Definition frame_of_rows (names : list string) (rows : list (list (pyobj F))) : DataFrame F := {|
  index := RangeIndex (List.length rows);
  columns := map (fun jn => (snd jn, map (fun r => nth (fst jn) r (PFloat nan)) rows))
                 (enumerate names)
|}.

(** A cell read as a float, as in a float64 column. *)
Definition to_float (o : pyobj F) : F :=
  match o with
  | PFloat x => x
  | PInt n => of_Z n
  | PBool b => if b then of_Z 1 else of_Z 0
  | _ => nan
  end.
End Frames.

(** ** add_split_pairs *)

Section AddSplitPairs.
Context {F : Type} `{Float64 F}.

(** [nx.tournament_str]: the name of a tournament given by number or name. *)
Variable tournament_str : label -> string.

Definition obj_of_label (t : label) : pyobj F :=
  match t with
  | LInt n => PInt n
  | LStr s => PStr s
  end.

(** The cells of the pair column (or of the index) are 2-tuples. *)
Definition as_pair (o : pyobj F) : res pair :=
  match o with
  | PPair p => Ok p
  | _ => Raise (OtherError "zip argument must support iteration")
  end.

(** [name, tournament = zip( *pairs )]: unpacking needs two sequences, and
    [zip] of no argument yields none. *)
Definition unzip_pairs (pairs : list pair) : res (list string * list label) :=
  match pairs with
  | [] => Raise (ValueError "not enough values to unpack (expected 2, got 0)")
  | _ => Ok (map fst pairs, map snd pairs)
  end.

(** [df['pair'].tolist()] if the frame has a pair column, else
    [df.index.tolist()]. *)
Definition pair_cells (df : DataFrame F) : res (list (pyobj F)) :=
  if has_column "pair" df then column "pair" df else Ok (index df).

Definition add_split_pairs (df : DataFrame F) (as_str : bool) : res (DataFrame F) :=
  do cells <- pair_cells df;
  do pairs <- mapM as_pair cells;
  do nt <- unzip_pairs pairs;
  let name := fst nt in
  let tournament :=
    if as_str then map (fun t => PStr (tournament_str t)) (snd nt)
    else map obj_of_label (snd nt) in
  do df <- insert0 "tournament" tournament df;
  do df <- insert0 "name" (map PStr name) df;
  Ok df.

(** Reading the two leading columns back as pairs: [zip(df.name, df.tournament)]. *)
Definition label_of_obj (o : pyobj F) : option label :=
  match o with
  | PInt n => Some (LInt n)
  | PStr s => Some (LStr s)
  | _ => None
  end.

Definition zip_cell (nt : pyobj F * pyobj F) : option pair :=
  match fst nt, label_of_obj (snd nt) with
  | PStr n, Some t => Some (n, t)
  | _, _ => None
  end.

Definition zip_columns (name tournament : list (pyobj F)) : list (option pair) :=
  map zip_cell (combine name tournament).
End AddSplitPairs.

(** ** The dataset and the predictions *)

(** A row of [data.df]: the row key, era and region codes, the features
    [x] and one target per tournament name. *)
Record DataRow (F : Type) : Type := {
  d_index : string;
  d_era : F;
  d_region : F;
  d_x : list F;
  d_target : string -> F
}.

(** [prediction.df]: one column per pair, one row per key; a cell is NaN
    where that pair has no prediction for the row. *)
Record Prediction (F : Type) : Type := {
  p_pairs : list pair;
  p_rows : list (string * list F)
}.

(** A row of the merged frame. *)
Record Joined (F : Type) : Type := {
  j_index : string;
  j_era : F;
  j_region : F;
  j_target : string -> F;
  j_yhat : list F
}.

Inductive how : Type := how_left | how_right | how_inner.

Section Merge.
Context {F : Type} `{Float64 F}.

(** [df.dropna()]: pandas' defaults are [axis=0, how='any'], a row goes
    when any of its cells is NaN. *)
Definition dropna (rows : list (string * list F)) : list (string * list F) :=
  filter (fun r => negb (existsb isnan (snd r))) rows.

Definition find_yhat (k : string) (yhats : list (string * list F)) : option (list F) :=
  option_map snd (find (fun r => (fst r =? k)%string) yhats).

Definition find_data (k : string) (data : list (DataRow F)) : option (DataRow F) :=
  find (fun d => (d_index d =? k)%string) data.

Definition joined (d : DataRow F) (yhat : list F) : Joined F := {|
  j_index := d_index d;
  j_era := d_era d;
  j_region := d_region d;
  j_target := d_target d;
  j_yhat := yhat
|}.

(** A prediction row with no data row: every data column is NaN. *)
Definition unmatched_yhat (r : string * list F) : Joined F := {|
  j_index := fst r;
  j_era := nan;
  j_region := nan;
  j_target := fun _ => nan;
  j_yhat := snd r
|}.

(** [pd.merge(data_df, yhats_df, left_index=True, right_index=True, how=how)],
    row keys being unique on both sides.  [width] is the number of
    prediction columns. *)
Definition merge (h : how) (width : nat) (data : list (DataRow F))
           (yhats : list (string * list F)) : list (Joined F) :=
  match h with
  | how_left =>
      map (fun d =>
             match find_yhat (d_index d) yhats with
             | Some yhat => joined d yhat
             | None => joined d (repeat nan width)
             end) data
  | how_right =>
      map (fun r =>
             match find_data (fst r) data with
             | Some d => joined d (snd r)
             | None => unmatched_yhat r
             end) yhats
  | how_inner =>
      flat_map (fun d =>
                  match find_yhat (d_index d) yhats with
                  | Some yhat => [joined d yhat]
                  | None => []
                  end) data
  end.

(** The merged frame of a call: the predictions are stripped of their NaN
    rows, then joined. *)
Definition joined_frame (h : how) (data : list (DataRow F)) (prediction : Prediction F)
  : list (Joined F) :=
  merge h (List.length (p_pairs prediction)) data (dropna (p_rows prediction)).
End Merge.

(** ** metrics_per_era *)

Section MetricsPerEra.
Context {F : Type} `{Float64 F} {sk : Sklearn F}.

Variable tournament_str : label -> string.
(** [numerox.data.ERA_INT_TO_STR] and [REGION_INT_TO_STR]. *)
Variable ERA_INT_TO_STR : F -> option string.
Variable REGION_INT_TO_STR : F -> option string.

Definition lookup (table : F -> option string) (k : F) : res (pyobj F) :=
  match table k with
  | Some s => Ok (PStr s)
  | None => Raise (KeyError "code")
  end.

Definition join_how (join : string) : res how :=
  if join =? "data" then Ok how_left
  else if join =? "yhat" then Ok how_right
  else if join =? "inner" then Ok how_inner
  else Raise (ValueError "`join` method not recognized").

(** The body of [for pair in pairs], [i] being the position of the
    pair's column. *)
Definition pair_metrics (df_era : list (Joined F)) (tournament : option label)
           (columns : list string) (era : pyobj F) (ip : nat * pair)
  : res (list (pyobj F)) :=
  let pair := snd ip in
  let tourni :=
    match tournament with
    | None => tournament_str (snd pair)
    | Some t => tournament_str t
    end in
  let y := map (fun r => j_target r tourni) df_era in
  let yhat := map (fun r => nth (fst ip) (j_yhat r) nan) df_era in
  do m <- calc_metrics_arrays y yhat columns;
  Ok (era :: PPair pair :: m).

(** The body of [for era in unique_eras]. *)
Definition era_metrics (df : list (Joined F)) (pairs : list pair)
           (tournament : option label) (columns : list string)
           (era_as_str : bool) (era : F) : res (list (list (pyobj F))) :=
  let df_era := filter (fun r => isin (j_era r) era) df in
  do era <- (if era_as_str then lookup ERA_INT_TO_STR era else Ok (PFloat era));
  mapM (pair_metrics df_era tournament columns era) (enumerate pairs).

Definition metrics_per_era (data : list (DataRow F)) (prediction : Prediction F)
           (tournament : option label) (join : string) (columns : list string)
           (era_as_str region_as_str split_pairs : bool)
  : res (DataFrame F * list (pyobj F)) :=
  let df := p_rows prediction in
  do how <- join_how join;
  let yhats_df := dropna df in
  let df := merge how (List.length (p_pairs prediction)) data yhats_df in
  let regions := unique same_key (map (@j_region F) df) in
  do regions <- (if region_as_str then mapM (lookup REGION_INT_TO_STR) regions
                 else Ok (map PFloat regions));
  let pairs := p_pairs prediction in
  let unique_eras := unique same_key (map (@j_era F) df) in
  do metrics <- mapM (era_metrics df pairs tournament columns era_as_str) unique_eras;
  let metrics := List.concat metrics in
  let columns := "era" :: "pair" :: columns in
  let metrics := frame_of_rows columns metrics in
  do metrics <- (if split_pairs then add_split_pairs tournament_str metrics true
                 else Ok metrics);
  Ok (metrics, regions).
End MetricsPerEra.

(** ** metrics_per_name *)

Section MetricsPerName.
Context {F : Type} `{Float64 F} {sk : Sklearn F}.

Variable tournament_str : label -> string.
Variable ERA_INT_TO_STR : F -> option string.
Variable REGION_INT_TO_STR : F -> option string.

Definition mem (c : string) (cs : list string) : bool := existsb (String.eqb c) cs.

(** The per-era columns behind the requested ones: [sharpe] and [consis]
    are derived from [logloss]. *)
Definition era_columns (columns : list string) : list string :=
  let skip := ["sharpe"; "consis"] in
  let cols := filter (fun c => negb (mem c skip)) columns in
  if mem "sharpe" columns || mem "consis" columns then
    (if negb (mem "logloss" cols) then cols ++ ["logloss"] else cols)
  else cols.

(** The (era, pair) key and one value of every row of the per-era frame. *)
Definition keyed (mpe : DataFrame F) (values : string) : res (list (F * pair * F)) :=
  do era <- column "era" mpe;
  do pr <- column "pair" mpe;
  do v <- column values mpe;
  do pairs <- mapM as_pair pr;
  Ok (combine (combine (map to_float era) pairs) (map to_float v)).

Definition same_cell (a b : F * pair) : bool :=
  same_key (fst a) (fst b) && pair_eqb (snd a) (snd b).

Fixpoint has_duplicates (A : Type) (same : A -> A -> bool) (xs : list A) : bool :=
  match xs with
  | [] => false
  | x :: rest => existsb (same x) rest || has_duplicates same rest
  end.

Definition cell_at (cells : list (F * pair * F)) (p : pair) (e : F) : F :=
  match find (fun c => same_cell (fst c) (e, p)) cells with
  | Some c => snd c
  | None => nan
  end.

(** [mpe.pivot(index='era', columns='pair', values='logloss')]: one column
    per pair, one row per era, both sorted; a repeated (era, pair) cannot
    be reshaped. *)
Definition pivot_eras (cells : list (F * pair * F)) : list F :=
  sort_by key_leb (unique same_key (map (fun c => fst (fst c)) cells)).

Definition pivot_pairs (cells : list (F * pair * F)) : list pair :=
  sort_by pair_leb (unique pair_eqb (map (fun c => snd (fst c)) cells)).

Definition pivot (mpe : DataFrame F) : res (list (pair * list F)) :=
  do cells <- keyed mpe "logloss";
  if has_duplicates same_cell (map fst cells) then
    Raise (ValueError "Index contains duplicate entries, cannot reshape")
  else
    Ok (map (fun p => (p, map (cell_at cells p) (pivot_eras cells))) (pivot_pairs cells)).

(** [mpe.groupby('pair').mean()[col]]: per pair, in sorted order, the mean
    of the column over that pair's rows. *)
Definition groupby_pair_mean (mpe : DataFrame F) (col : string) : res (list (pair * F)) :=
  do cells <- keyed mpe col;
  Ok (map (fun p =>
             (p, pd_mean (map snd (filter (fun c => pair_eqb (snd (fst c)) p) cells))))
          (pivot_pairs cells)).

(** [(pivot < LOGLOSS_BENCHMARK).mean(axis=0)] down one pair's column. *)
Definition consis (logloss : list F) : F :=
  pd_mean_bool (map (fun v => fltb v LOGLOSS_BENCHMARK) logloss).

(** [(LOGLOSS_BENCHMARK - pivot).mean(axis=0) / pivot.std(axis=0)] down one
    pair's column. *)
Definition sharpe (logloss : list F) : F :=
  fdiv (pd_mean (map (fun v => fsub LOGLOSS_BENCHMARK v) logloss)) (pd_std logloss).

Definition derived (stat : list F -> F) (pivot : option (list (pair * list F)))
  : res (list (pyobj F)) :=
  match pivot with
  | Some pv => Ok (map (fun pc => PFloat (stat (snd pc))) pv)
  | None => Raise (OtherError "local variable 'pivot' referenced before assignment")
  end.

Definition averaged (mpe : DataFrame F) (col : string) : res (list (pyobj F)) :=
  do mm <- groupby_pair_mean mpe col;
  Ok (map (fun pm => PFloat (snd pm)) mm).

(** The body of [for col in columns]. *)
Definition name_metric (mpe : DataFrame F) (pivot : option (list (pair * list F)))
           (col : string) : res (string * list (pyobj F)) :=
  do m <- (if col =? "consis" then derived consis pivot
           else if col =? "sharpe" then derived sharpe pivot
           else if col =? "logloss" then averaged mpe "logloss"
           else if col =? "auc" then averaged mpe "auc"
           else if col =? "acc" then averaged mpe "acc"
           else if col =? "ystd" then averaged mpe "ystd"
           else Raise (ValueError ("unknown metric (" ++ col ++ ")")));
  Ok (col, m).

Definition metrics_per_name (data : list (DataRow F)) (prediction : Prediction F)
           (tournament : option label) (join : string) (columns : list string)
           (era_as_str region_as_str split_pairs : bool)
  : res (DataFrame F * (list (pyobj F) * list (pyobj F))) :=
  let cols := era_columns columns in
  do mr <- metrics_per_era tournament_str ERA_INT_TO_STR REGION_INT_TO_STR
             data prediction tournament join cols false false true;
  let mpe := fst mr in
  let regions := snd mr in
  do era <- column "era" mpe;
  let info_era := unique same_key (map to_float era) in
  do info_era <- (if era_as_str then mapM (lookup ERA_INT_TO_STR) info_era
                  else Ok (map PFloat info_era));
  do info_region <- (if region_as_str
                     then mapM (lookup REGION_INT_TO_STR) (map to_float regions)
                     else Ok regions);
  do pivot <- (if mem "logloss" cols then do pv <- pivot mpe; Ok (Some pv) else Ok None);
  do mm <- groupby_pair_mean mpe "era";
  let metrics_index := map (fun pm => PPair (fst pm)) mm in
  do series <- mapM (name_metric mpe pivot) columns;
  let metrics := {| index := metrics_index; columns := series |} in
  do metrics <- (if split_pairs then add_split_pairs tournament_str metrics true
                 else Ok metrics);
  Ok (metrics, (info_era, info_region)).
End MetricsPerName.

(** ** concordance *)

Section Concordance.
Context {F : Type} `{Float64 F}.

Variable REGION_INT_TO_STR : F -> option string.
(** The model [MiniBatchKMeans(n_clusters=5, random_state=1337)] fits on the
    rows [x]: it assigns a cluster to a feature vector. *)
Variable kmeans_fit : list (list F) -> list F -> Z.
(** [scipy.stats.ks_2samp(a, b)[0]], the Kolmogorov-Smirnov statistic. *)
Variable ks_2samp : list F -> list F -> res F.
(** The message of the KeyError that [.loc] raises, which pandas builds from
    the labels asked for and the index. *)
Variable not_in_index : list string -> list string -> string.

Definition n_clusters : nat := 5.

(** [kmeans.fit(x)]: sklearn wants no fewer samples than clusters. *)
Definition fit (x : list (list F)) : res (list F -> Z) :=
  if (List.length x <? n_clusters)%nat
  then Raise (ValueError "n_samples should be >= n_clusters")
  else Ok (kmeans_fit x).

(** [kmeans.predict(x)]: sklearn wants at least one sample. *)
Definition predict (model : list F -> Z) (x : list (list F)) : res (list Z) :=
  match x with
  | [] => Raise (ValueError "Found array with 0 sample(s) while a minimum of 1 is required")
  | _ => Ok (map model x)
  end.

(** [data[region]] *)
Definition in_region (region : string) (data : list (DataRow F)) : list (DataRow F) :=
  filter (fun d => match REGION_INT_TO_STR (d_region d) with
                   | Some s => (s =? region)%string
                   | None => false
                   end) data.

(** The rows of the given labels, when every label is in the index. *)
Fixpoint rows_at (yhats : list (string * list F)) (labels : list string)
  : option (list (list F)) :=
  match labels with
  | [] => Some []
  | k :: rest =>
      match find_yhat k yhats, rows_at yhats rest with
      | Some yh, Some yhs => Some (yh :: yhs)
      | _, _ => None
      end
  end.

(** [prediction.df.loc[d.df.index].values]: a label that is not in the index
    is a KeyError. *)
Definition loc (prediction : Prediction F) (d : list (DataRow F)) : res (list (list F)) :=
  let labels := map (@d_index F) d in
  match rows_at (p_rows prediction) labels with
  | Some yh => Ok yh
  | None => Raise (KeyError (not_in_index labels (map fst (p_rows prediction))))
  end.

(** The body of [for region in ...]: cluster labels and aligned yhats. *)
Definition region_block (model : list F -> Z) (data : list (DataRow F))
           (prediction : Prediction F) (region : string)
  : res (list Z * list (list F)) :=
  let d := in_region region data in
  do cluster <- predict model (map (@d_x F) d);
  do yh <- loc prediction d;
  Ok (cluster, yh).

(** [yhats[k][:, i][clusters[k] == j]] *)
Definition in_cluster (block : list Z * list (list F)) (i : nat) (j : Z) : list F :=
  map (fun cy => nth i (snd cy) nan)
      (filter (fun cy => (fst cy =? j)%Z) (combine (fst block) (snd block))).

(** Python's [max] of a non-empty list: a later item replaces the
    running maximum when it compares greater. *)
Definition py_max (x : F) (rest : list F) : F :=
  fold_left (fun m item => if fltb m item then item else m) rest x.

(** [set(clusters[0])], iterated in increasing order. *)
Definition cluster_set (cluster : list Z) : list Z := sort_by Z.leb (unique Z.eqb cluster).

(** The body of [for j in set(clusters[0])]. *)
Definition cluster_distance (b0 b1 b2 : list Z * list (list F)) (i : nat) (j : Z) : res F :=
  let yhat0 := in_cluster b0 i j in
  let yhat1 := in_cluster b1 i j in
  let yhat2 := in_cluster b2 i j in
  do d01 <- ks_2samp yhat0 yhat1;
  do d02 <- ks_2samp yhat0 yhat2;
  do d21 <- ks_2samp yhat2 yhat1;
  Ok (py_max d01 [d02; d21]).

(** The body of [for i in range(len(pairs))]. *)
Definition concord (b0 b1 b2 : list Z * list (list F)) (ip : nat * pair) : res (pair * F) :=
  do ks <- mapM (cluster_distance b0 b1 b2 (fst ip)) (cluster_set (fst b0));
  Ok (snd ip, np_mean ks).

Definition concord_leb (a b : pair * F) : bool := key_leb (snd a) (snd b).

(** The rows of the result, (pair, concord), in the order of the pairs:
    [concords] before [sort_values('concord')]. *)
Definition concord_rows (data : list (DataRow F)) (prediction : Prediction F)
  : res (list (pair * F)) :=
  let pairs := p_pairs prediction in
  do model <- fit (map (@d_x F) data);
  do b0 <- region_block model data prediction "validation";
  do b1 <- region_block model data prediction "test";
  do b2 <- region_block model data prediction "live";
  mapM (concord b0 b1 b2) (enumerate pairs).

Definition concordance (data : list (DataRow F)) (prediction : Prediction F)
  : res (DataFrame F) :=
  do concords <- concord_rows data prediction;
  let concords := sort_by concord_leb concords in
  Ok {| index := map (fun c => PPair (fst c)) concords;
        columns := [("concord", map (fun c => PFloat (snd c)) concords)] |}.
End Concordance.

(** ** Vocabulary of the statements *)

(** The names [calc_metrics_arrays] knows, and those [metrics_per_name]
    knows. *)
Definition per_era_names : list string :=
  ["logloss"; "logloss_pass"; "auc"; "acc"; "ymin"; "ymax"; "ymean"; "ystd"; "length"].

Definition per_name_names : list string :=
  ["consis"; "sharpe"; "logloss"; "auc"; "acc"; "ystd"].

Definition known_metric (c : string) : bool := existsb (String.eqb c) per_era_names.

Definition known_summary (c : string) : bool := existsb (String.eqb c) per_name_names.


Definition unknown_metric (c : string) : exn := ValueError ("unknown metric (" ++ c ++ ")").

(** sklearn raising nothing but ValueError on the arrays it is given. *)
Definition raises_only_ValueError {F : Type} (f : list F -> list F -> res F) : Prop :=
  forall y yhat e, f y yhat = Raise e -> exists msg, e = ValueError msg.

(** Every column of the frame is as long as its index. *)
Definition rectangular {F : Type} (df : DataFrame F) : Prop :=
  forall c, In c (columns df) -> List.length (snd c) = List.length (index df).

(** A cell that holds a prediction. *)
Definition observed {F : Type} `{Float64 F} (x : F) : bool := negb (isnan x).

(** The prediction with its not fully observed rows already taken out. *)
Definition fully_observed {F : Type} `{Float64 F} (prediction : Prediction F) : Prediction F :=
  {| p_pairs := p_pairs prediction; p_rows := dropna (p_rows prediction) |}.

(** An era of a pair's column that beats the benchmark. *)
Definition beats_benchmark {F : Type} `{Float64 F} (v : F) : bool := fltb v LOGLOSS_BENCHMARK.

(** The tournament of a pair as [add_split_pairs] writes it, as a label and
    as the cell of the [tournament] column. *)
Definition rendered (tournament_str : label -> string) (as_str : bool) (t : label) : label :=
  if as_str then LStr (tournament_str t) else t.

Definition tournament_cell {F : Type} (tournament_str : label -> string) (as_str : bool)
           (t : label) : pyobj F :=
  if as_str then PStr (tournament_str t) else obj_of_label t.

(** Every row of the three regions has a row of predictions. *)
Definition aligned {F : Type} (REGION_INT_TO_STR : F -> option string)
           (data : list (DataRow F)) (prediction : Prediction F) : Prop :=
  forall (region : string) (d : DataRow F),
    In region ["validation"; "test"; "live"] ->
    In d (in_region REGION_INT_TO_STR region data) ->
    find_yhat (d_index d) (p_rows prediction) <> None.

(** [ks_2samp] returns a statistic on two samples that are not empty, and
    raises ValueError when one is. *)
Definition returns_on_samples {F : Type} (ks_2samp : list F -> list F -> res F) : Prop :=
  forall a b, a <> [] -> b <> [] -> exists d, ks_2samp a b = Ok d.

Definition rejects_empty {F : Type} (ks_2samp : list F -> list F -> res F) : Prop :=
  forall a b, a = [] \/ b = [] -> exists msg, ks_2samp a b = Raise (ValueError msg).

(** What k-means needs to fit and to predict: no fewer rows than clusters,
    and a row in each of the three regions. *)
Definition clusterable {F : Type} (REGION_INT_TO_STR : F -> option string)
           (data : list (DataRow F)) : Prop :=
  (n_clusters <= List.length data)%nat /\
  forall region : string,
    In region ["validation"; "test"; "live"] -> in_region REGION_INT_TO_STR region data <> [].

(** A row of the region in the cluster of the row [d]. *)
Definition shares_cluster {F : Type} (REGION_INT_TO_STR : F -> option string)
           (model : list F -> Z) (data : list (DataRow F)) (d : DataRow F) (region : string)
  : Prop :=
  exists d', In d' (in_region REGION_INT_TO_STR region data) /\ model (d_x d') = model (d_x d).

(** Every cluster of a validation row holds a test row and a live row. *)
Definition clusters_shared {F : Type} (REGION_INT_TO_STR : F -> option string)
           (model : list F -> Z) (data : list (DataRow F)) : Prop :=
  forall (d : DataRow F) (region : string),
    In d (in_region REGION_INT_TO_STR "validation" data) ->
    In region ["test"; "live"] ->
    shares_cluster REGION_INT_TO_STR model data d region.

(** Ascending by value, NaN last. *)
Definition ascending {F : Type} `{Float64 F} (rows : list (pair * F)) : Prop :=
  StronglySorted (fun a b => concord_leb a b = true) rows.

(** The running sums of [b - v] and of [v] over the same cells of the
    exact model. *)
Definition mirrored (b : R) (k : nat) (s' s : xreal) : Prop :=
  match s', s with
  | XFin a', XFin a => a' = (IZR (Z.of_nat k) * b - a)%R
  | XInf t', XInf t => t' = negb t
  | XNaN, XNaN => True
  | _, _ => False
  end.

(** ** A small run, on IEEE floats *)

Module Example.
(** What sklearn returned on the groups of a run: a table from the yhat
    array of a group to the value, NaN for an array that is not listed. *)
Definition same_array (a b : list float) : bool :=
  (List.length a =? List.length b)%nat &&
  forallb (fun p => PrimFloat.eqb (fst p) (snd p)) (combine a b).

Definition recorded (table : list (list float * float)) (y yhat : list float) : float :=
  match find (fun entry => same_array (fst entry) yhat) table with
  | Some entry => snd entry
  | None => nan
  end.

(** sklearn as documented, with the given log-losses and areas. *)
Definition sklearn (log_losses areas : list (list float * float)) : Sklearn float :=
  sklearn_documented (recorded log_losses) (recorded areas).

Definition tournament_str (t : label) : string :=
  match t with
  | LInt 1 => "bernie"
  | LInt 2 => "elizabeth"
  | LInt 3 => "jordan"
  | LInt 4 => "ken"
  | LInt _ => "charles"
  | LStr s => s
  end.

Definition name_of (names : list (Z * string)) (code : float) : option string :=
  option_map snd (find (fun kv => PrimFloat.eqb (of_Z (fst kv)) code) names).

Definition ERA_INT_TO_STR : float -> option string :=
  name_of [(1, "era1"); (2, "era2"); (3, "era3"); (4, "era4")]%Z.

Definition REGION_INT_TO_STR : float -> option string :=
  name_of [(0, "train"); (1, "validation"); (2, "test"); (3, "live")]%Z.

Definition row (key : string) (era region target : float) : DataRow float := {|
  d_index := key;
  d_era := era;
  d_region := region;
  d_x := [era; target];
  d_target := fun _ => target
|}.

(** Five rows over two eras and three regions. *)
Definition data : list (DataRow float) :=
  [row "a" 1 1 0; row "b" 1 1 1; row "c" 2 2 1; row "d" 2 2 0; row "e" 2 3 1]%float.

(** Two pairs; the second has no prediction for row "e". *)
Definition prediction : Prediction float := {|
  p_pairs := [("m", LInt 1); ("k", LInt 2)];
  p_rows := [("a", [0.4; 0.6]); ("b", [0.7; 0.2]); ("c", [0.9; 0.5]);
             ("d", [0.2; 0.8]); ("e", [0.3; PrimFloat.nan])]%float
|}.

(** The cross-entropy and the area under the curve of the two-class
    groups of [data] and [prediction]. *)
Definition log_losses : list (list float * float) :=
  [([0.4; 0.7], 0.4337502838523616); ([0.6; 0.2], 1.2628643221541276);
   ([0.9; 0.2], 0.164252033486018); ([0.5; 0.8], 1.151292546497023)]%float.

Definition areas : list (list float * float) :=
  [([0.4; 0.7], 1); ([0.6; 0.2], 0); ([0.9; 0.2], 1); ([0.5; 0.8], 0)]%float.

(** Four eras of two rows, one pair, and the log-loss supposed for each
    era: 0.5, 0.8, 0.6 and 0.9. *)
Definition four_eras : list (DataRow float) :=
  [row "a1" 1 1 0; row "a2" 1 1 1; row "b1" 2 1 0; row "b2" 2 1 1;
   row "c1" 3 1 0; row "c2" 3 1 1; row "d1" 4 1 0; row "d2" 4 1 1]%float.

Definition model : Prediction float := {|
  p_pairs := [("m", LInt 1)];
  p_rows := [("a1", [0.41]); ("a2", [0.61]); ("b1", [0.42]); ("b2", [0.62]);
             ("c1", [0.43]); ("c2", [0.63]); ("d1", [0.44]); ("d2", [0.64])]%float
|}.

Definition four_losses : list (list float * float) :=
  [([0.41; 0.61], 0.5); ([0.42; 0.62], 0.8); ([0.43; 0.63], 0.6); ([0.44; 0.64], 0.9)]%float.

(** The first two of these eras, with log-loss 0.6 and 0.7. *)
Definition two_eras : list (DataRow float) := firstn 4 four_eras.

Definition two_losses : list (list float * float) :=
  [([0.41; 0.61], 0.6); ([0.42; 0.62], 0.7)]%float.

(** Both pairs predicted on every row; the second predicts 0.5 throughout. *)
Definition submission : Prediction float := {|
  p_pairs := [("m", LInt 1); ("k", LInt 2)];
  p_rows := [("a", [0.4; 0.5]); ("b", [0.7; 0.5]); ("c", [0.9; 0.5]);
             ("d", [0.2; 0.5]); ("e", [0.3; 0.5])]%float
|}.

(** Four eras of two rows, not in the order of the eras, two pairs, and
    the log-loss supposed for each pair and era: for ("m", 1) 0.5, 0.8, 0.6
    and 0.9 on eras 1 to 4; for ("k", 2) the benchmark, the float just below
    it, 0.65 and 0.1. *)
Definition mixed_eras : list (DataRow float) :=
  [row "c1" 3 1 0; row "c2" 3 1 1; row "a1" 1 1 0; row "a2" 1 1 1;
   row "d1" 4 1 0; row "d2" 4 1 1; row "b1" 2 1 0; row "b2" 2 1 1]%float.

Definition duo : Prediction float := {|
  p_pairs := [("m", LInt 1); ("k", LInt 2)];
  p_rows := [("a1", [0.41; 0.31]); ("a2", [0.61; 0.71]); ("b1", [0.42; 0.32]);
             ("b2", [0.62; 0.72]); ("c1", [0.43; 0.33]); ("c2", [0.63; 0.73]);
             ("d1", [0.44; 0.34]); ("d2", [0.64; 0.74])]%float
|}.

Definition duo_losses : list (list float * float) :=
  [([0.41; 0.61], 0.5); ([0.42; 0.62], 0.8); ([0.43; 0.63], 0.6); ([0.44; 0.64], 0.9);
   ([0.31; 0.71], 0.693); ([0.32; 0.72], 0.69299999999999984);
   ([0.33; 0.73], 0.65); ([0.34; 0.74], 0.1)]%float.

(** A stand-in for the fitted k-means model: the cluster is read off the
    first feature. *)
Definition kmeans_fit (x : list (list float)) (v : list float) : Z :=
  match v with
  | e :: _ => if PrimFloat.ltb e 3 then 0%Z else 1%Z
  | [] => 0%Z
  end.

(** The fitted model when every feature vector is a cluster of its own, as
    five clusters on five rows come out: the cluster is read off the two
    features. *)
Definition kmeans_own (x : list (list float)) (v : list float) : Z :=
  match v with
  | e :: t :: _ =>
      ((if PrimFloat.ltb e 2 then 0 else 2) + (if PrimFloat.ltb t 1 then 0 else 1))%Z
  | _ => 0%Z
  end.

(** The two-sample Kolmogorov-Smirnov statistic: the largest gap between
    the two empirical distribution functions, over the pooled sample; scipy
    raises ValueError on an empty sample. *)
Definition ecdf (a : list float) (v : float) : float :=
  fdiv (of_nat (List.length (filter (fun x => PrimFloat.leb x v) a))) (of_nat (List.length a)).

Definition ks_2samp (a b : list float) : res float :=
  match a, b with
  | [], _ | _, [] => Raise (ValueError "Data passed to ks_2samp must not be empty")
  | _, _ =>
      Ok (fold_left np_maximum
            (map (fun v => PrimFloat.abs (fsub (ecdf a v) (ecdf b v))) (a ++ b)) (of_Z 0))
  end.

(** The message of [.loc]'s KeyError as pandas 1.5 words it on plain
    labels: when none of the labels is in the index, and when some are. *)
Definition repr_labels (labels : list string) : string :=
  String.append "[" (String.append
    (String.concat ", " (map (fun k => String.append "'" (String.append k "'")) labels)) "]").

Definition not_in_index (labels index : list string) : string :=
  let found k := existsb (String.eqb k) index in
  if existsb found labels
  then String.append (repr_labels (filter (fun k => negb (found k)) labels)) " not in index"
  else String.append "None of [Index("
         (String.append (repr_labels labels) ", dtype='object')] are in the [index]").
End Example.

(** ** Vocabulary of the further properties *)

(** The cell that names an era in a row of the per-era frame: the name of
    the era when [era_as_str] is set (a code without a name raises before the
    row is built), else its code. *)
Definition era_cell {F : Type} (ERA_INT_TO_STR : F -> option string) (era_as_str : bool)
           (e : F) : pyobj F :=
  if era_as_str then
    match ERA_INT_TO_STR e with
    | Some s => PStr s
    | None => PFloat e
    end
  else PFloat e.

(** The eras of a joined frame, each once, in order of first appearance. *)
Definition eras_of {F : Type} `{Float64 F} (df : list (Joined F)) : list F :=
  unique same_key (map (@j_era F) df).

(** The (era, pair) keys of the rows of the per-era frame: era by era, and
    within an era pair by pair. *)
Definition row_keys {F : Type} `{Float64 F} (df : list (Joined F)) (pairs : list pair)
  : list (F * pair) :=
  flat_map (fun e => map (fun p => (e, p)) pairs) (eras_of df).

(** The regions of a joined frame, each once, in order of first appearance. *)
Definition regions_of {F : Type} `{Float64 F} (df : list (Joined F)) : list F :=
  unique same_key (map (@j_region F) df).

(** [[table[c] for c in codes]] when names are asked for, else the codes. *)
Definition code_names {F : Type} (table : F -> option string) (as_str : bool) (codes : list F)
  : res (list (pyobj F)) :=
  if as_str then mapM (lookup table) codes else Ok (map PFloat codes).

(** The names of the columns of a frame, left to right. *)
Definition column_names {F : Type} (df : DataFrame F) : list string := map fst (columns df).

(** The columns [add_split_pairs] puts in front. *)
Definition split_names (split_pairs : bool) : list string :=
  if split_pairs then ["name"; "tournament"] else [].

(** What [feqb] adds to the laws when floats are used as keys: it is
    symmetric and transitive, and holds of no NaN. *)
Class Float64KeyLaws (F : Type) `{Float64 F} : Prop := {
  feqb_sym : forall x y : F, feqb x y = feqb y x;
  feqb_trans : forall x y z : F, feqb x y = true -> feqb y z = true -> feqb x z = true;
  feqb_notnan : forall x y : F, feqb x y = true -> isnan x = false
}.

Arguments Float64KeyLaws F {_}.

(** The rows of one era: [df[df.era.isin([era])]]. *)
Definition era_group {F : Type} `{Float64 F} (df : list (Joined F)) (era : F) : list (Joined F) :=
  filter (fun r => isin (j_era r) era) df.

(** Every row of the region has a row of predictions. *)
Definition aligned_region {F : Type} (REGION_INT_TO_STR : F -> option string)
           (data : list (DataRow F)) (prediction : Prediction F) (region : string) : Prop :=
  forall d : DataRow F,
    In d (in_region REGION_INT_TO_STR region data) ->
    find_yhat (d_index d) (p_rows prediction) <> None.

(** Some row of [d] has no row of predictions. *)
Definition misaligned {F : Type} (prediction : Prediction F) (d : list (DataRow F)) : Prop :=
  exists r, In r d /\ find_yhat (d_index r) (p_rows prediction) = None.

(** The rows of the per-era frame with the position of the pair's column:
    what the two loops range over. *)
Definition indexed_keys {F : Type} `{Float64 F} (df : list (Joined F)) (pairs : list pair)
  : list (F * (nat * pair)) :=
  flat_map (fun e => map (fun ip => (e, ip)) (enumerate pairs)) (eras_of df).

(** The two arrays of a row: the targets [df_era[tourni].values] and the
    predictions [df_era[pair].values] of the rows of its era. *)
Definition group_y {F : Type} `{Float64 F} (tournament_str : label -> string)
           (tournament : option label) (df : list (Joined F)) (k : F * (nat * pair)) : list F :=
  let tourni :=
    match tournament with
    | None => tournament_str (snd (snd (snd k)))
    | Some t => tournament_str t
    end in
  map (fun r => j_target r tourni) (era_group df (fst k)).

Definition group_yhat {F : Type} `{Float64 F} (df : list (Joined F)) (k : F * (nat * pair))
  : list F :=
  map (fun r => nth (fst (snd k)) (j_yhat r) nan) (era_group df (fst k)).

(** The position of the first column of that name. *)
Fixpoint position (c : string) (names : list string) : option nat :=
  match names with
  | [] => None
  | n :: rest => if (n =? c)%string then Some 0%nat else option_map S (position c rest)
  end.

(** The log-loss of a row of the per-era frame: [log_loss] on the row's two
    arrays, NaN when it raises. *)
Definition era_logloss {F : Type} `{Float64 F} {sk : Sklearn F}
           (tournament_str : label -> string) (tournament : option label)
           (df : list (Joined F)) (k : F * (nat * pair)) : F :=
  match log_loss (group_y tournament_str tournament df k) (group_yhat df k) with
  | Ok m => m
  | Raise _ => nan
  end.

(** The table of the log-losses: one column per pair, the pairs in
    ascending order; down a column one cell per era, the eras ascending, NaN
    last. *)
Definition logloss_table {F : Type} `{Float64 F} {sk : Sklearn F}
           (tournament_str : label -> string) (tournament : option label)
           (df : list (Joined F)) (pairs : list pair) : list (pair * list F) :=
  map (fun ip =>
         (snd ip,
          map (fun e => era_logloss tournament_str tournament df (e, ip))
              (sort_by key_leb (eras_of df))))
      (sort_by (fun a b : nat * pair => pair_leb (snd a) (snd b)) (enumerate pairs)).

(** ** Further runs, on IEEE floats *)

Module Runs.
Definition sklearn : Sklearn float := Example.sklearn Example.log_losses Example.areas.

(** The per-era frame of [Example.data] and [Example.prediction] under
    [join='yhat'], scored against tournament 3, with names for the eras and
    the regions. *)
Definition per_era_frame : DataFrame float := {|
  index := [PInt 0; PInt 1; PInt 2; PInt 3];
  columns :=
    [("name", [PStr "m"; PStr "k"; PStr "m"; PStr "k"]);
     ("tournament", [PStr "bernie"; PStr "elizabeth"; PStr "bernie"; PStr "elizabeth"]);
     ("era", [PStr "era1"; PStr "era1"; PStr "era2"; PStr "era2"]);
     ("pair", [PPair ("m", LInt 1); PPair ("k", LInt 2);
               PPair ("m", LInt 1); PPair ("k", LInt 2)]);
     ("logloss", [PFloat 0.4337502838523616; PFloat 1.2628643221541276;
                  PFloat 0.164252033486018; PFloat 1.151292546497023]%float);
     ("length", [PInt 2; PInt 2; PInt 2; PInt 2])]
|}.

(** The summary of the same inputs under [join='yhat']. *)
Definition summary : DataFrame float := {|
  index := [PPair ("k", LInt 2); PPair ("m", LInt 1)];
  columns :=
    [("name", [PStr "k"; PStr "m"]);
     ("tournament", [PStr "elizabeth"; PStr "bernie"]);
     ("logloss", [PFloat 1.2070784343255752; PFloat 0.2990011586691898]%float);
     ("consis", [PFloat 0; PFloat 1]%float);
     ("acc", [PFloat 0.25; PFloat 1]%float)]
|}.

(** The summary of the same inputs under [join='data'], the default. *)
Definition summary_data : DataFrame float := {|
  index := [PPair ("k", LInt 2); PPair ("m", LInt 1)];
  columns :=
    [("name", [PStr "k"; PStr "m"]);
     ("tournament", [PStr "elizabeth"; PStr "bernie"]);
     ("logloss", [PFloat 1.2628643221541276; PFloat 0.43375028385236158]%float);
     ("acc", [PFloat 0.16666666666666666; PFloat 0.83333333333333326]%float)]
|}.

(** Predictions of which every row misses a cell. *)
Definition unobserved : Prediction float := {|
  p_pairs := [("m", LInt 1); ("k", LInt 2)];
  p_rows := [("a", [0.4; PrimFloat.nan]); ("b", [PrimFloat.nan; 0.2])]%float
|}.

(** Predictions for the validation rows only. *)
Definition validation_only : Prediction float := {|
  p_pairs := [("m", LInt 1); ("k", LInt 2)];
  p_rows := [("a", [0.4; 0.6]); ("b", [0.7; 0.2])]%float
|}.

(** Predictions with a row, "z", that the data does not have. *)
Definition stray : Prediction float := {|
  p_pairs := [("m", LInt 1); ("k", LInt 2)];
  p_rows := [("a", [0.4; 0.6]); ("z", [0.1; 0.2])]%float
|}.
End Runs.

(** * Properties *)

(** ** The two models of float64 satisfy the laws *)

Lemma Rltb_true a b : Rltb a b = true <-> (a < b)%R.
Proof. unfold Rltb. destruct (Rlt_dec a b); split; intros; auto; discriminate. Qed.

Lemma Rleb_true a b : Rleb a b = true <-> (a <= b)%R.
Proof. unfold Rleb. destruct (Rle_dec a b); split; intros; auto; discriminate. Qed.

Lemma Reqb_true a b : Reqb a b = true <-> a = b.
Proof. unfold Reqb. destruct (Req_dec_T a b); split; intros; auto; discriminate. Qed.

Lemma Reqb_refl a : Reqb a a = true.
Proof. apply Reqb_true. reflexivity. Qed.

Lemma Rltb_false a b : Rltb a b = false <-> (b <= a)%R.
Proof. unfold Rltb. destruct (Rlt_dec a b); split; intros; auto; try discriminate; lra. Qed.

Lemma Reqb_false a b : Reqb a b = false <-> a <> b.
Proof. unfold Reqb. destruct (Req_dec_T a b); split; intros; auto; try discriminate; contradiction. Qed.

Lemma xisnan_inv (x : xreal) : isnan x = true -> x = XNaN.
Proof.
  unfold isnan; simpl. destruct x as [| s | r]; simpl; auto.
  - destruct s; discriminate.
  - rewrite Reqb_refl. discriminate.
Qed.

Lemma xisnan_false (x : xreal) : isnan x = false -> x <> XNaN.
Proof. intros E ->. discriminate. Qed.

Lemma xnan : (nan : xreal) = XNaN.
Proof. unfold nan; simpl. rewrite Reqb_refl. reflexivity. Qed.

#[export] Instance Float64Laws_exact : Float64Laws xreal.
Proof.
  split.
  - rewrite xnan. reflexivity.
  - intros x y E. apply xisnan_inv in E. subst. reflexivity.
  - intros [| s | r]; simpl; auto.
    + destruct s; reflexivity.
    + apply Rltb_false. lra.
  - intros x y E. apply xisnan_inv in E. subst. reflexivity.
  - intros x y E. apply xisnan_inv in E. subst. destruct x; reflexivity.
  - intros [| s | a] [| t | b] Ex Ey; try discriminate; simpl.
    + destruct s, t; auto.
    + destruct s; auto.
    + destruct t; auto.
    + rewrite !Rleb_true. lra.
  - intros [| s | a] [| t | b] [| u | c]; simpl; try discriminate; auto;
      try destruct s; try destruct t; try destruct u; simpl; auto; try discriminate;
      rewrite ?Rleb_true; lra.
  - simpl. apply Reqb_refl.
  - simpl. apply Reqb_refl.
  - simpl. apply Reqb_false. lra.
  - simpl. apply Reqb_false. lra.
Qed.

(** IEEE comparisons, through the specification of the primitive floats. *)

Lemma Zcompare_cases e f :
  ((e ?= f)%Z = Lt /\ (e < f)%Z) \/ ((e ?= f)%Z = Eq /\ e = f) \/ ((e ?= f)%Z = Gt /\ (f < e)%Z).
Proof. destruct (Z.compare_spec e f); auto. Qed.

Lemma Poscompare_cases m n :
  (Pos.compare_cont Eq m n = Lt /\ (m < n)%positive) \/
  (Pos.compare_cont Eq m n = Eq /\ m = n) \/
  (Pos.compare_cont Eq m n = Gt /\ (n < m)%positive).
Proof.
  change (Pos.compare_cont Eq m n) with (Pos.compare m n).
  destruct (Pos.compare_spec m n); auto.
Qed.

Ltac compare_cases :=
  repeat match goal with
  | |- context [(?a ?= ?b)%Z] =>
      destruct (Zcompare_cases a b) as [(-> & ?) | [(-> & ?) | (-> & ?)]]; simpl
  | |- context [Pos.compare_cont Eq ?a ?b] =>
      destruct (Poscompare_cases a b) as [(-> & ?) | [(-> & ?) | (-> & ?)]]; simpl
  end.

Lemma SFcompare_refl x : SFcompare x x = None \/ SFcompare x x = Some Eq.
Proof.
  destruct x as [s | s | | s m e]; simpl; auto; right.
  - destruct s; reflexivity.
  - destruct s; rewrite Z.compare_refl, Pos.compare_cont_refl; reflexivity.
Qed.

Lemma SFcompare_nan_l x y : SFcompare x x = None -> SFcompare x y = None.
Proof.
  destruct x as [s | s | | s m e]; simpl; try discriminate; auto; destruct s; discriminate.
Qed.

Lemma SFcompare_nan_r x y : SFcompare y y = None -> SFcompare x y = None.
Proof.
  destruct y as [s | s | | s m e]; simpl; try discriminate; destruct x; auto;
    destruct s; discriminate.
Qed.

Lemma SFleb_total x y :
  SFcompare x x = Some Eq -> SFcompare y y = Some Eq -> SFleb x y = true \/ SFleb y x = true.
Proof.
  unfold SFleb.
  destruct x as [s | s | | s m e], y as [t | t | | t n f]; simpl; intros; try discriminate;
    try (destruct s; auto; fail); try (destruct t; auto; fail);
    try (destruct s, t; auto; fail); auto.
  destruct s, t; auto; compare_cases; auto; exfalso; lia.
Qed.

Lemma SFleb_trans x y z : SFleb x y = true -> SFleb y z = true -> SFleb x z = true.
Proof.
  unfold SFleb.
  destruct x as [s | s | | s m e], y as [t | t | | t n f], z as [u | u | | u p g]; simpl;
    try discriminate; try reflexivity;
    try destruct s; try destruct t; try destruct u; simpl; try discriminate; try reflexivity.
  all: compare_cases; intros; try reflexivity; try discriminate; exfalso; lia.
Qed.

Lemma prim_isnan (x : float) : isnan x = true -> SFcompare (Prim2SF x) (Prim2SF x) = None.
Proof.
  unfold isnan; simpl. rewrite FloatAxioms.eqb_spec. unfold SFeqb.
  destruct (SFcompare_refl (Prim2SF x)) as [-> | ->]; auto; discriminate.
Qed.

Lemma prim_notnan (x : float) : isnan x = false -> SFcompare (Prim2SF x) (Prim2SF x) = Some Eq.
Proof.
  unfold isnan; simpl. rewrite FloatAxioms.eqb_spec. unfold SFeqb.
  destruct (SFcompare_refl (Prim2SF x)) as [-> | ->]; auto; discriminate.
Qed.

#[export] Instance Float64Laws_prim : Float64Laws float.
Proof.
  split; simpl.
  - reflexivity.
  - intros x y E. rewrite FloatAxioms.ltb_spec. unfold SFltb.
    rewrite (SFcompare_nan_l _ (Prim2SF y) (prim_isnan x E)). reflexivity.
  - intros x. rewrite FloatAxioms.ltb_spec. unfold SFltb.
    destruct (SFcompare_refl (Prim2SF x)) as [-> | ->]; reflexivity.
  - intros x y E. rewrite FloatAxioms.leb_spec. unfold SFleb.
    rewrite (SFcompare_nan_l _ (Prim2SF y) (prim_isnan x E)). reflexivity.
  - intros x y E. rewrite FloatAxioms.leb_spec. unfold SFleb.
    rewrite (SFcompare_nan_r (Prim2SF x) _ (prim_isnan y E)). reflexivity.
  - intros x y Ex Ey. rewrite !FloatAxioms.leb_spec.
    apply SFleb_total; apply prim_notnan; assumption.
  - intros x y z. rewrite !FloatAxioms.leb_spec. apply SFleb_trans.
  - reflexivity.
  - reflexivity.
  - reflexivity.
  - reflexivity.
Qed.

(** ** Dropping unobserved prediction rows *)

Section DropnaFacts.
Context {F : Type} `{Float64 F}.

Lemma no_nan_all_observed (cells : list F) :
  negb (existsb isnan cells) = forallb observed cells.
Proof.
  induction cells as [| x cells IH]; simpl; auto.
  rewrite negb_orb, IH. reflexivity.
Qed.

Lemma dropna_In (rows : list (string * list F)) (r : string * list F) :
  In r (dropna rows) <-> In r rows /\ forallb observed (snd r) = true.
Proof.
  unfold dropna. rewrite filter_In, no_nan_all_observed. reflexivity.
Qed.

Lemma filter_idem (A : Type) (f : A -> bool) (xs : list A) :
  filter f (filter f xs) = filter f xs.
Proof.
  induction xs as [| x xs IH]; simpl; auto.
  destruct (f x) eqn:E; simpl; rewrite ?E, IH; reflexivity.
Qed.

Lemma dropna_idem (rows : list (string * list F)) : dropna (dropna rows) = dropna rows.
Proof. apply filter_idem. Qed.

Lemma find_yhat_In (k : string) (yhats : list (string * list F)) (yhat : list F) :
  find_yhat k yhats = Some yhat -> exists r, In r yhats /\ snd r = yhat.
Proof.
  unfold find_yhat. destruct (find _ yhats) as [r |] eqn:E; [| discriminate].
  intros [= <-]. apply find_some in E. exists r. tauto.
Qed.

(** Under [how='right'] and [how='inner'] a joined row carries a row of the
    predictions that [dropna] kept. *)
Lemma joined_observed (h : how) (data : list (DataRow F)) (prediction : Prediction F)
      (r : Joined F) :
  h <> how_left -> In r (joined_frame h data prediction) ->
  forallb observed (j_yhat r) = true.
Proof.
  intros Hh Hr. unfold joined_frame, merge in Hr. destruct h; [contradiction | |].
  - apply in_map_iff in Hr. destruct Hr as (y & <- & Hy).
    apply dropna_In in Hy. destruct (find_data (fst y) data); apply Hy.
  - apply in_flat_map in Hr. destruct Hr as (d & _ & Hr).
    destruct (find_yhat (d_index d) (dropna (p_rows prediction))) as [yhat |] eqn:E;
      [| contradiction].
    destruct Hr as [<- | []]. apply find_yhat_In in E. destruct E as (y & Hy & <-).
    apply dropna_In in Hy. apply Hy.
Qed.

(** Under [how='left'] a data row without a row among the predictions that
    [dropna] kept is joined all the same, with NaN for every pair. *)
Lemma left_join_unmatched (data : list (DataRow F)) (prediction : Prediction F) (d : DataRow F) :
  In d data ->
  find_yhat (d_index d) (dropna (p_rows prediction)) = None ->
  In (joined d (repeat nan (List.length (p_pairs prediction))))
     (joined_frame how_left data prediction).
Proof.
  intros Hin Hf. unfold joined_frame, merge. apply in_map_iff. exists d.
  rewrite Hf. auto.
Qed.
End DropnaFacts.

(** C1, as the code has it: [metrics_per_era] drops, before the join, exactly
    the prediction rows holding a NaN in at least one pair column ([dropna]
    with pandas' default [how='any']); the rows kept are those observed in
    every column, and the call returns what it returns on the prediction
    stripped of the other rows beforehand.  Under [join='yhat'] and
    [join='inner'] every joined row carries a row of predictions observed in
    every column.  Under [join='data'], the default, the data row of a
    dropped prediction row, like any data row without predictions, is joined
    all the same, with NaN for every pair, and is scored in the group of its
    era. *)
Theorem C1_dropna_any :
  forall (F : Type) (Fl : Float64 F) (sk : Sklearn F)
         (tournament_str : label -> string) (eras regions : F -> option string)
         (data : list (DataRow F)) (prediction : Prediction F)
         (tournament : option label) (join : string) (columns : list string)
         (era_as_str region_as_str split_pairs : bool),
    (forall r : string * list F,
        In r (dropna (p_rows prediction)) <->
        In r (p_rows prediction) /\ forallb observed (snd r) = true) /\
    metrics_per_era tournament_str eras regions data prediction tournament join columns
                    era_as_str region_as_str split_pairs =
    metrics_per_era tournament_str eras regions data (fully_observed prediction) tournament
                    join columns era_as_str region_as_str split_pairs /\
    (forall (h : how) (r : Joined F),
        h <> how_left -> In r (joined_frame h data prediction) ->
        forallb observed (j_yhat r) = true) /\
    (forall d : DataRow F,
        In d data ->
        find_yhat (d_index d) (dropna (p_rows prediction)) = None ->
        In (joined d (repeat nan (List.length (p_pairs prediction))))
           (joined_frame how_left data prediction) /\
        (isnan (d_era d) = false ->
         In (joined d (repeat nan (List.length (p_pairs prediction))))
            (era_group (joined_frame how_left data prediction) (d_era d)))).
Proof.
  intros. split; [| split; [| split]].
  - intros r. apply dropna_In.
  - unfold metrics_per_era, fully_observed; simpl. rewrite dropna_idem. reflexivity.
  - intros h r. apply joined_observed.
  - intros d Hd Hf. pose proof (left_join_unmatched data prediction d Hd Hf) as Hin.
    split; [exact Hin |]. intros Hnan. apply filter_In. split; [exact Hin |].
    unfold isin. cbn [j_era joined]. rewrite Hnan. unfold isnan in Hnan.
    destruct (feqb (d_era d) (d_era d)); [reflexivity | discriminate].
Qed.

(** A run of C1 under the default join: row "e", dropped from the
    predictions, is in the joined frame with NaN for both pairs, and the
    second era is scored on three rows. *)
Lemma C1_dropna_any_witness :
  (In (joined (Example.row "e" 2 3 1) (repeat nan (List.length (p_pairs Example.prediction))))
      (joined_frame how_left Example.data Example.prediction) /\
   (isnan (d_era (Example.row "e" 2 3 1)) = false ->
    In (joined (Example.row "e" 2 3 1) (repeat nan (List.length (p_pairs Example.prediction))))
       (era_group (joined_frame how_left Example.data Example.prediction)
                  (d_era (Example.row "e" 2 3 1))))) /\
  map (fun r => (j_index r, j_yhat r))
      (era_group (joined_frame how_left Example.data Example.prediction) 2%float)
  = [("c", [0.9; 0.5]); ("d", [0.2; 0.8]); ("e", [nan; nan])]%float /\
  metrics_per_era (sk := Example.sklearn Example.log_losses Example.areas)
                  Example.tournament_str
                  Example.ERA_INT_TO_STR Example.REGION_INT_TO_STR
                  Example.data Example.prediction None "data" ["length"; "acc"; "logloss"]
                  false false false =
    Ok ({| index := [PInt 0; PInt 1; PInt 2; PInt 3];
           columns := [("era", [PFloat 1; PFloat 1; PFloat 2; PFloat 2]%float);
                       ("pair", [PPair ("m", LInt 1); PPair ("k", LInt 2);
                                 PPair ("m", LInt 1); PPair ("k", LInt 2)]);
                       ("length", [PInt 2; PInt 2; PInt 3; PInt 3]);
                       ("acc", [PFloat 1; PFloat 0; PFloat 0.66666666666666663;
                                PFloat 0.33333333333333331]%float);
                       ("logloss", [PFloat 0.43375028385236158; PFloat 1.2628643221541276;
                                    PFloat nan; PFloat nan]%float)] |},
        [PFloat 1; PFloat 2; PFloat 3]%float).
Proof.
  split; [| split].
  - apply (proj2 (proj2 (proj2
             (@C1_dropna_any float _ (Example.sklearn Example.log_losses Example.areas)
                Example.tournament_str Example.ERA_INT_TO_STR Example.REGION_INT_TO_STR
                Example.data Example.prediction None "data" ["length"; "acc"; "logloss"]
                false false false)))).
    + simpl. auto 10.
    + vm_compute. reflexivity.
  - vm_compute. reflexivity.
  - vm_compute. reflexivity.
Defined.

(** C1 as stated fails: row "e" of the example has a prediction for pair
    ("m", 1) and none for ("k", 2); it is dropped, and era 2 is scored on two
    rows for both pairs. *)
Lemma C1_counterexample :
  In ("e", [0.3; PrimFloat.nan]%float) (p_rows Example.prediction) /\
  existsb observed [0.3; PrimFloat.nan]%float = true /\
  dropna (p_rows Example.prediction) =
    [("a", [0.4; 0.6]); ("b", [0.7; 0.2]); ("c", [0.9; 0.5]); ("d", [0.2; 0.8])]%float /\
  metrics_per_era (sk := Example.sklearn [] []) Example.tournament_str
                  Example.ERA_INT_TO_STR Example.REGION_INT_TO_STR
                  Example.data Example.prediction None "yhat" ["length"] false false false =
    Ok ({| index := [PInt 0; PInt 1; PInt 2; PInt 3];
           columns := [("era", [PFloat 1; PFloat 1; PFloat 2; PFloat 2]%float);
                       ("pair", [PPair ("m", LInt 1); PPair ("k", LInt 2);
                                 PPair ("m", LInt 1); PPair ("k", LInt 2)]);
                       ("length", [PInt 2; PInt 2; PInt 2; PInt 2])] |},
        [PFloat 1; PFloat 2]%float).
Proof.
  split; [| split; [| split]].
  - simpl. auto 10.
  - vm_compute. reflexivity.
  - vm_compute. reflexivity.
  - vm_compute. reflexivity.
Qed.

(** ** calc_metrics_arrays on a single-class group *)

Section SingleClass.
Context {F : Type} `{Float64Laws F}.
Variable cross_entropy : list F -> list F -> F.
Variable area_under_curve : list F -> list F -> F.

Lemma is_label_class (c : Z) : (c = 0 \/ c = 1)%Z -> is_label (of_Z c : F) = true.
Proof.
  unfold is_label. intros [-> | ->].
  - rewrite feqb_0_0. reflexivity.
  - rewrite feqb_1_1. apply orb_true_r.
Qed.

Lemma labels_repeat (c : Z) (n : nat) :
  (c = 0 \/ c = 1)%Z -> forallb is_label (repeat (of_Z c : F) n) = true.
Proof.
  intros Hc. induction n as [| n IH]; simpl; auto.
  rewrite is_label_class, IH; auto.
Qed.

Lemma one_class_repeat (c : Z) (n : nat) :
  (c = 0 \/ c = 1)%Z -> two_classes (repeat (of_Z c : F) n) = false.
Proof.
  intros Hc. unfold two_classes, has_class.
  assert (Hn : forall d : Z, feqb (of_Z c : F) (of_Z d) = false ->
                             existsb (fun x : F => feqb x (of_Z d)) (repeat (of_Z c) n) = false).
  { intros d Hd. induction n as [| n IH]; simpl; auto. rewrite Hd, IH. reflexivity. }
  destruct Hc as [-> | ->].
  - rewrite (Hn 1%Z feqb_0_1). apply andb_false_r.
  - rewrite (Hn 0%Z feqb_1_0). reflexivity.
Qed.

Lemma labels_threshold (yhat : list F) : forallb is_label (threshold yhat) = true.
Proof.
  unfold threshold. induction yhat as [| p yhat IH]; simpl; auto.
  rewrite IH, andb_true_r.
  destruct (fgeb p (decimal 5 1)); apply is_label_class; auto.
Qed.

Lemma combine_repeat (A B C : Type) (f : A -> B -> C) (a : A) (l : list B) :
  map (fun p => f (fst p) (snd p)) (combine (repeat a (List.length l)) l) = map (f a) l.
Proof. induction l as [| b l IH]; simpl; auto. rewrite IH. reflexivity. Qed.

Lemma consistent_repeat (A : Type) (a : F) (l : list A) :
  (List.length (repeat a (List.length l)) =? List.length l)%nat = true.
Proof. rewrite repeat_length. apply Nat.eqb_refl. Qed.

Lemma sk_log_loss_one_class (c : Z) (yhat : list F) :
  (c = 0 \/ c = 1)%Z ->
  is_value_error (sk_log_loss cross_entropy (repeat (of_Z c) (List.length yhat)) yhat) = true.
Proof.
  intros Hc. unfold sk_log_loss, consistent.
  rewrite consistent_repeat, labels_repeat, one_class_repeat by assumption. simpl.
  destruct (existsb isnan yhat); reflexivity.
Qed.

Lemma sk_roc_auc_one_class (c : Z) (yhat : list F) :
  (c = 0 \/ c = 1)%Z ->
  is_value_error (sk_roc_auc_score area_under_curve (repeat (of_Z c) (List.length yhat)) yhat)
  = true.
Proof.
  intros Hc. unfold sk_roc_auc_score, consistent.
  rewrite consistent_repeat, labels_repeat, one_class_repeat by assumption. simpl.
  destruct (existsb isnan yhat); reflexivity.
Qed.

Lemma sk_accuracy_one_class (c : Z) (yhat : list F) :
  (c = 0 \/ c = 1)%Z ->
  sk_accuracy_score (repeat (of_Z c) (List.length yhat)) (threshold yhat) =
  Ok (pd_mean_bool (map (feqb (of_Z c)) (threshold yhat))).
Proof.
  intros Hc. unfold sk_accuracy_score, consistent.
  replace (List.length yhat) with (List.length (threshold yhat))
    by (unfold threshold; apply length_map).
  rewrite consistent_repeat, labels_repeat, labels_threshold by assumption. simpl.
  rewrite (combine_repeat feqb). reflexivity.
Qed.

Lemma value_error_nan (A : Type) (m : res A) (k : A -> res (pyobj F)) :
  is_value_error m = true -> except_ValueError_nan (bind m k) = Ok (PFloat nan).
Proof. destruct m as [a | [msg | msg | msg]]; simpl; intros E; try discriminate; reflexivity. Qed.
End SingleClass.

(** C2, as the code has it: on a group whose ground truth is a single class,
    [log_loss] and [roc_auc_score] raise ValueError, so [logloss] and [auc]
    are NaN and nothing is raised; [accuracy_score] does not raise, and [acc]
    is the share of thresholded predictions equal to that class; [ymin],
    [ymax], [ymean], [ystd] and [length] are computed from yhat. *)
Theorem C2_single_class :
  forall (F : Type) (Fl : Float64 F) (L : Float64Laws F)
         (cross_entropy area_under_curve : list F -> list F -> F)
         (c : Z) (y yhat : list F),
    (c = 0 \/ c = 1)%Z ->
    yhat <> [] ->
    y = repeat (of_Z c) (List.length yhat) ->
    exists ymin ymax : F,
      np_min yhat = Ok ymin /\ np_max yhat = Ok ymax /\
      calc_metrics_arrays (sk := sklearn_documented cross_entropy area_under_curve) y yhat
        ["logloss"; "auc"; "acc"; "ymin"; "ymax"; "ymean"; "ystd"; "length"] =
      Ok [PFloat nan; PFloat nan;
          PFloat (pd_mean_bool (map (feqb (of_Z c)) (threshold yhat)));
          PFloat ymin; PFloat ymax; PFloat (np_mean yhat); PFloat (np_std yhat);
          PInt (np_size yhat)].
Proof.
  intros F Fl L ce auc c y yhat Hc Hne ->.
  destruct yhat as [| p yhat]; [contradiction |].
  eexists; eexists. split; [reflexivity |]. split; [reflexivity |].
  set (ys := p :: yhat).
  change (calc_metrics_arrays (sk := sklearn_documented ce auc)
            (repeat (of_Z c) (List.length ys)) ys
            ["logloss"; "auc"; "acc"; "ymin"; "ymax"; "ymean"; "ystd"; "length"]
          = Ok [PFloat nan; PFloat nan;
                PFloat (pd_mean_bool (map (feqb (of_Z c)) (threshold ys)));
                PFloat (fold_left np_minimum yhat p); PFloat (fold_left np_maximum yhat p);
                PFloat (np_mean ys); PFloat (np_std ys); PInt (np_size ys)]).
  unfold calc_metrics_arrays, calc_metric.
  cbn [String.eqb Ascii.eqb Bool.eqb log_loss roc_auc_score accuracy_score sklearn_documented].
  rewrite value_error_nan by (apply sk_log_loss_one_class; assumption).
  rewrite value_error_nan by (apply sk_roc_auc_one_class; assumption).
  rewrite sk_accuracy_one_class by assumption.
  reflexivity.
Qed.

(** A run of C2: y = [0, 0, 0, 0]. *)
Lemma C2_single_class_witness :
  exists ymin ymax : float,
    np_min [0.1; 0.2; 0.3; 0.6]%float = Ok ymin /\
    np_max [0.1; 0.2; 0.3; 0.6]%float = Ok ymax /\
    calc_metrics_arrays (sk := Example.sklearn [] [])
      [0; 0; 0; 0]%float [0.1; 0.2; 0.3; 0.6]%float
      ["logloss"; "auc"; "acc"; "ymin"; "ymax"; "ymean"; "ystd"; "length"] =
    Ok [PFloat nan; PFloat nan;
        PFloat (pd_mean_bool (map (feqb (of_Z 0)) (threshold [0.1; 0.2; 0.3; 0.6]%float)));
        PFloat ymin; PFloat ymax;
        PFloat (np_mean [0.1; 0.2; 0.3; 0.6]%float);
        PFloat (np_std [0.1; 0.2; 0.3; 0.6]%float);
        PInt (np_size [0.1; 0.2; 0.3; 0.6]%float)].
Proof.
  apply (C2_single_class Float64Laws_prim (Example.recorded []) (Example.recorded [])
           (c := 0%Z) (y := [0; 0; 0; 0]%float) (yhat := [0.1; 0.2; 0.3; 0.6]%float)).
  - left. reflexivity.
  - discriminate.
  - reflexivity.
Defined.

(** C2 as stated fails on [acc]: with y = [0,0,0,0] and yhat = [0.1, 0.2,
    0.3, 0.6], three of the four thresholded predictions are class 0 and
    [acc] is 0.75, not NaN. *)
Lemma C2_counterexample :
  calc_metrics_arrays (sk := Example.sklearn [] [])
    [0; 0; 0; 0]%float [0.1; 0.2; 0.3; 0.6]%float
    ["logloss"; "auc"; "acc"; "ymin"; "ymax"; "length"] =
  Ok [PFloat PrimFloat.nan; PFloat PrimFloat.nan; PFloat 0.75%float;
      PFloat 0.1%float; PFloat 0.6%float; PInt 4] /\
  obj_isnan (PFloat 0.75%float) = false.
Proof. split; vm_compute; reflexivity. Qed.

(** ** The benchmark *)

Lemma xdiv_fin (a b : R) : b <> 0%R -> xdiv (XFin a) (XFin b) = XFin (a / b).
Proof. intros Hb. simpl. rewrite (proj2 (Reqb_false b 0) Hb). reflexivity. Qed.

Lemma xbenchmark : (LOGLOSS_BENCHMARK : xreal) = XFin (693 / 1000).
Proof.
  unfold LOGLOSS_BENCHMARK, decimal; simpl fdiv; simpl of_Z.
  change (10 ^ Z.of_nat 3)%Z with 1000%Z. apply xdiv_fin. lra.
Qed.

Lemma benchmark64 : (LOGLOSS_BENCHMARK : float) = 0.693%float.
Proof. vm_compute. reflexivity. Qed.

(** ** logloss_pass *)

(** C4: [logloss_pass] is the boolean [log_loss(y, yhat) < 0.693], a strict
    comparison with the benchmark, 0.693 as a binary64 number (693/1000 on
    the exact model): the benchmark itself does not pass, the float just
    below it does.  When [log_loss] raises ValueError both [logloss] and
    [logloss_pass] are NaN; the two columns return together, and (with
    [log_loss] returning a number when it returns) [logloss_pass] is NaN
    exactly when [logloss] is: when [log_loss] raised ValueError. *)
Theorem C4_logloss_pass :
  forall (F : Type) (Fl : Float64 F) (L : Float64Laws F) (sk : Sklearn F) (y yhat : list F),
    (forall v, log_loss y yhat = Ok v -> isnan v = false) ->
    (forall v, log_loss y yhat = Ok v ->
               calc_metrics_arrays y yhat ["logloss"; "logloss_pass"] =
               Ok [PFloat v; PBool (fltb v LOGLOSS_BENCHMARK)]) /\
    (log_loss y yhat = Ok LOGLOSS_BENCHMARK ->
     calc_metric y yhat "logloss_pass" = Ok (PBool false)) /\
    (is_value_error (log_loss y yhat) = true ->
     calc_metrics_arrays y yhat ["logloss"; "logloss_pass"] = Ok [PFloat nan; PFloat nan]) /\
    (is_ok (calc_metric y yhat "logloss_pass") = is_ok (calc_metric y yhat "logloss")) /\
    (forall l p, calc_metric y yhat "logloss" = Ok l ->
                 calc_metric y yhat "logloss_pass" = Ok p ->
                 (obj_isnan p = true <-> obj_isnan l = true) /\
                 (obj_isnan p = true <-> is_value_error (log_loss y yhat) = true)) /\
    (LOGLOSS_BENCHMARK : float) = 0.693%float /\
    (LOGLOSS_BENCHMARK : xreal) = XFin (693 / 1000) /\
    fltb 0.693%float (LOGLOSS_BENCHMARK : float) = false /\
    fltb 0.69299999999999984%float (LOGLOSS_BENCHMARK : float) = true.
Proof.
  intros F Fl L sk y yhat Hnum.
  assert (Hb : (LOGLOSS_BENCHMARK : float) = 0.693%float /\
               (LOGLOSS_BENCHMARK : xreal) = XFin (693 / 1000) /\
               fltb 0.693%float (LOGLOSS_BENCHMARK : float) = false /\
               fltb 0.69299999999999984%float (LOGLOSS_BENCHMARK : float) = true).
  { split; [exact benchmark64 |]. split; [exact xbenchmark |].
    split; vm_compute; reflexivity. }
  unfold calc_metrics_arrays, calc_metric; cbn [String.eqb Ascii.eqb Bool.eqb].
  destruct (log_loss y yhat) as [v | [msg | msg | msg]] eqn:E; simpl.
  - specialize (Hnum v eq_refl). split; [| split; [| split; [| split; [| split]]]].
    + intros v' [= <-]. reflexivity.
    + intros [= ->]. rewrite fltb_irrefl. reflexivity.
    + discriminate.
    + reflexivity.
    + intros l p [= <-] [= <-]. simpl. rewrite Hnum. split; split; discriminate.
    + exact Hb.
  - split; [| split; [| split; [| split; [| split]]]]; try discriminate; try reflexivity;
      [| exact Hb].
    intros l p [= <-] [= <-]. simpl. rewrite nan_isnan. split; split; reflexivity.
  - split; [| split; [| split; [| split; [| split]]]]; try discriminate; try reflexivity.
    exact Hb.
  - split; [| split; [| split; [| split; [| split]]]]; try discriminate; try reflexivity.
    exact Hb.
Qed.

(** Two runs of C4: a group whose log-loss is the benchmark itself does not
    pass; a group whose log-loss is the float just below it passes. *)
Lemma C4_logloss_pass_witness :
  calc_metric (sk := Example.sklearn [([0.5; 0.5], 0.693)]%float [])
              [0; 1]%float [0.5; 0.5]%float "logloss_pass"
  = Ok (PBool false) /\
  calc_metrics_arrays (sk := Example.sklearn [([0.5; 0.5], 0.69299999999999984)]%float [])
                      [0; 1]%float [0.5; 0.5]%float ["logloss"; "logloss_pass"]
  = Ok [PFloat 0.69299999999999984%float; PBool true].
Proof.
  split.
  - refine (proj1 (proj2 (@C4_logloss_pass float _ Float64Laws_prim
                            (Example.sklearn [([0.5; 0.5], 0.693)]%float [])
                            [0; 1]%float [0.5; 0.5]%float _)) _).
    + intros v E. vm_compute in E. injection E as <-. reflexivity.
    + reflexivity.
  - refine (proj1 (@C4_logloss_pass float _ Float64Laws_prim
                     (Example.sklearn [([0.5; 0.5], 0.69299999999999984)]%float [])
                     [0; 1]%float [0.5; 0.5]%float _) 0.69299999999999984%float _).
    + intros v E. vm_compute in E. injection E as <-. reflexivity.
    + reflexivity.
Defined.

(** ** consis *)

Section ConsisFacts.
Context {F : Type} `{Float64 F}.

Lemma count_true_map (A : Type) (f : A -> bool) (xs : list A) :
  List.length (filter (fun b : bool => b) (map f xs)) = List.length (filter f xs).
Proof.
  induction xs as [| x xs IH]; simpl; auto.
  destruct (f x); simpl; rewrite IH; reflexivity.
Qed.

Lemma consis_fraction (logloss : list F) :
  consis logloss =
  fdiv (of_nat (List.length (filter beats_benchmark logloss))) (of_nat (List.length logloss)).
Proof.
  unfold consis, pd_mean_bool. rewrite count_true_map, length_map. reflexivity.
Qed.

Lemma name_metric_consis (mpe : DataFrame F) (pv : list (pair * list F)) :
  name_metric mpe (Some pv) "consis" =
  Ok ("consis", map (fun pc => PFloat (consis (snd pc))) pv).
Proof. reflexivity. Qed.

Lemma name_metric_sharpe (mpe : DataFrame F) (pv : list (pair * list F)) :
  name_metric mpe (Some pv) "sharpe" =
  Ok ("sharpe", map (fun pc => PFloat (sharpe (snd pc))) pv).
Proof. reflexivity. Qed.

Lemma pivot_columns (mpe : DataFrame F) (pv : list (pair * list F)) :
  pivot mpe = Ok pv ->
  exists cells,
    keyed mpe "logloss" = Ok cells /\
    pv = map (fun p => (p, map (cell_at cells p) (pivot_eras cells))) (pivot_pairs cells).
Proof.
  unfold pivot. destruct (keyed mpe "logloss") as [cells | e]; simpl; [| discriminate].
  destruct (has_duplicates same_cell (map fst cells)); [discriminate |].
  intros [= <-]. exists cells. split; reflexivity.
Qed.
End ConsisFacts.

Lemma beats_benchmark_notna (F : Type) (Fl : Float64 F) (L : Float64Laws F) (logloss : list F) :
  filter beats_benchmark (notna logloss) = filter beats_benchmark logloss.
Proof.
  unfold notna. induction logloss as [| v vs IH]; simpl; auto.
  destruct (isnan v) eqn:E; simpl.
  - unfold beats_benchmark at 2. rewrite (fltb_nan_l _ _ E). exact IH.
  - rewrite IH. reflexivity.
Qed.

(** ** metrics_per_name, from the call to the derived columns *)

Lemma Ok_inj (A : Type) (a b : A) : Ok a = Ok b -> a = b.
Proof. intros E. injection E as E. exact E. Qed.

Ltac bind_inv H :=
  repeat match type of H with
         | bind ?m _ = Ok _ =>
             let E := fresh "E" in
             destruct m eqn:E; cbn [bind] in H; [| discriminate H]
         end.

Section PerNameFacts.
Context {F : Type} `{Float64 F} {sk : Sklearn F}.
Variable tournament_str : label -> string.
Variable ERA_INT_TO_STR : F -> option string.
Variable REGION_INT_TO_STR : F -> option string.

Lemma mem_In (c : string) (cs : list string) : mem c cs = true <-> In c cs.
Proof.
  unfold mem. rewrite existsb_exists. split.
  - intros (x & Hx & E). apply String.eqb_eq in E. subst. exact Hx.
  - intros Hc. exists c. split; [exact Hc | apply String.eqb_refl].
Qed.

Lemma era_columns_logloss (columns : list string) :
  In "consis" columns \/ In "sharpe" columns -> mem "logloss" (era_columns columns) = true.
Proof.
  intros Hc. unfold era_columns.
  set (cols := filter (fun c => negb (mem c ["sharpe"; "consis"])) columns).
  assert (E : mem "sharpe" columns || mem "consis" columns = true).
  { apply orb_true_iff. destruct Hc as [Hc | Hc]; apply mem_In in Hc; auto. }
  rewrite E. destruct (mem "logloss" cols) eqn:El; simpl; auto.
  apply mem_In. apply in_or_app. right. left. reflexivity.
Qed.

Lemma add_split_pairs_inv (df df' : DataFrame F) (as_str : bool) :
  add_split_pairs tournament_str df as_str = Ok df' ->
  exists name tournament,
    columns df' = ("name", name) :: ("tournament", tournament) :: columns df /\
    index df' = index df.
Proof.
  unfold add_split_pairs. intros Hs. bind_inv Hs.
  unfold insert0 in E2. destruct (has_column "tournament" df); [discriminate |].
  apply Ok_inj in E2. subst a2.
  unfold insert0 in E3. destruct (has_column "name" _); [discriminate |].
  apply Ok_inj in E3. subst a3. apply Ok_inj in Hs. subst df'. cbn [columns index].
  eexists; eexists. split; reflexivity.
Qed.

Lemma column_after_split (c : string) (idx idx' : list (pyobj F))
      (name tournament : list (pyobj F)) (cs : list (string * list (pyobj F))) :
  c <> "name" -> c <> "tournament" ->
  column c {| index := idx; columns := ("name", name) :: ("tournament", tournament) :: cs |} =
  column c {| index := idx'; columns := cs |}.
Proof.
  intros H1 H2. unfold column. cbn [columns find fst].
  assert (E1 : ("name" =? c)%string = false) by (apply String.eqb_neq; congruence).
  assert (E2 : ("tournament" =? c)%string = false) by (apply String.eqb_neq; congruence).
  rewrite E1, E2. reflexivity.
Qed.

Lemma name_metric_name (mpe : DataFrame F) (pv : option (list (pair * list F)))
      (c : string) (r : string * list (pyobj F)) :
  name_metric mpe pv c = Ok r -> fst r = c.
Proof.
  unfold name_metric. intros Hr. bind_inv Hr. injection Hr as <-. reflexivity.
Qed.

Lemma series_column (mpe : DataFrame F) (pv : option (list (pair * list F)))
      (cols : list string) (series : list (string * list (pyobj F)))
      (idx : list (pyobj F)) (c : string) :
  mapM (name_metric mpe pv) cols = Ok series -> In c cols ->
  exists m, name_metric mpe pv c = Ok (c, m) /\
            column c {| index := idx; columns := series |} = Ok m.
Proof.
  revert series. induction cols as [| col rest IH]; simpl; intros series Hs Hin; [contradiction |].
  bind_inv Hs. injection Hs as <-.
  pose proof (name_metric_name _ _ _ E) as Hn. destruct a as [n m0]. simpl in Hn. subst n.
  unfold column. cbn [columns find fst].
  destruct (col =? c)%string eqn:Ec.
  - apply String.eqb_eq in Ec. subst c. exists m0. split; [exact E | reflexivity].
  - destruct Hin as [-> | Hin]; [rewrite String.eqb_refl in Ec; discriminate |].
    destruct (IH a0 eq_refl Hin) as (m & Hm & Hcol). exists m. split; [exact Hm |].
    exact Hcol.
Qed.

Lemma frame_of_rows_rectangular (names : list string) (rows : list (list (pyobj F))) :
  rectangular (frame_of_rows names rows).
Proof.
  unfold rectangular, frame_of_rows, RangeIndex. cbn [columns index].
  intros c Hc. apply in_map_iff in Hc. destruct Hc as (jn & <- & _).
  cbn [snd]. rewrite !length_map, length_seq. reflexivity.
Qed.

Lemma mapM_length (A B : Type) (f : A -> res B) (xs : list A) (ys : list B) :
  mapM f xs = Ok ys -> List.length ys = List.length xs.
Proof.
  revert ys. induction xs as [| x xs IH]; simpl; intros ys Hm.
  - apply Ok_inj in Hm. subst. reflexivity.
  - bind_inv Hm. apply Ok_inj in Hm. subst. simpl. rewrite (IH _ eq_refl). reflexivity.
Qed.

Lemma column_In (c : string) (df : DataFrame F) (vals : list (pyobj F)) :
  column c df = Ok vals -> exists n, In (n, vals) (columns df).
Proof.
  unfold column. destruct (find _ (columns df)) as [[n v] |] eqn:E; [| discriminate].
  intros Hv. apply Ok_inj in Hv. simpl in Hv. subst v.
  apply find_some in E. exists n. tauto.
Qed.

Lemma column_length (c : string) (df : DataFrame F) (vals : list (pyobj F)) :
  rectangular df -> column c df = Ok vals -> List.length vals = List.length (index df).
Proof.
  intros Hr Hc. destruct (column_In _ _ Hc) as [n Hn]. exact (Hr _ Hn).
Qed.

Lemma add_split_pairs_rectangular (df df' : DataFrame F) (as_str : bool) :
  rectangular df -> add_split_pairs tournament_str df as_str = Ok df' -> rectangular df'.
Proof.
  intros Hr Hs. unfold add_split_pairs in Hs.
  destruct (pair_cells df) as [cells |] eqn:Ec; [| discriminate]. cbn [bind] in Hs.
  destruct (mapM as_pair cells) as [pairs |] eqn:Ep; [| discriminate]. cbn [bind] in Hs.
  destruct (unzip_pairs pairs) as [nt |] eqn:Eu; [| discriminate]. cbn [bind] in Hs.
  assert (Hnt : nt = (map fst pairs, map snd pairs)).
  { destruct pairs; [discriminate |]. apply Ok_inj in Eu. congruence. }
  subst nt. cbn [fst snd] in Hs.
  assert (Hlen : List.length pairs = List.length (index df)).
  { rewrite (mapM_length _ _ Ep). unfold pair_cells in Ec.
    destruct (has_column "pair" df).
    - eapply column_length; eassumption.
    - apply Ok_inj in Ec. subst. reflexivity. }
  unfold insert0 in Hs at 1. destruct (has_column "tournament" df); [discriminate |].
  cbn [bind] in Hs. unfold insert0 in Hs. destruct (has_column "name" _); [discriminate |].
  cbn [bind] in Hs. apply Ok_inj in Hs. subst df'.
  unfold rectangular. cbn [columns index].
  intros c [<- | [<- | Hc]]; cbn [snd].
  - rewrite !length_map. exact Hlen.
  - destruct as_str; rewrite !length_map; exact Hlen.
  - apply Hr. exact Hc.
Qed.

Lemma metrics_per_era_rectangular (data : list (DataRow F)) (prediction : Prediction F)
      (tournament : option label) (join : string) (cols : list string)
      (era_as_str region_as_str split_pairs : bool)
      (mpe : DataFrame F) (regions : list (pyobj F)) :
  metrics_per_era tournament_str ERA_INT_TO_STR REGION_INT_TO_STR data prediction
                  tournament join cols era_as_str region_as_str split_pairs
  = Ok (mpe, regions) ->
  rectangular mpe.
Proof.
  unfold metrics_per_era. intros Hm.
  destruct (join_how join) as [h |]; [| discriminate]. cbn [bind] in Hm.
  destruct (if region_as_str then _ else _) as [rs |]; [| discriminate]. cbn [bind] in Hm.
  destruct (mapM _ _) as [rows |]; [| discriminate]. cbn [bind] in Hm.
  destruct split_pairs.
  - destruct (add_split_pairs tournament_str _ true) as [df' |] eqn:Ea; [| discriminate].
    cbn [bind] in Hm. apply Ok_inj in Hm. injection Hm as <- _.
    eapply add_split_pairs_rectangular; [| exact Ea]. apply frame_of_rows_rectangular.
  - cbn [bind] in Hm. apply Ok_inj in Hm. injection Hm as <- _.
    apply frame_of_rows_rectangular.
Qed.

Lemma combine3_pairs (A B C : Type) (xs : list A) (ys : list B) (zs : list C) :
  List.length xs = List.length ys -> List.length zs = List.length ys ->
  map (fun c => snd (fst c)) (combine (combine xs ys) zs) = ys.
Proof.
  revert xs zs. induction ys as [| y ys IH]; intros [| x xs] [| z zs]; simpl;
    try discriminate; auto.
  intros Hx Hz. rewrite IH by lia. reflexivity.
Qed.

Lemma keyed_pairs (mpe : DataFrame F) (v : string) (cells : list (F * pair * F)) :
  rectangular mpe -> keyed mpe v = Ok cells ->
  exists pr pairs,
    column "pair" mpe = Ok pr /\ mapM as_pair pr = Ok pairs /\
    map (fun c => snd (fst c)) cells = pairs.
Proof.
  intros Hr Hk. unfold keyed in Hk.
  destruct (column "era" mpe) as [era |] eqn:Ee; [| discriminate]. cbn [bind] in Hk.
  destruct (column "pair" mpe) as [pr |] eqn:Ep; [| discriminate]. cbn [bind] in Hk.
  destruct (column v mpe) as [vals |] eqn:Ev; [| discriminate]. cbn [bind] in Hk.
  destruct (mapM as_pair pr) as [pairs |] eqn:Em; [| discriminate]. cbn [bind] in Hk.
  apply Ok_inj in Hk. subst cells. exists pr, pairs. split; [reflexivity |].
  split; [exact Em |].
  pose proof (column_length _ Hr Ee) as Le.
  pose proof (column_length _ Hr Ep) as Lp.
  pose proof (column_length _ Hr Ev) as Lv.
  apply combine3_pairs; rewrite ?length_map, (mapM_length _ _ Em); congruence.
Qed.

Lemma pivot_index (mpe : DataFrame F) (pv : list (pair * list F)) (mm : list (pair * F)) :
  rectangular mpe -> pivot mpe = Ok pv -> groupby_pair_mean mpe "era" = Ok mm ->
  map fst mm = map fst pv.
Proof.
  intros Hr Hp Hg. destruct (pivot_columns mpe Hp) as (cells & Hk & ->).
  unfold groupby_pair_mean in Hg.
  destruct (keyed mpe "era") as [cells' |] eqn:Hk'; [| discriminate]. cbn [bind] in Hg.
  apply Ok_inj in Hg. subst mm. rewrite !map_map. cbn [fst]. rewrite !map_id.
  unfold pivot_pairs.
  destruct (keyed_pairs "logloss" Hr Hk) as (pr & pairs & Hpr & Hm & ->).
  destruct (keyed_pairs "era" Hr Hk') as (pr' & pairs' & Hpr' & Hm' & ->).
  congruence.
Qed.

Lemma metrics_per_name_derived (data : list (DataRow F)) (prediction : Prediction F)
      (tournament : option label) (join : string) (cols : list string)
      (era_as_str region_as_str split_pairs : bool)
      (metrics : DataFrame F) (info : list (pyobj F) * list (pyobj F)) (c : string) :
  metrics_per_name tournament_str ERA_INT_TO_STR REGION_INT_TO_STR data prediction
                   tournament join cols era_as_str region_as_str split_pairs
  = Ok (metrics, info) ->
  In c cols -> In "consis" cols \/ In "sharpe" cols ->
  c <> "name" -> c <> "tournament" ->
  exists mpe regions pv m,
    metrics_per_era tournament_str ERA_INT_TO_STR REGION_INT_TO_STR data prediction
                    tournament join (era_columns cols) false false true
    = Ok (mpe, regions) /\
    pivot mpe = Ok pv /\
    index metrics = map (fun pc => PPair (fst pc)) pv /\
    name_metric mpe (Some pv) c = Ok (c, m) /\
    column c metrics = Ok m.
Proof.
  intros Hm Hc Hd Hn Ht. unfold metrics_per_name in Hm.
  rewrite (era_columns_logloss cols Hd) in Hm.
  destruct (metrics_per_era tournament_str ERA_INT_TO_STR REGION_INT_TO_STR data prediction
              tournament join (era_columns cols) false false true)
    as [[mpe regions] | e] eqn:Empe; [| discriminate].
  cbn [bind fst snd] in Hm.
  destruct (column "era" mpe) as [era |]; [| discriminate]. cbn [bind] in Hm.
  destruct (if era_as_str then _ else _) as [info_era |]; [| discriminate]. cbn [bind] in Hm.
  destruct (if region_as_str then _ else _) as [info_region |]; [| discriminate].
  cbn [bind] in Hm.
  destruct (pivot mpe) as [pv |] eqn:Epv; [| discriminate]. cbn [bind] in Hm.
  destruct (groupby_pair_mean mpe "era") as [mm |] eqn:Emm; [| discriminate].
  cbn [bind] in Hm.
  destruct (mapM (name_metric mpe (Some pv)) cols) as [series |] eqn:Es; [| discriminate].
  cbn [bind] in Hm.
  exists mpe, regions, pv.
  destruct (series_column mpe (Some pv) cols (map (fun pm => PPair (fst pm)) mm) c Es Hc)
    as (m & Hnm & Hcol).
  assert (Hidx : map (fun pm : pair * F => @PPair F (fst pm)) mm
                 = map (fun pc : pair * list F => PPair (fst pc)) pv).
  { rewrite <- (map_map fst (@PPair F)), <- (map_map fst (@PPair F) pv). f_equal.
    eapply pivot_index; eauto. eapply metrics_per_era_rectangular; eauto. }
  exists m. split; [reflexivity |]. split; [exact Epv |].
  destruct split_pairs.
  - destruct (add_split_pairs tournament_str _ true) as [df' |] eqn:Ea; [| discriminate].
    cbn [bind] in Hm. apply Ok_inj in Hm. injection Hm as <- _.
    destruct (add_split_pairs_inv _ _ Ea) as (name & tour & Hcols & Hi).
    destruct df' as [idx' cs']. cbn [columns index] in Hcols, Hi |- *. subst cs' idx'.
    split; [exact Hidx |]. split; [exact Hnm |].
    rewrite column_after_split with (idx' := map (fun pm => PPair (fst pm)) mm) by assumption.
    exact Hcol.
  - cbn [bind] in Hm. apply Ok_inj in Hm. injection Hm as <- _.
    split; [exact Hidx |]. split; [exact Hnm |]. exact Hcol.
Qed.

(** One derived column of the summary: row by row, the statistic of the
    pair's column of the pivot. *)
Lemma metrics_per_name_consis (data : list (DataRow F)) (prediction : Prediction F)
      (tournament : option label) (join : string) (cols : list string)
      (era_as_str region_as_str split_pairs : bool)
      (metrics : DataFrame F) (info : list (pyobj F) * list (pyobj F)) :
  metrics_per_name tournament_str ERA_INT_TO_STR REGION_INT_TO_STR data prediction
                   tournament join cols era_as_str region_as_str split_pairs
  = Ok (metrics, info) ->
  In "consis" cols ->
  exists mpe regions pv,
    metrics_per_era tournament_str ERA_INT_TO_STR REGION_INT_TO_STR data prediction
                    tournament join (era_columns cols) false false true
    = Ok (mpe, regions) /\
    pivot mpe = Ok pv /\
    index metrics = map (fun pc => PPair (fst pc)) pv /\
    column "consis" metrics = Ok (map (fun pc => PFloat (consis (snd pc))) pv).
Proof.
  intros Hm Hc.
  destruct (metrics_per_name_derived _ _ _ _ _ _ _ _ Hm Hc (or_introl Hc))
    as (mpe & regions & pv & m & He & Hp & Hi & Hn & Hcol); try discriminate.
  exists mpe, regions, pv. split; [exact He |]. split; [exact Hp |]. split; [exact Hi |].
  rewrite name_metric_consis in Hn. apply Ok_inj in Hn. injection Hn as <-. exact Hcol.
Qed.

Lemma metrics_per_name_sharpe (data : list (DataRow F)) (prediction : Prediction F)
      (tournament : option label) (join : string) (cols : list string)
      (era_as_str region_as_str split_pairs : bool)
      (metrics : DataFrame F) (info : list (pyobj F) * list (pyobj F)) :
  metrics_per_name tournament_str ERA_INT_TO_STR REGION_INT_TO_STR data prediction
                   tournament join cols era_as_str region_as_str split_pairs
  = Ok (metrics, info) ->
  In "sharpe" cols ->
  exists mpe regions pv,
    metrics_per_era tournament_str ERA_INT_TO_STR REGION_INT_TO_STR data prediction
                    tournament join (era_columns cols) false false true
    = Ok (mpe, regions) /\
    pivot mpe = Ok pv /\
    index metrics = map (fun pc => PPair (fst pc)) pv /\
    column "sharpe" metrics = Ok (map (fun pc => PFloat (sharpe (snd pc))) pv).
Proof.
  intros Hm Hc.
  destruct (metrics_per_name_derived _ _ _ _ _ _ _ _ Hm Hc (or_intror Hc))
    as (mpe & regions & pv & m & He & Hp & Hi & Hn & Hcol); try discriminate.
  exists mpe, regions, pv. split; [exact He |]. split; [exact Hp |]. split; [exact Hi |].
  rewrite name_metric_sharpe in Hn. apply Ok_inj in Hn. injection Hn as <-. exact Hcol.
Qed.
End PerNameFacts.

(** C9: the denominator of [consis] is the number of rows of the pivot, one
    per era: an era whose log-loss is NaN stays in the denominator and, NaN
    comparing false, is never in the numerator. *)
Theorem C9_consis_counts_nan_eras :
  forall (F : Type) (Fl : Float64 F) (L : Float64Laws F),
    (forall logloss : list F,
        consis logloss =
        fdiv (of_nat (List.length (filter beats_benchmark (notna logloss))))
             (of_nat (List.length logloss))) /\
    (forall v : F, isnan v = true -> beats_benchmark v = false) /\
    (forall (mpe : DataFrame F) (pv : list (pair * list F)),
        pivot mpe = Ok pv ->
        exists cells,
          keyed mpe "logloss" = Ok cells /\
          forall pc, In pc pv ->
            List.length (snd pc) = List.length (pivot_eras cells) /\
            consis (snd pc) =
            fdiv (of_nat (List.length (filter beats_benchmark (notna (snd pc)))))
                 (of_nat (List.length (pivot_eras cells)))) /\
    (forall (sk : Sklearn F) (tournament_str : label -> string)
            (eras regions : F -> option string)
            (data : list (DataRow F)) (prediction : Prediction F)
            (tournament : option label) (join : string) (cols : list string)
            (era_as_str region_as_str split_pairs : bool)
            (metrics : DataFrame F) (info : list (pyobj F) * list (pyobj F)),
        metrics_per_name tournament_str eras regions data prediction tournament join cols
                         era_as_str region_as_str split_pairs = Ok (metrics, info) ->
        In "consis" cols ->
        exists mpe rs pv,
          metrics_per_era tournament_str eras regions data prediction tournament join
                          (era_columns cols) false false true = Ok (mpe, rs) /\
          pivot mpe = Ok pv /\
          index metrics = map (fun pc => PPair (fst pc)) pv /\
          column "consis" metrics =
          Ok (map (fun pc =>
                     PFloat (fdiv (of_nat (List.length
                                             (filter beats_benchmark (notna (snd pc)))))
                                  (of_nat (List.length (snd pc))))) pv)).
Proof.
  intros F Fl L.
  assert (Hc : forall logloss : list F,
             consis logloss =
             fdiv (of_nat (List.length (filter beats_benchmark (notna logloss))))
                  (of_nat (List.length logloss))).
  { intros. rewrite beats_benchmark_notna by assumption. apply consis_fraction. }
  split; [exact Hc | split; [| split]].
  - intros v E. apply fltb_nan_l. exact E.
  - intros mpe pv Hp. destruct (pivot_columns mpe Hp) as (cells & Hk & ->).
    exists cells. split; [exact Hk |].
    intros pc Hin. apply in_map_iff in Hin. destruct Hin as (p & <- & _). simpl.
    assert (Hl : List.length (map (cell_at cells p) (pivot_eras cells))
                 = List.length (pivot_eras cells)) by apply length_map.
    split; [exact Hl |]. rewrite Hc, Hl. reflexivity.
  - intros sk ts eras regions data prediction tournament join cols eas ras sp
           metrics info Hm Hin.
    destruct (metrics_per_name_consis _ _ _ _ _ _ _ _ _ _ _ Hm Hin)
      as (mpe & rs & pv & He & Hp & Hi & Hcol).
    exists mpe, rs, pv. split; [exact He |]. split; [exact Hp |]. split; [exact Hi |].
    rewrite Hcol. f_equal. apply map_ext. intros pc. rewrite Hc. reflexivity.
Qed.

(** A run of C9: pair ("m", 1) beats the benchmark in era 1 and has no
    log-loss in era 2, where a row has no prediction; its [consis] is 1/2,
    not 1. *)
Lemma C9_consis_counts_nan_eras_witness :
  consis [0.5; PrimFloat.nan; 0.6; 0.9]%float = 0.5%float /\
  metrics_per_name (sk := Example.sklearn Example.log_losses Example.areas)
                   Example.tournament_str Example.ERA_INT_TO_STR Example.REGION_INT_TO_STR
                   Example.data Example.prediction None "data" ["logloss"; "consis"]
                   true true false =
  Ok ({| index := [PPair ("k", LInt 2); PPair ("m", LInt 1)];
         columns := [("logloss", [PFloat 1.2628643221541276; PFloat 0.4337502838523616]%float);
                     ("consis", [PFloat 0; PFloat 0.5]%float)] |},
      ([PStr "era1"; PStr "era2"], [PStr "validation"; PStr "test"; PStr "live"])).
Proof.
  split.
  - rewrite (proj1 (@C9_consis_counts_nan_eras float _ Float64Laws_prim)).
    vm_compute. reflexivity.
  - vm_compute. reflexivity.
Defined.

(** ** sharpe, on the exact model *)

Section ExactArithmetic.
Local Open Scope R_scope.

Lemma xisnan_fin (r : R) : isnan (XFin r) = false.
Proof. unfold isnan; simpl. rewrite Reqb_refl. reflexivity. Qed.

Lemma xisnan_inf (s : bool) : isnan (XInf s) = false.
Proof. unfold isnan; simpl. rewrite eqb_reflx. reflexivity. Qed.

Lemma xsqrt_fin (a : R) : 0 <= a -> xsqrt (XFin a) = XFin (R_sqrt.sqrt a).
Proof.
  intros Ha. simpl. rewrite (proj2 (Rltb_false a 0) Ha). reflexivity.
Qed.

Lemma xof_nat_pos (n : nat) : (0 < n)%nat -> 0 < IZR (Z.of_nat n).
Proof. intros Hn. apply IZR_lt. lia. Qed.

Lemma mirrored_step (b : R) (k : nat) (s' s v : xreal) :
  isnan v = false -> mirrored b k s' s ->
  mirrored b (S k) (xadd s' (xsub (XFin b) v)) (xadd s v).
Proof.
  intros Hv. destruct v as [| t | r]; [discriminate | |];
    destruct s' as [| t' | a'], s as [| u | a]; cbn -[Z.of_nat]; intros M;
    try contradiction; auto.
  - subst. destruct t, u; simpl; auto.
  - subst. rewrite Nat2Z.inj_succ, succ_IZR. lra.
Qed.

Lemma mirrored_sum (b : R) (vs : list xreal) :
  forallb (fun v => negb (isnan v)) vs = true ->
  forall (k : nat) (s' s : xreal),
    mirrored b k s' s ->
    mirrored b (k + List.length vs)
             (fold_left xadd (map (fun v => xsub (XFin b) v) vs) s') (fold_left xadd vs s).
Proof.
  induction vs as [| v vs IH]; simpl; intros Hall k s' s M.
  - rewrite Nat.add_0_r. exact M.
  - apply andb_true_iff in Hall. destruct Hall as [Hv Hvs].
    apply negb_true_iff in Hv.
    replace (k + S (List.length vs))%nat with (S k + List.length vs)%nat by lia.
    apply IH; auto. apply mirrored_step; assumption.
Qed.

Lemma notna_observed (xs : list xreal) :
  forallb (fun v => negb (isnan v)) (notna xs) = true.
Proof.
  unfold notna. apply forallb_forall. intros v Hv. apply filter_In in Hv. tauto.
Qed.

Lemma xisnan_sub (b : R) (v : xreal) : isnan (xsub (XFin b) v) = isnan v.
Proof.
  destruct v as [| t | r]; cbn [xsub xopp xadd].
  - reflexivity.
  - rewrite !xisnan_inf. reflexivity.
  - rewrite !xisnan_fin. reflexivity.
Qed.

Lemma notna_map_sub (b : R) (xs : list xreal) :
  notna (map (fun v => xsub (XFin b) v) xs) = map (fun v => xsub (XFin b) v) (notna xs).
Proof.
  unfold notna. induction xs as [| v xs IH]; cbn [map filter]; auto.
  rewrite xisnan_sub. destruct (isnan v); cbn [negb map]; rewrite IH; reflexivity.
Qed.

Lemma np_mean_mirror (b : R) (vs : list xreal) :
  forallb (fun v => negb (isnan v)) vs = true ->
  np_mean (map (fun v => xsub (XFin b) v) vs) = xsub (XFin b) (np_mean vs).
Proof.
  intros Hall. unfold np_mean, np_sum, of_nat. rewrite length_map.
  cbn [fadd fdiv of_Z Float64_exact].
  destruct (Nat.eq_dec (List.length vs) 0) as [E | E].
  - apply length_zero_iff_nil in E. subst vs. simpl. rewrite Reqb_refl. reflexivity.
  - assert (Hn : 0 < IZR (Z.of_nat (List.length vs))) by (apply xof_nat_pos; lia).
    assert (M := mirrored_sum b vs Hall 0 (XFin 0) (XFin 0)).
    cbn [Nat.add mirrored] in M. specialize (M ltac:(simpl; lra)).
    destruct (fold_left xadd (map (fun v => xsub (XFin b) v) vs) (XFin 0)) as [| t' | a'],
             (fold_left xadd vs (XFin 0)) as [| t | a]; cbn [mirrored] in M;
      try contradiction.
    + reflexivity.
    + subst. unfold xdiv, xscale.
      rewrite (proj2 (Rltb_false (IZR (Z.of_nat (List.length vs))) 0)) by lra.
      destruct t; reflexivity.
    + subst. rewrite !xdiv_fin by lra. cbn [xsub xopp xadd]. f_equal. field. lra.
Qed.

Lemma sharpe_exact (logloss : list xreal) :
  sharpe logloss = fdiv (fsub LOGLOSS_BENCHMARK (pd_mean logloss)) (pd_std logloss).
Proof.
  unfold sharpe, pd_mean. rewrite xbenchmark.
  change (@fsub xreal Float64_exact) with xsub.
  rewrite notna_map_sub, np_mean_mirror by apply notna_observed. reflexivity.
Qed.
End ExactArithmetic.

Section SharpeExample.
Local Open Scope R_scope.
Local Abbreviation sqrt := R_sqrt.sqrt.

Lemma notna_two (a b : R) : notna [XFin a; XFin b] = [XFin a; XFin b].
Proof. unfold notna. cbn [filter]. rewrite !xisnan_fin. reflexivity. Qed.

Lemma sqrt_between (v lo hi : R) :
  0 <= lo -> 0 <= hi -> lo * lo < v -> v < hi * hi -> lo < sqrt v < hi.
Proof.
  intros Hlo Hhi H1 H2.
  assert (Hv : 0 <= v) by nra.
  split.
  - rewrite <- (sqrt_square lo Hlo). apply sqrt_lt_1; nra.
  - rewrite <- (sqrt_square hi Hhi). apply sqrt_lt_1; nra.
Qed.

Lemma sharpe_example_exact :
  exists r : R,
    sharpe [XFin (6 / 10); XFin (7 / 10)] = XFin r /\ 608 / 1000 < r < 6082 / 10000.
Proof.
  assert (Hs : 7071 / 100000 < sqrt (5 / 1000) < 7072 / 100000)
    by (apply sqrt_between; lra).
  exists ((693 / 1000 - 65 / 100) / sqrt (5 / 1000)). split.
  - rewrite sharpe_exact, xbenchmark.
    unfold pd_std, pd_var, pd_mean. rewrite notna_two.
    unfold np_mean, np_sum, sq_dev, of_nat.
    cbn [List.length Nat.leb Nat.sub map fold_left fadd fsub fmul fdiv fsqrt of_Z
         Float64_exact Z.of_nat Pos.of_succ_nat Pos.succ xadd xsub xopp xmul].
    rewrite !xdiv_fin by lra.
    cbn [xadd xsub xopp xmul].
    rewrite (@xdiv_fin _ 1) by lra.
    rewrite xsqrt_fin by lra.
    replace ((0 + (6 / 10 + - ((0 + 6 / 10 + 7 / 10) / 2)) * (6 / 10 + - ((0 + 6 / 10 + 7 / 10) / 2)) +
              (7 / 10 + - ((0 + 6 / 10 + 7 / 10) / 2)) * (7 / 10 + - ((0 + 6 / 10 + 7 / 10) / 2))) / 1)
      with (5 / 1000) by lra.
    rewrite xdiv_fin by lra. f_equal. f_equal. lra.
  - set (s := sqrt (5 / 1000)) in *.
    set (q := (693 / 1000 - 65 / 100) / s).
    assert (Hq : q * s = 43 / 1000) by (unfold q; field; lra).
    split; nra.
Qed.
End SharpeExample.

(** ** ystd *)

Section YstdExact.
Local Open Scope R_scope.

Lemma np_std_one (r : R) : np_std [XFin r] = XFin 0.
Proof.
  unfold np_std, np_var, np_mean, np_sum, sq_dev, of_nat.
  cbn [List.length Nat.sub map fold_left fadd fsub fmul fdiv fsqrt of_Z
       Float64_exact Z.of_nat Pos.of_succ_nat xadd].
  rewrite !(@xdiv_fin _ 1) by lra.
  cbn [xadd xsub xopp xmul].
  rewrite (@xdiv_fin _ 1) by lra.
  replace ((0 + (r + - ((0 + r) / 1)) * (r + - ((0 + r) / 1))) / 1) with 0 by (field).
  rewrite xsqrt_fin by lra. rewrite sqrt_0. reflexivity.
Qed.

Lemma xadd_nan_l (x : xreal) : xadd XNaN x = XNaN.
Proof. reflexivity. Qed.

Lemma xsum_nan (xs : list xreal) : fold_left xadd xs XNaN = XNaN.
Proof. induction xs as [| x xs IH]; simpl; auto. Qed.

Lemma xsum_with_nan (xs : list xreal) (acc : xreal) :
  In XNaN xs -> fold_left xadd xs acc = XNaN.
Proof.
  revert acc. induction xs as [| x xs IH]; simpl; intros acc Hin; [contradiction |].
  destruct Hin as [-> | Hin]; [| apply IH; exact Hin].
  destruct acc; simpl; apply xsum_nan.
Qed.

Lemma np_std_nan (yhat : list xreal) : In XNaN yhat -> np_std yhat = XNaN.
Proof.
  intros Hin. unfold np_std, np_var.
  assert (Hm : np_mean yhat = XNaN).
  { unfold np_mean, np_sum. cbn [fadd fdiv Float64_exact].
    rewrite (xsum_with_nan _ _ Hin). reflexivity. }
  rewrite Hm. unfold np_sum. cbn [fadd fdiv fsqrt Float64_exact].
  rewrite xsum_with_nan; [reflexivity |].
  apply in_map_iff. exists XNaN. split; [reflexivity | exact Hin].
Qed.

Lemma pd_std_one (r : R) : pd_std [XFin r] = XNaN.
Proof.
  unfold pd_std, pd_var, notna. cbn [filter]. rewrite xisnan_fin. cbn [negb List.length Nat.leb].
  rewrite xnan. reflexivity.
Qed.
End YstdExact.

(** C10, as the code has it: [ystd] is numpy's [std], the population
    standard deviation (squared deviations summed over n), where the
    denominator of sharpe is pandas' [std], over n - 1; of one finite number
    the first is 0 and the second NaN; an array holding a NaN has [ystd]
    NaN. *)
Theorem C10_ystd_population :
  (forall (F : Type) (Fl : Float64 F) (sk : Sklearn F) (y yhat : list F),
      calc_metric y yhat "ystd" = Ok (PFloat (np_std yhat))) /\
  (forall (F : Type) (Fl : Float64 F) (yhat : list F),
      np_std yhat =
      fsqrt (fdiv (np_sum (map (sq_dev (np_mean yhat)) yhat)) (of_nat (List.length yhat)))) /\
  (forall (F : Type) (Fl : Float64 F) (logloss : list F),
      sharpe logloss =
      fdiv (pd_mean (map (fun v => fsub LOGLOSS_BENCHMARK v) logloss))
           (fsqrt (pd_var 1 logloss))) /\
  (forall r : R, np_std [XFin r] = XFin 0 /\ pd_std [XFin r] = XNaN) /\
  (forall yhat : list xreal, In XNaN yhat -> np_std yhat = XNaN) /\
  np_std [0.3]%float = 0%float /\
  isnan (pd_std [0.3]%float) = true /\
  np_std [0.6; 0.7]%float = 0.049999999999999989%float /\
  pd_std [0.6; 0.7]%float = 0.070710678118654738%float.
Proof.
  split; [| split; [| split; [| split; [| split; [| split; [| split; [| split]]]]]]].
  - intros. reflexivity.
  - intros. unfold np_std, np_var. rewrite Nat.sub_0_r. reflexivity.
  - intros. reflexivity.
  - intros r. split; [apply np_std_one | apply pd_std_one].
  - exact np_std_nan.
  - vm_compute. reflexivity.
  - vm_compute. reflexivity.
  - vm_compute. reflexivity.
  - vm_compute. reflexivity.
Qed.

(** C10 as stated fails on a length-1 array holding a NaN: under
    [join='data'] a data row without prediction is such a group, and its
    [ystd] is NaN. *)
Lemma C10_counterexample :
  isnan (np_std [PrimFloat.nan]) = true /\
  np_std [XNaN] = XNaN /\
  metrics_per_era (sk := Example.sklearn [] []) Example.tournament_str
                  Example.ERA_INT_TO_STR Example.REGION_INT_TO_STR
                  [Example.row "e" 3 3 1] Example.prediction None "data"
                  ["ystd"; "length"] false false false =
    Ok ({| index := [PInt 0; PInt 1];
           columns := [("era", [PFloat 3; PFloat 3]%float);
                       ("pair", [PPair ("m", LInt 1); PPair ("k", LInt 2)]);
                       ("ystd", [PFloat PrimFloat.nan; PFloat PrimFloat.nan]);
                       ("length", [PInt 1; PInt 1])] |},
        [PFloat 3%float]).
Proof.
  split; [| split].
  - vm_compute. reflexivity.
  - reflexivity.
  - vm_compute. reflexivity.
Qed.

(** ** Unknown names and join modes *)

Section Raising.
Context {F : Type} `{Float64 F} {sk : Sklearn F}.
Variable tournament_str : label -> string.
Variable ERA_INT_TO_STR : F -> option string.
Variable REGION_INT_TO_STR : F -> option string.


Lemma mapM_ok (A B : Type) (f : A -> res B) (xs : list A) :
  (forall x, In x xs -> exists y, f x = Ok y) -> exists ys, mapM f xs = Ok ys.
Proof.
  induction xs as [| x xs IH]; simpl; intros Hf.
  - eexists. reflexivity.
  - destruct (Hf x (or_introl eq_refl)) as [y ->].
    destruct IH as [ys ->]; [intros; apply Hf; auto |].
    eexists. reflexivity.
Qed.


Lemma calc_metric_known (y yhat : list F) (c : string) :
  raises_only_ValueError log_loss ->
  raises_only_ValueError roc_auc_score ->
  raises_only_ValueError accuracy_score ->
  yhat <> [] -> known_metric c = true -> exists m, calc_metric y yhat c = Ok m.
Proof.
  intros Hl Ha Hc Hne Hk.
  assert (Hex : forall (f : list F -> list F -> res F) (a b : list F) (k : F -> pyobj F),
             raises_only_ValueError f ->
             exists m, except_ValueError_nan (do v <- f a b; Ok (k v)) = Ok m).
  { intros f a b k Hf. destruct (f a b) as [v | e] eqn:E; simpl.
    - eexists; reflexivity.
    - destruct (Hf _ _ _ E) as [msg ->]. eexists; reflexivity. }
  unfold calc_metric.
  destruct (c =? "logloss") eqn:E1; [apply Hex; assumption |].
  destruct (c =? "logloss_pass") eqn:E2; [apply Hex; assumption |].
  destruct (c =? "auc") eqn:E3; [apply Hex; assumption |].
  destruct (c =? "acc") eqn:E4; [apply Hex; assumption |].
  destruct yhat as [| p yhat]; [contradiction |].
  destruct (c =? "ymin") eqn:E5; [eexists; reflexivity |].
  destruct (c =? "ymax") eqn:E6; [eexists; reflexivity |].
  destruct (c =? "ymean") eqn:E7; [eexists; reflexivity |].
  destruct (c =? "ystd") eqn:E8; [eexists; reflexivity |].
  destruct (c =? "length") eqn:E9; [eexists; reflexivity |].
  exfalso. revert Hk. unfold known_metric, per_era_names. cbn [existsb].
  rewrite E1, E2, E3, E4, E5, E6, E7, E8, E9. discriminate.
Qed.
Hypothesis sklearn_raises_ValueError :
  raises_only_ValueError log_loss /\
  raises_only_ValueError roc_auc_score /\
  raises_only_ValueError accuracy_score.


Lemma same_key_refl (x : F) : same_key x x = true.
Proof. unfold same_key, isnan. destruct (feqb x x); reflexivity. Qed.

Lemma isin_refl (x : F) : isnan x = false -> isin x x = true.
Proof. unfold isin, isnan. destruct (feqb x x); [reflexivity | discriminate]. Qed.

Lemma isin_nan (x e : F) : isnan e = true -> isin x e = false.
Proof. unfold isin. intros ->. reflexivity. Qed.

Lemma filter_none (A : Type) (f : A -> bool) (xs : list A) :
  (forall x, In x xs -> f x = false) -> filter f xs = [].
Proof.
  induction xs as [| x xs IH]; simpl; intros Hf; auto.
  rewrite (Hf x (or_introl eq_refl)). apply IH. intros; apply Hf; auto.
Qed.

Lemma nan_era_group (df : list (Joined F)) (e : F) :
  isnan e = true -> filter (fun r => isin (j_era r) e) df = [].
Proof. intros He. apply filter_none. intros r _. apply isin_nan. exact He. Qed.

Lemma unique_from_In (A : Type) (same : A -> A -> bool) (xs seen : list A) (x : A) :
  In x (unique_from same seen xs) -> In x xs.
Proof.
  revert seen. induction xs as [| y ys IH]; simpl; intros seen Hin; auto.
  destruct (existsb (same y) seen).
  - right. eapply IH; eauto.
  - destruct Hin as [-> | Hin]; auto. right. eapply IH; eauto.
Qed.

Lemma lookups_ok (table : F -> option string) (codes : list F) :
  (forall c, In c codes -> table c <> None) ->
  exists names, mapM (lookup table) (unique same_key codes) = Ok names.
Proof.
  intros Ht. apply mapM_ok. intros c Hc. apply unique_from_In in Hc.
  unfold lookup. destruct (table c) eqn:E; [eexists; reflexivity |].
  exfalso. exact (Ht c Hc E).
Qed.


End Raising.





Lemma name_metric_unknown (F : Type) (Fl : Float64 F) (mpe : DataFrame F)
      (pv : option (list (pair * list F))) (c : string) :
  known_summary c = false -> name_metric mpe pv c = Raise (unknown_metric c).
Proof.
  unfold known_summary, per_name_names. cbn [existsb]. intros Hc.
  repeat (apply orb_false_iff in Hc; destruct Hc as [? Hc]).
  unfold name_metric.
  repeat match goal with E : (c =? _)%string = false |- _ => rewrite E; clear E end.
  reflexivity.
Qed.

Lemma sklearn_documented_raises (F : Type) (Fl : Float64 F)
      (cross_entropy area_under_curve : list F -> list F -> F) :
  raises_only_ValueError (log_loss (Sklearn := sklearn_documented cross_entropy area_under_curve)) /\
  raises_only_ValueError (roc_auc_score (Sklearn := sklearn_documented cross_entropy area_under_curve)) /\
  raises_only_ValueError (accuracy_score (Sklearn := sklearn_documented cross_entropy area_under_curve)).
Proof.
  unfold raises_only_ValueError; simpl.
  unfold sk_log_loss, sk_roc_auc_score, sk_accuracy_score.
  split; [| split]; intros y yhat e;
    repeat match goal with
           | |- context [if ?b then _ else _] => destruct b
           end;
    intros [= <-]; eexists; reflexivity.
Qed.

(** ** add_split_pairs *)

Section SplitPairs.
Context {F : Type} `{Float64 F}.
Variable tournament_str : label -> string.

Lemma mapM_as_pair (pairs : list pair) : mapM (@as_pair F) (map PPair pairs) = Ok pairs.
Proof. induction pairs as [| p ps IH]; simpl; auto. rewrite IH. reflexivity. Qed.

Lemma label_of_obj_of_label (t : label) : label_of_obj (obj_of_label t : pyobj F) = Some t.
Proof. destruct t; reflexivity. Qed.

Lemma zip_columns_split (as_str : bool) (pairs : list pair) :
  zip_columns (map PStr (map fst pairs)) (map (@tournament_cell F tournament_str as_str) (map snd pairs)) =
  map (fun p => Some (fst p, rendered tournament_str as_str (snd p))) pairs.
Proof.
  unfold zip_columns. induction pairs as [| [n t] ps IH]; simpl; auto.
  rewrite IH. f_equal. unfold zip_cell, tournament_cell, rendered. simpl.
  destruct as_str; simpl; auto. rewrite label_of_obj_of_label. reflexivity.
Qed.

Lemma add_split_pairs_columns (df : DataFrame F) (as_str : bool) (pairs : list pair) :
  pair_cells df = Ok (map PPair pairs) ->
  pairs <> [] ->
  has_column "name" df = false ->
  has_column "tournament" df = false ->
  add_split_pairs tournament_str df as_str =
  Ok {| index := index df;
        columns := ("name", map PStr (map fst pairs))
                   :: ("tournament", map (@tournament_cell F tournament_str as_str) (map snd pairs))
                   :: columns df |}.
Proof.
  intros Hc Hne Hn Ht. unfold add_split_pairs. rewrite Hc. cbn [bind].
  rewrite mapM_as_pair. cbn [bind].
  destruct pairs as [| p ps]; [contradiction |]. cbn [unzip_pairs bind fst snd].
  unfold insert0 at 1. rewrite Ht. cbn [bind].
  unfold insert0, has_column. cbn [columns existsb fst index].
  change (existsb (fun c : string * list (pyobj F) => (fst c =? "name")%string) (columns df))
    with (has_column "name" df).
  rewrite Hn. cbn [orb String.eqb Ascii.eqb Bool.eqb bind].
  unfold tournament_cell. destruct as_str; reflexivity.
Qed.
End SplitPairs.

(** C7, as the code has it: on a non-empty frame whose pair column (or
    index) holds pairs and that has no [name] or [tournament] column yet,
    [add_split_pairs] inserts [name] and [tournament] as the first two
    columns; zipped, they give the pairs in their order, each tournament
    rendered by [tournament_str] when [as_str] is true (the default) and
    exactly as it was when [as_str] is false. *)
Theorem C7_add_split_pairs :
  forall (F : Type) (Fl : Float64 F) (tournament_str : label -> string)
         (df : DataFrame F) (as_str : bool) (pairs : list pair),
    pair_cells df = Ok (map PPair pairs) ->
    pairs <> [] ->
    has_column "name" df = false ->
    has_column "tournament" df = false ->
    exists name tournament : list (pyobj F),
      add_split_pairs tournament_str df as_str =
      Ok {| index := index df;
            columns := ("name", name) :: ("tournament", tournament) :: columns df |} /\
      zip_columns name tournament =
      map (fun p => Some (fst p, rendered tournament_str as_str (snd p))) pairs /\
      (as_str = false -> zip_columns name tournament = map Some pairs).
Proof.
  intros F Fl ts df as_str pairs Hc Hne Hn Ht.
  exists (map PStr (map fst pairs)), (map (@tournament_cell F ts as_str) (map snd pairs)).
  split; [apply add_split_pairs_columns; assumption |].
  split; [apply zip_columns_split |].
  intros ->. rewrite zip_columns_split. apply map_ext. intros [n t]. reflexivity.
Qed.

(** A run of C7: [as_str] false, a tournament given by number and one by
    name. *)
Lemma C7_add_split_pairs_witness :
  exists name tournament : list (pyobj float),
    add_split_pairs Example.tournament_str
      {| index := [PPair ("m", LInt 1); PPair ("k", LStr "ken")];
         columns := [("logloss", [PFloat 0.6; PFloat 0.7]%float)] |} false =
    Ok {| index := [PPair ("m", LInt 1); PPair ("k", LStr "ken")];
          columns := [("name", name); ("tournament", tournament);
                      ("logloss", [PFloat 0.6; PFloat 0.7]%float)] |} /\
    zip_columns name tournament =
    map (fun p => Some (fst p, rendered Example.tournament_str false (snd p)))
        [("m", LInt 1); ("k", LStr "ken")] /\
    (false = false -> zip_columns name tournament = map Some [("m", LInt 1); ("k", LStr "ken")]).
Proof.
  apply (@C7_add_split_pairs float _ Example.tournament_str
           {| index := [PPair ("m", LInt 1); PPair ("k", LStr "ken")];
              columns := [("logloss", [PFloat 0.6; PFloat 0.7]%float)] |}
           false [("m", LInt 1); ("k", LStr "ken")]).
  - reflexivity.
  - discriminate.
  - reflexivity.
  - reflexivity.
Defined.

(** C7 as stated fails three ways.  With [as_str] true, the default, the
    pair ("m", 1) comes back as ("m", "bernie"), its tournament rendered as
    a name.  On the frame the first call returns, a second call raises
    ValueError, the [tournament] column being there already.  On an empty
    frame the unpacking of [zip] raises ValueError. *)
Lemma C7_counterexample :
  add_split_pairs Example.tournament_str
    {| index := [PPair ("m", LInt 1)]; columns := [("logloss", [PFloat 0.6%float])] |} true =
  Ok {| index := [PPair ("m", LInt 1)];
        columns := [("name", [PStr "m"]); ("tournament", [PStr "bernie"]);
                    ("logloss", [PFloat 0.6%float])] |} /\
  zip_columns [PStr "m"] [@PStr float "bernie"] = [Some ("m", LStr "bernie")] /\
  pair_eqb ("m", LStr "bernie") ("m", LInt 1) = false /\
  add_split_pairs Example.tournament_str
    {| index := [PPair ("m", LInt 1)];
       columns := [("name", [PStr "m"]); ("tournament", [PStr "bernie"]);
                   ("logloss", [PFloat 0.6%float])] |} true =
  Raise (ValueError "cannot insert tournament, already exists") /\
  add_split_pairs Example.tournament_str
    {| index := []; columns := [("logloss", @nil (pyobj float))] |} true =
  Raise (ValueError "not enough values to unpack (expected 2, got 0)").
Proof. repeat split; reflexivity. Qed.

(** ** Sorting *)

Section SortFacts.
Variable A : Type.
Variable leb : A -> A -> bool.
Hypothesis leb_total : forall x y, leb x y = true \/ leb y x = true.
Hypothesis leb_trans : forall x y z, leb x y = true -> leb y z = true -> leb x z = true.

Local Abbreviation le := (fun x y => leb x y = true).

Lemma insert_sorted_perm (x : A) (xs : list A) :
  Permutation (insert_sorted leb x xs) (x :: xs).
Proof.
  induction xs as [| y ys IH]; simpl; auto.
  destruct (leb x y); auto.
  rewrite IH. apply perm_swap.
Qed.

Lemma sort_by_perm (xs : list A) : Permutation (sort_by leb xs) xs.
Proof.
  induction xs as [| x xs IH]; simpl; auto.
  rewrite insert_sorted_perm. auto.
Qed.

Lemma insert_sorted_sorted (x : A) (xs : list A) :
  StronglySorted le xs -> StronglySorted le (insert_sorted leb x xs).
Proof.
  induction 1 as [| y ys Hs IH Hy]; simpl.
  - repeat constructor.
  - destruct (leb x y) eqn:E.
    + constructor; [constructor; assumption |].
      constructor; [exact E |].
      rewrite Forall_forall in *. intros z Hz. eapply leb_trans; eauto.
    + constructor; [exact IH |].
      assert (Hyx : leb y x = true) by (destruct (leb_total x y); congruence).
      rewrite Forall_forall in *. intros z Hz.
      apply (Permutation_in _ (insert_sorted_perm x ys)) in Hz.
      destruct Hz as [<- | Hz]; auto.
Qed.

Lemma sort_by_sorted (xs : list A) : StronglySorted le (sort_by leb xs).
Proof.
  induction xs as [| x xs IH]; simpl.
  - constructor.
  - apply insert_sorted_sorted. exact IH.
Qed.
End SortFacts.

Section KeyOrder.
Context {F : Type} `{Float64Laws F}.

Lemma key_leb_total (a b : F) : key_leb a b = true \/ key_leb b a = true.
Proof.
  unfold key_leb. destruct (isnan b) eqn:Eb; auto. destruct (isnan a) eqn:Ea; auto.
  simpl. apply fleb_total; assumption.
Qed.

Lemma key_leb_trans (a b c : F) :
  key_leb a b = true -> key_leb b c = true -> key_leb a c = true.
Proof.
  unfold key_leb. destruct (isnan c) eqn:Ec; auto. simpl. intros Hab Hbc.
  destruct (isnan b) eqn:Eb.
  - rewrite (fleb_nan_l _ _ Eb) in Hbc. discriminate.
  - simpl in Hab. eapply fleb_trans; eauto.
Qed.
End KeyOrder.

(** ** concordance *)

Lemma enumerate_snd (A : Type) (xs : list A) : map snd (enumerate xs) = xs.
Proof.
  unfold enumerate. generalize 0%nat.
  induction xs as [| x xs IH]; simpl; intros n; auto. rewrite IH. reflexivity.
Qed.

Lemma mapM_raises (A B : Type) (f : A -> res B) (xs : list A) :
  (forall x, In x xs -> (exists y, f x = Ok y) \/ (exists msg, f x = Raise (ValueError msg))) ->
  (exists x msg, In x xs /\ f x = Raise (ValueError msg)) ->
  exists msg, mapM f xs = Raise (ValueError msg).
Proof.
  induction xs as [| x xs IH]; simpl; intros Hall (x0 & msg0 & Hin & Hx0); [contradiction |].
  destruct (Hall x (or_introl eq_refl)) as [[y Hy] | [msg Hmsg]].
  - rewrite Hy. cbn [bind].
    destruct IH as [msg Hm].
    + intros x' Hx'. apply Hall. right. exact Hx'.
    + destruct Hin as [-> | Hin]; [congruence |]. exists x0, msg0. split; assumption.
    + rewrite Hm. exists msg. reflexivity.
  - rewrite Hmsg. exists msg. reflexivity.
Qed.

Section ConcordanceFacts.
Context {F : Type} `{Float64Laws F}.
Variable REGION_INT_TO_STR : F -> option string.
Variable kmeans_fit : list (list F) -> list F -> Z.
Variable ks_2samp : list F -> list F -> res F.
Variable not_in_index : list string -> list string -> string.
Hypothesis ks_returns : returns_on_samples ks_2samp.

Lemma rows_at_length (yhats : list (string * list F)) (labels : list string)
      (yh : list (list F)) :
  rows_at yhats labels = Some yh -> List.length yh = List.length labels.
Proof.
  revert yh. induction labels as [| k labels IH]; simpl; intros yh E.
  - injection E as <-. reflexivity.
  - destruct (find_yhat k yhats); [| discriminate].
    destruct (rows_at yhats labels) as [yhs |]; [| discriminate].
    injection E as <-. simpl. f_equal. apply IH. reflexivity.
Qed.

Lemma rows_at_found (yhats : list (string * list F)) (labels : list string) :
  (forall k, In k labels -> find_yhat k yhats <> None) ->
  exists yh, rows_at yhats labels = Some yh.
Proof.
  induction labels as [| k labels IH]; simpl; intros Hall.
  - eexists. reflexivity.
  - destruct (find_yhat k yhats) as [yh |] eqn:E.
    + destruct IH as [yhs ->]; [intros; apply Hall; auto |]. eexists. reflexivity.
    + exfalso. apply (Hall k); auto.
Qed.

Lemma rows_at_missing (yhats : list (string * list F)) (labels : list string) (k : string) :
  In k labels -> find_yhat k yhats = None -> rows_at yhats labels = None.
Proof.
  induction labels as [| k0 labels IH]; simpl; intros Hin Hk; [contradiction |].
  destruct Hin as [-> | Hin].
  - rewrite Hk. reflexivity.
  - rewrite (IH Hin Hk). destruct (find_yhat k0 yhats); reflexivity.
Qed.

Lemma loc_aligned (prediction : Prediction F) (d : list (DataRow F)) :
  (forall r, In r d -> find_yhat (d_index r) (p_rows prediction) <> None) ->
  exists yh, loc not_in_index prediction d = Ok yh /\ List.length yh = List.length d.
Proof.
  intros Hall. unfold loc.
  destruct (rows_at_found (p_rows prediction) (map (@d_index F) d)) as [yh E].
  - intros k Hk. apply in_map_iff in Hk. destruct Hk as (r & <- & Hr). apply Hall. exact Hr.
  - rewrite E. exists yh. split; [reflexivity |].
    rewrite (rows_at_length _ _ E). apply length_map.
Qed.

Lemma loc_misaligned (prediction : Prediction F) (d : list (DataRow F)) :
  misaligned prediction d ->
  loc not_in_index prediction d
  = Raise (KeyError (not_in_index (map (@d_index F) d) (map fst (p_rows prediction)))).
Proof.
  intros (r & Hr & Hf). unfold loc.
  rewrite (rows_at_missing (p_rows prediction) (map (@d_index F) d) (d_index r)); auto.
  apply in_map. exact Hr.
Qed.

Lemma region_block_ok (model : list F -> Z) (data : list (DataRow F))
      (prediction : Prediction F) (region : string) :
  In region ["validation"; "test"; "live"] ->
  aligned REGION_INT_TO_STR data prediction ->
  in_region REGION_INT_TO_STR region data <> [] ->
  exists yh,
    region_block REGION_INT_TO_STR not_in_index model data prediction region
    = Ok (map (fun d => model (d_x d)) (in_region REGION_INT_TO_STR region data), yh) /\
    List.length yh = List.length (in_region REGION_INT_TO_STR region data).
Proof.
  intros Hr Ha Hne. unfold region_block.
  destruct (loc_aligned prediction (in_region REGION_INT_TO_STR region data)) as (yh & E & Hl).
  - intros d Hd. exact (Ha region d Hr Hd).
  - exists yh. split; [| exact Hl]. unfold predict.
    destruct (in_region REGION_INT_TO_STR region data) as [| d0 ds] eqn:Ed; [contradiction |].
    cbn [map bind]. rewrite E. cbn [bind]. rewrite map_map. reflexivity.
Qed.

Lemma in_cluster_nonempty (model : list F -> Z) (ds : list (DataRow F)) (yh : list (list F))
      (i : nat) (j : Z) :
  List.length yh = List.length ds ->
  (exists d, In d ds /\ model (d_x d) = j) ->
  in_cluster (map (fun d => model (d_x d)) ds, yh) i j <> [].
Proof.
  unfold in_cluster. cbn [fst snd]. revert yh.
  induction ds as [| d0 ds IH]; intros [| y yh] Hl (d & Hin & Hj); simpl in *;
    try discriminate; try contradiction.
  destruct (model (d_x d0) =? j)%Z eqn:E; [simpl; discriminate |].
  destruct Hin as [-> | Hin].
  - rewrite Hj, Z.eqb_refl in E. discriminate.
  - apply IH; [lia | exists d; split; assumption].
Qed.

Lemma in_cluster_empty (model : list F -> Z) (ds : list (DataRow F)) (yh : list (list F))
      (i : nat) (j : Z) :
  (forall d, In d ds -> model (d_x d) <> j) ->
  in_cluster (map (fun d => model (d_x d)) ds, yh) i j = [].
Proof.
  unfold in_cluster. cbn [fst snd]. revert yh.
  induction ds as [| d0 ds IH]; intros [| y yh] Hall; simpl; auto.
  destruct (model (d_x d0) =? j)%Z eqn:E.
  - apply Z.eqb_eq in E. exfalso. exact (Hall d0 (or_introl eq_refl) E).
  - apply IH. intros d Hd. apply Hall. right. exact Hd.
Qed.

Lemma cluster_set_In (cluster : list Z) (j : Z) : In j (cluster_set cluster) <-> In j cluster.
Proof.
  unfold cluster_set. split.
  - intros Hj. apply (Permutation_in _ (sort_by_perm Z.leb _)) in Hj.
    eapply unique_from_In. exact Hj.
  - intros Hj. apply (Permutation_in _ (Permutation_sym (sort_by_perm Z.leb _))).
    assert (Hc : forall xs seen, In j xs ->
                 existsb (Z.eqb j) seen = true \/ In j (unique_from Z.eqb seen xs)).
    { induction xs as [| x xs IH]; simpl; intros seen Hin; [contradiction |].
      destruct (existsb (Z.eqb x) seen) eqn:E.
      - destruct Hin as [-> | Hin]; [left; exact E | apply IH; exact Hin].
      - destruct Hin as [-> | Hin]; [right; left; reflexivity |].
        destruct (IH (x :: seen) Hin) as [Hs | Hu]; [| right; right; exact Hu].
        simpl in Hs. apply orb_true_iff in Hs. destruct Hs as [Hs | Hs]; [| left; exact Hs].
        apply Z.eqb_eq in Hs. subst. right. left. reflexivity. }
    destruct (Hc cluster [] Hj) as [Hs | Hu]; [discriminate | exact Hu].
Qed.

Section Blocks.
Variable model : list F -> Z.
Variable data : list (DataRow F).
Variables yh0 yh1 yh2 : list (list F).

Local Abbreviation rows region := (in_region REGION_INT_TO_STR region data).
Local Abbreviation block region yh := (map (fun d => model (d_x d)) (rows region), yh).

Hypothesis length0 : List.length yh0 = List.length (rows "validation").
Hypothesis length1 : List.length yh1 = List.length (rows "test").
Hypothesis length2 : List.length yh2 = List.length (rows "live").

Lemma cluster_distance_ok (i : nat) (j : Z) :
  clusters_shared REGION_INT_TO_STR model data ->
  In j (cluster_set (map (fun d => model (d_x d)) (rows "validation"))) ->
  exists v,
    cluster_distance ks_2samp (block "validation" yh0) (block "test" yh1) (block "live" yh2) i j
    = Ok v.
Proof.
  intros Hs Hj. apply (proj1 (cluster_set_In _ _)) in Hj. apply in_map_iff in Hj.
  destruct Hj as (d & Hdj & Hd).
  assert (N0 : in_cluster (block "validation" yh0) i j <> []).
  { apply in_cluster_nonempty; [exact length0 | exists d; split; assumption]. }
  assert (N1 : in_cluster (block "test" yh1) i j <> []).
  { apply in_cluster_nonempty; [exact length1 |].
    destruct (Hs d "test" Hd) as (d' & Hd' & E); [simpl; auto |].
    exists d'. split; [exact Hd' | congruence]. }
  assert (N2 : in_cluster (block "live" yh2) i j <> []).
  { apply in_cluster_nonempty; [exact length2 |].
    destruct (Hs d "live" Hd) as (d' & Hd' & E); [simpl; auto |].
    exists d'. split; [exact Hd' | congruence]. }
  unfold cluster_distance.
  destruct (ks_returns N0 N1) as [d01 ->].
  destruct (ks_returns N0 N2) as [d02 ->].
  destruct (ks_returns N2 N1) as [d21 ->].
  eexists. reflexivity.
Qed.

Lemma concords_ok (ips : list (nat * pair)) :
  clusters_shared REGION_INT_TO_STR model data ->
  exists rows,
    mapM (concord ks_2samp (block "validation" yh0) (block "test" yh1) (block "live" yh2)) ips
    = Ok rows /\
    map fst rows = map snd ips.
Proof.
  intros Hs. induction ips as [| ip ips IH]; simpl.
  - exists []. split; reflexivity.
  - unfold concord at 1. cbn [fst].
    destruct (mapM_ok (cluster_distance ks_2samp (block "validation" yh0) (block "test" yh1)
                                        (block "live" yh2) (fst ip))
                      (cluster_set (map (fun d => model (d_x d)) (rows "validation"))))
      as [ks ->].
    + intros j Hj. apply cluster_distance_ok; assumption.
    + cbn [bind]. destruct IH as (rs & -> & Hrs).
      eexists. split; [reflexivity |]. simpl. rewrite Hrs. reflexivity.
Qed.

Lemma cluster_distance_cases (i : nat) (j : Z) :
  rejects_empty ks_2samp ->
  (exists v,
      cluster_distance ks_2samp (block "validation" yh0) (block "test" yh1) (block "live" yh2)
                       i j = Ok v) \/
  (exists msg,
      cluster_distance ks_2samp (block "validation" yh0) (block "test" yh1) (block "live" yh2)
                       i j = Raise (ValueError msg)).
Proof.
  intros Hrej.
  assert (Hks : forall a b, (exists v, ks_2samp a b = Ok v) \/
                            (exists msg, ks_2samp a b = Raise (ValueError msg))).
  { intros a b. destruct a as [| x a]; [right; apply Hrej; auto |].
    destruct b as [| y b]; [right; apply Hrej; auto |].
    left. apply ks_returns; discriminate. }
  unfold cluster_distance.
  destruct (Hks (in_cluster (block "validation" yh0) i j) (in_cluster (block "test" yh1) i j))
    as [[d01 ->] | [msg ->]]; [| right; exists msg; reflexivity].
  destruct (Hks (in_cluster (block "validation" yh0) i j) (in_cluster (block "live" yh2) i j))
    as [[d02 ->] | [msg ->]]; [| right; exists msg; reflexivity].
  destruct (Hks (in_cluster (block "live" yh2) i j) (in_cluster (block "test" yh1) i j))
    as [[d21 ->] | [msg ->]]; [| right; exists msg; reflexivity].
  left. eexists. reflexivity.
Qed.

Lemma cluster_distance_raises (i : nat) (d : DataRow F) (region : string) :
  rejects_empty ks_2samp ->
  In d (rows "validation") ->
  In region ["test"; "live"] ->
  ~ shares_cluster REGION_INT_TO_STR model data d region ->
  exists msg,
    cluster_distance ks_2samp (block "validation" yh0) (block "test" yh1) (block "live" yh2)
                     i (model (d_x d))
    = Raise (ValueError msg).
Proof.
  intros Hrej Hd Hr Hno.
  assert (Hempty : forall yh,
             in_cluster (block region yh) i (model (d_x d)) = []).
  { intros yh. apply in_cluster_empty. intros d' Hd' E. apply Hno. exists d'. auto. }
  unfold cluster_distance.
  destruct Hr as [<- | [<- | []]].
  - rewrite Hempty. destruct (Hrej (in_cluster (block "validation" yh0) i (model (d_x d))) [])
      as [msg ->]; [auto |]. exists msg. reflexivity.
  - rewrite Hempty.
    destruct (ks_2samp (in_cluster (block "validation" yh0) i (model (d_x d)))
                       (in_cluster (block "test" yh1) i (model (d_x d)))) as [d01 | e] eqn:E.
    + cbn [bind].
      destruct (Hrej (in_cluster (block "validation" yh0) i (model (d_x d))) [])
        as [msg ->]; [auto |]. exists msg. reflexivity.
    + destruct (in_cluster (block "test" yh1) i (model (d_x d))) as [| y ys] eqn:E1.
      * destruct (Hrej (in_cluster (block "validation" yh0) i (model (d_x d))) [])
          as [msg Hm]; [auto |]. rewrite Hm in E. injection E as <-. exists msg. reflexivity.
      * assert (N0 : in_cluster (block "validation" yh0) i (model (d_x d)) <> []).
        { apply in_cluster_nonempty; [exact length0 | exists d; split; auto]. }
        destruct (@ks_returns (in_cluster (block "validation" yh0) i (model (d_x d)))
                              (y :: ys) N0 ltac:(discriminate)) as [v Hv].
        rewrite Hv in E. discriminate.
Qed.

Lemma concords_raise (ip : nat * pair) (ips : list (nat * pair)) (d : DataRow F)
      (region : string) :
  rejects_empty ks_2samp ->
  In d (rows "validation") ->
  In region ["test"; "live"] ->
  ~ shares_cluster REGION_INT_TO_STR model data d region ->
  exists msg,
    mapM (concord ks_2samp (block "validation" yh0) (block "test" yh1) (block "live" yh2))
         (ip :: ips)
    = Raise (ValueError msg).
Proof.
  intros Hrej Hd Hr Hno. cbn [mapM]. unfold concord at 1. cbn [fst].
  destruct (mapM_raises
              (cluster_distance ks_2samp (block "validation" yh0) (block "test" yh1)
                                (block "live" yh2) (fst ip))
              (cluster_set (map (fun d => model (d_x d)) (rows "validation")))) as [msg ->].
  - intros j _. apply cluster_distance_cases. exact Hrej.
  - destruct (cluster_distance_raises (fst ip) Hrej Hd Hr Hno) as [msg Hm].
    exists (model (d_x d)), msg. split; [| exact Hm].
    apply (proj2 (cluster_set_In _ _)). apply in_map_iff.
    exists d. split; [reflexivity | exact Hd].
  - exists msg. reflexivity.
Qed.
End Blocks.

Lemma blocks_ok (data : list (DataRow F)) (prediction : Prediction F) :
  clusterable REGION_INT_TO_STR data ->
  aligned REGION_INT_TO_STR data prediction ->
  exists yh0 yh1 yh2,
    List.length yh0 = List.length (in_region REGION_INT_TO_STR "validation" data) /\
    List.length yh1 = List.length (in_region REGION_INT_TO_STR "test" data) /\
    List.length yh2 = List.length (in_region REGION_INT_TO_STR "live" data) /\
    concord_rows REGION_INT_TO_STR kmeans_fit ks_2samp not_in_index data prediction
    = mapM (concord ks_2samp
              (map (fun d => kmeans_fit (map (@d_x F) data) (d_x d))
                   (in_region REGION_INT_TO_STR "validation" data), yh0)
              (map (fun d => kmeans_fit (map (@d_x F) data) (d_x d))
                   (in_region REGION_INT_TO_STR "test" data), yh1)
              (map (fun d => kmeans_fit (map (@d_x F) data) (d_x d))
                   (in_region REGION_INT_TO_STR "live" data), yh2))
           (enumerate (p_pairs prediction)).
Proof.
  intros [Hn Hne] Ha. unfold concord_rows, fit.
  assert (Hfit : (List.length (map (@d_x F) data) <? n_clusters)%nat = false).
  { rewrite length_map. apply Nat.ltb_ge. exact Hn. }
  rewrite Hfit. cbn [bind].
  destruct (@region_block_ok (kmeans_fit (map (@d_x F) data)) data prediction "validation"
              ltac:(simpl; auto) Ha (Hne "validation" ltac:(simpl; auto))) as (yh0 & -> & L0).
  destruct (@region_block_ok (kmeans_fit (map (@d_x F) data)) data prediction "test"
              ltac:(simpl; auto) Ha (Hne "test" ltac:(simpl; auto))) as (yh1 & -> & L1).
  destruct (@region_block_ok (kmeans_fit (map (@d_x F) data)) data prediction "live"
              ltac:(simpl; auto) Ha (Hne "live" ltac:(simpl; auto))) as (yh2 & -> & L2).
  cbn [bind]. exists yh0, yh1, yh2. repeat split; assumption.
Qed.

Lemma concord_rows_ok (data : list (DataRow F)) (prediction : Prediction F) :
  clusterable REGION_INT_TO_STR data ->
  aligned REGION_INT_TO_STR data prediction ->
  clusters_shared REGION_INT_TO_STR (kmeans_fit (map (@d_x F) data)) data ->
  exists rows,
    concord_rows REGION_INT_TO_STR kmeans_fit ks_2samp not_in_index data prediction = Ok rows /\
    map fst rows = p_pairs prediction.
Proof.
  intros Hc Ha Hs.
  destruct (blocks_ok Hc Ha) as (yh0 & yh1 & yh2 & L0 & L1 & L2 & ->).
  destruct (concords_ok _ _ _ L0 L1 L2 (enumerate (p_pairs prediction)) Hs) as (rows & -> & Hrows).
  exists rows. split; [reflexivity |]. rewrite Hrows. apply enumerate_snd.
Qed.

Lemma concord_rows_raise (data : list (DataRow F)) (prediction : Prediction F)
      (d : DataRow F) (region : string) :
  rejects_empty ks_2samp ->
  clusterable REGION_INT_TO_STR data ->
  aligned REGION_INT_TO_STR data prediction ->
  p_pairs prediction <> [] ->
  In d (in_region REGION_INT_TO_STR "validation" data) ->
  In region ["test"; "live"] ->
  ~ shares_cluster REGION_INT_TO_STR (kmeans_fit (map (@d_x F) data)) data d region ->
  exists msg,
    concord_rows REGION_INT_TO_STR kmeans_fit ks_2samp not_in_index data prediction
    = Raise (ValueError msg).
Proof.
  intros Hrej Hc Ha Hp Hd Hr Hno.
  destruct (blocks_ok Hc Ha) as (yh0 & yh1 & yh2 & L0 & L1 & L2 & ->).
  destruct (p_pairs prediction) as [| p ps] eqn:Ep; [contradiction |].
  unfold enumerate. cbn [List.length seq combine].
  eapply concords_raise; eassumption.
Qed.

Lemma concord_leb_total (a b : pair * F) : concord_leb a b = true \/ concord_leb b a = true.
Proof. apply key_leb_total. Qed.

Lemma concord_leb_trans (a b c : pair * F) :
  concord_leb a b = true -> concord_leb b c = true -> concord_leb a c = true.
Proof. apply key_leb_trans. Qed.
End ConcordanceFacts.

(** C8, as the code has it.  [concordance] returns a frame with the single
    column [concord] and one row per pair, ascending by score (NaN last), the
    scores compared with no threshold, when the data can be clustered (no
    fewer rows than the five clusters, a row in each of the three regions),
    every row of the three regions has a row of predictions, and every
    cluster of a validation row also holds a test row and a live row
    ([ks_2samp] returning a statistic on samples that are not empty).  When
    a cluster of a validation row holds no test row or no live row,
    [ks_2samp] is handed an empty sample: it raises ValueError, and so does
    [concordance], if there is a pair at all. *)
Theorem C8_concordance :
  forall (F : Type) (Fl : Float64 F) (L : Float64Laws F)
         (REGION_INT_TO_STR : F -> option string)
         (kmeans_fit : list (list F) -> list F -> Z)
         (ks_2samp : list F -> list F -> res F)
         (not_in_index : list string -> list string -> string)
         (data : list (DataRow F)) (prediction : Prediction F),
    returns_on_samples ks_2samp ->
    clusterable REGION_INT_TO_STR data ->
    aligned REGION_INT_TO_STR data prediction ->
    (clusters_shared REGION_INT_TO_STR (kmeans_fit (map (@d_x F) data)) data ->
     exists rows sorted : list (pair * F),
       concord_rows REGION_INT_TO_STR kmeans_fit ks_2samp not_in_index data prediction
       = Ok rows /\
       map fst rows = p_pairs prediction /\
       Permutation sorted rows /\
       ascending sorted /\
       concordance REGION_INT_TO_STR kmeans_fit ks_2samp not_in_index data prediction =
       Ok {| index := map (fun c => PPair (fst c)) sorted;
             columns := [("concord", map (fun c => PFloat (snd c)) sorted)] |} /\
       List.length sorted = List.length (p_pairs prediction)) /\
    (forall (d : DataRow F) (region : string),
        rejects_empty ks_2samp ->
        p_pairs prediction <> [] ->
        In d (in_region REGION_INT_TO_STR "validation" data) ->
        In region ["test"; "live"] ->
        ~ shares_cluster REGION_INT_TO_STR (kmeans_fit (map (@d_x F) data)) data d region ->
        exists msg,
          concordance REGION_INT_TO_STR kmeans_fit ks_2samp not_in_index data prediction
          = Raise (ValueError msg)).
Proof.
  intros F Fl L REGION kmeans ks msg data prediction Hks Hc Ha. split.
  - intros Hs.
    destruct (concord_rows_ok kmeans msg Hks Hc Ha Hs) as (rows & Hrows & Hpairs).
    exists rows, (sort_by concord_leb rows).
    split; [exact Hrows |]. split; [exact Hpairs |].
    split; [apply sort_by_perm |].
    split; [apply sort_by_sorted; [apply concord_leb_total | apply concord_leb_trans] |].
    split.
    + unfold concordance. rewrite Hrows. reflexivity.
    + rewrite (Permutation_length (sort_by_perm concord_leb rows)).
      rewrite <- Hpairs. symmetry. apply length_map.
  - intros d region Hrej Hp Hd Hr Hno.
    destruct (concord_rows_raise kmeans msg Hks Hrej Hc Ha Hp Hd Hr Hno) as [m Hm].
    exists m. unfold concordance. rewrite Hm. reflexivity.
Qed.

(** A run of C8: all five rows in one cluster; the pair predicting 0.5
    everywhere scores 0 and comes first. *)
Lemma C8_concordance_witness :
  (exists rows sorted : list (pair * float),
      concord_rows Example.REGION_INT_TO_STR Example.kmeans_fit Example.ks_2samp
                   Example.not_in_index Example.data Example.submission = Ok rows /\
      map fst rows = p_pairs Example.submission /\
      Permutation sorted rows /\
      ascending sorted /\
      concordance Example.REGION_INT_TO_STR Example.kmeans_fit Example.ks_2samp
                  Example.not_in_index Example.data Example.submission =
      Ok {| index := map (fun c => PPair (fst c)) sorted;
            columns := [("concord", map (fun c => PFloat (snd c)) sorted)] |} /\
      List.length sorted = List.length (p_pairs Example.submission)) /\
  concord_rows Example.REGION_INT_TO_STR Example.kmeans_fit Example.ks_2samp
               Example.not_in_index Example.data Example.submission =
  Ok [(("m", LInt 1), 1%float); (("k", LInt 2), 0%float)] /\
  concordance Example.REGION_INT_TO_STR Example.kmeans_fit Example.ks_2samp
              Example.not_in_index Example.data Example.submission =
  Ok {| index := [PPair ("k", LInt 2); PPair ("m", LInt 1)];
        columns := [("concord", [PFloat 0%float; PFloat 1%float])] |}.
Proof.
  split; [| split].
  - apply (@C8_concordance float _ Float64Laws_prim Example.REGION_INT_TO_STR
             Example.kmeans_fit Example.ks_2samp Example.not_in_index
             Example.data Example.submission).
    + intros [| x a] [| y b] Ha Hb; try contradiction. eexists. reflexivity.
    + split; [unfold n_clusters; simpl; lia |].
      intros region [<- | [<- | [<- | []]]]; vm_compute; discriminate.
    + intros region d [<- | [<- | [<- | []]]] Hd; vm_compute in Hd;
        repeat (destruct Hd as [<- | Hd]; [vm_compute; discriminate |]); contradiction.
    + intros d region Hd [<- | [<- | []]]; vm_compute in Hd;
        repeat (destruct Hd as [<- | Hd];
                [eexists; split; [vm_compute; left; reflexivity | vm_compute; reflexivity] |]);
        contradiction.
  - vm_compute. reflexivity.
  - vm_compute. reflexivity.
Defined.

(** C8 as stated fails when a cluster of a validation row holds no test row:
    with every feature vector a cluster of its own, [ks_2samp] is handed
    the empty sample of the test rows of the first validation cluster, and
    [concordance] raises its ValueError instead of returning a table. *)
Lemma C8_counterexample :
  aligned Example.REGION_INT_TO_STR Example.data Example.submission /\
  map (fun d => Example.kmeans_own (map (@d_x float) Example.data) (d_x d))
      (in_region Example.REGION_INT_TO_STR "validation" Example.data) = [0; 1]%Z /\
  map (fun d => Example.kmeans_own (map (@d_x float) Example.data) (d_x d))
      (in_region Example.REGION_INT_TO_STR "test" Example.data) = [3; 2]%Z /\
  concordance Example.REGION_INT_TO_STR Example.kmeans_own Example.ks_2samp
              Example.not_in_index Example.data Example.submission
  = Raise (ValueError "Data passed to ks_2samp must not be empty").
Proof.
  split; [| split; [| split]].
  - intros region d [<- | [<- | [<- | []]]] Hd; vm_compute in Hd;
      repeat (destruct Hd as [<- | Hd]; [vm_compute; discriminate |]); contradiction.
  - vm_compute. reflexivity.
  - vm_compute. reflexivity.
  - vm_compute. reflexivity.
Qed.

(** * Further properties *)

Ltac bind_as H x Ex :=
  match type of H with
  | bind ?m _ = Ok _ => destruct m as [x |] eqn:Ex; cbn [bind] in H; [| discriminate H]
  end.

(** ** The rows of the per-era frame *)

Section PerEraRows.
Context {F : Type} `{Float64 F} {sk : Sklearn F}.
Variable tournament_str : label -> string.
Variable ERA_INT_TO_STR : F -> option string.
Variable REGION_INT_TO_STR : F -> option string.

Lemma mapM_map (A B C : Type) (f : A -> res B) (g : B -> C) (h : A -> C)
      (xs : list A) (ys : list B) :
  (forall x y, In x xs -> f x = Ok y -> g y = h x) ->
  mapM f xs = Ok ys -> map g ys = map h xs.
Proof.
  revert ys. induction xs as [| x xs IH]; simpl; intros ys Hf E.
  - apply Ok_inj in E. subst. reflexivity.
  - bind_inv E. apply Ok_inj in E. subst. simpl. f_equal.
    + apply Hf; auto.
    + apply IH; auto.
Qed.

Lemma lookup_era_cell (era_as_str : bool) (e : F) (c : pyobj F) :
  (if era_as_str then lookup ERA_INT_TO_STR e else Ok (PFloat e)) = Ok c ->
  c = era_cell ERA_INT_TO_STR era_as_str e.
Proof.
  unfold era_cell, lookup. destruct era_as_str.
  - destruct (ERA_INT_TO_STR e); [| discriminate]. intros E. apply Ok_inj in E. auto.
  - intros E. apply Ok_inj in E. auto.
Qed.

Lemma era_metrics_rows (df : list (Joined F)) (pairs : list pair) (tournament : option label)
      (cols : list string) (era_as_str : bool) (e : F) (rows : list (list (pyobj F))) :
  era_metrics tournament_str ERA_INT_TO_STR df pairs tournament cols era_as_str e = Ok rows ->
  map (fun r => nth 0 r (PFloat nan)) rows
  = map (fun _ => era_cell ERA_INT_TO_STR era_as_str e) pairs /\
  map (fun r => nth 1 r (PFloat nan)) rows = map PPair pairs.
Proof.
  unfold era_metrics. intros E.
  bind_as E ec Eera.
  apply lookup_era_cell in Eera. subst ec.
  split.
  - rewrite <- (enumerate_snd pairs). rewrite map_map.
    eapply mapM_map; [| exact E]. intros ip row _ Hrow. unfold pair_metrics in Hrow.
    bind_inv Hrow. apply Ok_inj in Hrow. subst. reflexivity.
  - rewrite <- (enumerate_snd pairs). rewrite map_map.
    eapply mapM_map; [| exact E]. intros ip row _ Hrow. unfold pair_metrics in Hrow.
    bind_inv Hrow. apply Ok_inj in Hrow. subst. reflexivity.
Qed.

Lemma eras_rows (df : list (Joined F)) (pairs : list pair) (tournament : option label)
      (cols : list string) (era_as_str : bool) (eras : list F)
      (rowss : list (list (list (pyobj F)))) :
  mapM (era_metrics tournament_str ERA_INT_TO_STR df pairs tournament cols era_as_str) eras
  = Ok rowss ->
  map (fun r => nth 0 r (PFloat nan)) (List.concat rowss)
  = map (fun k => era_cell ERA_INT_TO_STR era_as_str (fst k))
        (flat_map (fun e => map (fun p => (e, p)) pairs) eras) /\
  map (fun r => nth 1 r (PFloat nan)) (List.concat rowss)
  = map (fun k => PPair (snd k)) (flat_map (fun e => map (fun p => (e, p)) pairs) eras).
Proof.
  revert rowss. induction eras as [| e eras IH]; simpl; intros rowss E.
  - apply Ok_inj in E. subst. split; reflexivity.
  - bind_inv E. apply Ok_inj in E. subst. simpl.
    destruct (era_metrics_rows _ _ _ _ _ _ E0) as [H0 H1].
    destruct (IH _ eq_refl) as [I0 I1].
    rewrite !map_app, H0, H1, I0, I1, !map_map. split; reflexivity.
Qed.

Lemma frame_of_rows_names (names : list string) (rows : list (list (pyobj F))) :
  column_names (frame_of_rows names rows) = names.
Proof.
  unfold column_names, frame_of_rows. cbn [columns]. rewrite map_map. cbn [fst].
  apply enumerate_snd.
Qed.

Lemma frame_of_rows_era (cols : list string) (rows : list (list (pyobj F))) :
  column "era" (frame_of_rows ("era" :: "pair" :: cols) rows)
  = Ok (map (fun r => nth 0 r (PFloat nan)) rows).
Proof. reflexivity. Qed.

Lemma frame_of_rows_pair (cols : list string) (rows : list (list (pyobj F))) :
  column "pair" (frame_of_rows ("era" :: "pair" :: cols) rows)
  = Ok (map (fun r => nth 1 r (PFloat nan)) rows).
Proof. reflexivity. Qed.

Lemma metrics_per_era_inv (data : list (DataRow F)) (prediction : Prediction F)
      (tournament : option label) (join : string) (cols : list string)
      (era_as_str region_as_str split_pairs : bool)
      (mpe : DataFrame F) (regions : list (pyobj F)) :
  metrics_per_era tournament_str ERA_INT_TO_STR REGION_INT_TO_STR data prediction
                  tournament join cols era_as_str region_as_str split_pairs
  = Ok (mpe, regions) ->
  exists h rowss,
    join_how join = Ok h /\
    (if region_as_str
     then mapM (lookup REGION_INT_TO_STR)
               (unique same_key (map (@j_region F) (joined_frame h data prediction)))
     else Ok (map PFloat (unique same_key (map (@j_region F) (joined_frame h data prediction)))))
    = Ok regions /\
    mapM (era_metrics tournament_str ERA_INT_TO_STR (joined_frame h data prediction)
                      (p_pairs prediction) tournament cols era_as_str)
         (eras_of (joined_frame h data prediction)) = Ok rowss /\
    (if split_pairs
     then add_split_pairs tournament_str
            (frame_of_rows ("era" :: "pair" :: cols) (List.concat rowss)) true
     else Ok (frame_of_rows ("era" :: "pair" :: cols) (List.concat rowss))) = Ok mpe.
Proof.
  unfold metrics_per_era. intros E.
  bind_as E h Ej. fold (joined_frame h data prediction) in E.
  bind_as E regs Eregs. bind_as E rowss Erows. bind_as E df Esplit.
  apply Ok_inj in E. injection E as -> ->.
  exists h, rowss. repeat split; assumption.
Qed.
End PerEraRows.

Section SplitPairsMore.
Context {F : Type} `{Float64 F}.
Variable tournament_str : label -> string.

Lemma add_split_pairs_of_pairs (df df' : DataFrame F) (as_str : bool) (pairs : list pair) :
  add_split_pairs tournament_str df as_str = Ok df' ->
  pair_cells df = Ok (map PPair pairs) ->
  pairs <> [] /\
  df' = {| index := index df;
           columns := ("name", map PStr (map fst pairs))
                      :: ("tournament", map (@tournament_cell F tournament_str as_str) (map snd pairs))
                      :: columns df |}.
Proof.
  unfold add_split_pairs. intros E Hc. rewrite Hc in E. cbn [bind] in E.
  rewrite mapM_as_pair in E. cbn [bind] in E.
  destruct pairs as [| p ps]; [discriminate |]. cbn [unzip_pairs bind fst snd] in E.
  split; [discriminate |].
  unfold insert0 at 1 in E. destruct (has_column "tournament" df); [discriminate |].
  cbn [bind] in E. unfold insert0, has_column in E. cbn [columns existsb fst index] in E.
  cbn [orb String.eqb Ascii.eqb Bool.eqb] in E.
  destruct (existsb (fun c : string * list (pyobj F) => (fst c =? "name")%string) (columns df));
    [discriminate |].
  cbn [bind] in E. apply Ok_inj in E. subst df'.
  unfold tournament_cell. destruct as_str; reflexivity.
Qed.
End SplitPairsMore.

Lemma row_keys_length (A B : Type) (eras : list A) (pairs : list B) :
  List.length (flat_map (fun e => map (fun p => (e, p)) pairs) eras)
  = (List.length eras * List.length pairs)%nat.
Proof.
  induction eras as [| e eras IH]; simpl; auto.
  rewrite length_app, length_map, IH. reflexivity.
Qed.

(** X1: the per-era frame has one row per era of the joined frame and pair
    of the prediction: the eras in order of first appearance, and within an
    era the pairs in the order of the prediction's columns.  Its [era] and
    [pair] columns hold these keys and its index is [0 .. n-1]. *)
Theorem X1_per_era_row_keys :
  forall (F : Type) (Fl : Float64 F) (sk : Sklearn F) (tournament_str : label -> string)
         (ERA_INT_TO_STR REGION_INT_TO_STR : F -> option string)
         (data : list (DataRow F)) (prediction : Prediction F)
         (tournament : option label) (join : string) (cols : list string)
         (era_as_str region_as_str split_pairs : bool)
         (mpe : DataFrame F) (regions : list (pyobj F)),
    metrics_per_era tournament_str ERA_INT_TO_STR REGION_INT_TO_STR data prediction
                    tournament join cols era_as_str region_as_str split_pairs
    = Ok (mpe, regions) ->
    exists h : how,
      join_how join = Ok h /\
      column "era" mpe
      = Ok (map (fun k => era_cell ERA_INT_TO_STR era_as_str (fst k))
                (row_keys (joined_frame h data prediction) (p_pairs prediction))) /\
      column "pair" mpe
      = Ok (map (fun k => PPair (snd k))
                (row_keys (joined_frame h data prediction) (p_pairs prediction))) /\
      index mpe
      = RangeIndex (List.length (eras_of (joined_frame h data prediction))
                    * List.length (p_pairs prediction)).
Proof.
  intros F Fl sk ts ERA REGION data prediction tournament join cols eas ras sp mpe regions E.
  destruct (metrics_per_era_inv _ _ _ _ _ _ _ _ _ _ _ E) as (h & rowss & Hj & _ & Hrows & Hsp).
  exists h. split; [exact Hj |].
  pose proof Hrows as Hkeys. apply eras_rows in Hkeys. destruct Hkeys as [H0 H1].
  assert (Hlen : List.length (List.concat rowss)
                 = (List.length (eras_of (joined_frame h data prediction))
                    * List.length (p_pairs prediction))%nat).
  { rewrite <- (length_map (fun r => nth 0 r (PFloat nan))), H0, length_map.
    apply row_keys_length. }
  unfold row_keys.
  destruct sp.
  - destruct (add_split_pairs_inv _ _ _ Hsp) as (nm & tn & Hc & Hi).
    destruct mpe as [idx cs]. cbn [columns index] in *. subst cs.
    assert (Hera : column "era" {| index := idx; columns := ("name", nm) :: ("tournament", tn)
                                     :: columns (frame_of_rows ("era" :: "pair" :: cols)
                                                               (List.concat rowss)) |}
                   = column "era" (frame_of_rows ("era" :: "pair" :: cols) (List.concat rowss)))
      by (apply column_after_split; discriminate).
    assert (Hpair : column "pair" {| index := idx; columns := ("name", nm) :: ("tournament", tn)
                                     :: columns (frame_of_rows ("era" :: "pair" :: cols)
                                                               (List.concat rowss)) |}
                   = column "pair" (frame_of_rows ("era" :: "pair" :: cols) (List.concat rowss)))
      by (apply column_after_split; discriminate).
    rewrite Hera, Hpair.
    rewrite frame_of_rows_era, frame_of_rows_pair, H0, H1, Hi.
    cbn [index frame_of_rows]. rewrite Hlen. repeat split; reflexivity.
  - apply Ok_inj in Hsp. subst mpe.
    rewrite frame_of_rows_era, frame_of_rows_pair, H0, H1.
    cbn [index frame_of_rows]. rewrite Hlen. repeat split; reflexivity.
Qed.

(** A run of X1: two eras and two pairs, four rows. *)
Lemma X1_per_era_row_keys_witness :
  metrics_per_era (sk := Runs.sklearn) Example.tournament_str
                  Example.ERA_INT_TO_STR Example.REGION_INT_TO_STR
                  Example.data Example.prediction (Some (LInt 3)) "yhat" ["logloss"; "length"]
                  true true true
  = Ok (Runs.per_era_frame, [PStr "validation"; PStr "test"]) /\
  exists h : how,
    join_how "yhat" = Ok h /\
    column "era" Runs.per_era_frame
    = Ok (map (fun k => era_cell Example.ERA_INT_TO_STR true (fst k))
              (row_keys (joined_frame h Example.data Example.prediction)
                        (p_pairs Example.prediction))) /\
    column "pair" Runs.per_era_frame
    = Ok (map (fun k => PPair (snd k))
              (row_keys (joined_frame h Example.data Example.prediction)
                        (p_pairs Example.prediction))) /\
    index Runs.per_era_frame
    = RangeIndex (List.length (eras_of (joined_frame h Example.data Example.prediction))
                  * List.length (p_pairs Example.prediction)).
Proof.
  split.
  - vm_compute. reflexivity.
  - apply (@X1_per_era_row_keys float _ Runs.sklearn Example.tournament_str
                Example.ERA_INT_TO_STR Example.REGION_INT_TO_STR
                Example.data Example.prediction (Some (LInt 3)) "yhat" ["logloss"; "length"]
                true true true Runs.per_era_frame [PStr "validation"; PStr "test"]).
    vm_compute. reflexivity.
Defined.

(** X2: the columns of the per-era frame are, left to right, [name] and
    [tournament] when [split_pairs] is set, then [era], [pair] and the
    requested statistics in the order they were asked for; every column is as
    long as the index.  The [name] and [tournament] columns repeat, row by
    row, the two halves of the [pair] column, the tournament by name: it is
    the pair's own tournament also when the call names another tournament to
    score against. *)
Theorem X2_per_era_columns :
  forall (F : Type) (Fl : Float64 F) (sk : Sklearn F) (tournament_str : label -> string)
         (ERA_INT_TO_STR REGION_INT_TO_STR : F -> option string)
         (data : list (DataRow F)) (prediction : Prediction F)
         (tournament : option label) (join : string) (cols : list string)
         (era_as_str region_as_str split_pairs : bool)
         (mpe : DataFrame F) (regions : list (pyobj F)),
    metrics_per_era tournament_str ERA_INT_TO_STR REGION_INT_TO_STR data prediction
                    tournament join cols era_as_str region_as_str split_pairs
    = Ok (mpe, regions) ->
    column_names mpe = split_names split_pairs ++ "era" :: "pair" :: cols /\
    rectangular mpe /\
    (split_pairs = true ->
     exists h : how,
       join_how join = Ok h /\
       column "name" mpe
       = Ok (map (fun k => PStr (fst (snd k)))
                 (row_keys (joined_frame h data prediction) (p_pairs prediction))) /\
       column "tournament" mpe
       = Ok (map (fun k => PStr (tournament_str (snd (snd k))))
                 (row_keys (joined_frame h data prediction) (p_pairs prediction)))).
Proof.
  intros F Fl sk ts ERA REGION data prediction tournament join cols eas ras sp mpe regions E.
  split; [| split].
  - destruct (metrics_per_era_inv _ _ _ _ _ _ _ _ _ _ _ E) as (h & rowss & _ & _ & _ & Hsp).
    destruct sp.
    + destruct (add_split_pairs_inv _ _ _ Hsp) as (nm & tn & Hc & _).
      unfold column_names. rewrite Hc. cbn [map fst split_names app]. do 2 f_equal.
      apply (frame_of_rows_names ("era" :: "pair" :: cols)).
    + apply Ok_inj in Hsp. subst mpe. apply (frame_of_rows_names ("era" :: "pair" :: cols)).
  - eapply metrics_per_era_rectangular. exact E.
  - intros ->.
    destruct (metrics_per_era_inv _ _ _ _ _ _ _ _ _ _ _ E) as (h & rowss & Hj & _ & Hrows & Hsp).
    exists h. split; [exact Hj |].
    apply eras_rows in Hrows. destruct Hrows as [_ H1].
    assert (Hc : pair_cells (frame_of_rows ("era" :: "pair" :: cols) (List.concat rowss))
                 = Ok (map PPair (map snd (row_keys (joined_frame h data prediction)
                                                    (p_pairs prediction))))).
    { unfold pair_cells.
      change (has_column "pair" (frame_of_rows ("era" :: "pair" :: cols) (List.concat rowss)))
        with true.
      cbn iota. rewrite frame_of_rows_pair, H1, map_map. reflexivity. }
    eapply add_split_pairs_of_pairs in Hsp; [| exact Hc]. destruct Hsp as [_ ->].
    rewrite !map_map. split; reflexivity.
Qed.

(** A run of X2: scored against tournament 3, the [tournament] column
    still names the tournaments of the pairs. *)
Lemma X2_per_era_columns_witness :
  column_names Runs.per_era_frame
  = split_names true ++ "era" :: "pair" :: ["logloss"; "length"] /\
  rectangular Runs.per_era_frame /\
  (true = true ->
   exists h : how,
     join_how "yhat" = Ok h /\
     column "name" Runs.per_era_frame
     = Ok (map (fun k => PStr (fst (snd k)))
               (row_keys (joined_frame h Example.data Example.prediction)
                         (p_pairs Example.prediction))) /\
     column "tournament" Runs.per_era_frame
     = Ok (map (fun k => PStr (Example.tournament_str (snd (snd k))))
               (row_keys (joined_frame h Example.data Example.prediction)
                         (p_pairs Example.prediction)))).
Proof.
  apply (@X2_per_era_columns float _ Runs.sklearn Example.tournament_str
                Example.ERA_INT_TO_STR Example.REGION_INT_TO_STR
                Example.data Example.prediction (Some (LInt 3)) "yhat" ["logloss"; "length"]
                true true true Runs.per_era_frame [PStr "validation"; PStr "test"]).
  vm_compute. reflexivity.
Defined.

(** ** When the per-era call returns *)

Section PerEraReturns.
Context {F : Type} `{Float64 F} {sk : Sklearn F}.
Variable tournament_str : label -> string.
Variable ERA_INT_TO_STR : F -> option string.
Variable REGION_INT_TO_STR : F -> option string.
Hypothesis sklearn_raises_ValueError :
  raises_only_ValueError log_loss /\
  raises_only_ValueError roc_auc_score /\
  raises_only_ValueError accuracy_score.

Lemma calc_metric_returns (y yhat : list F) (c : string) :
  yhat <> [] \/ (c <> "ymin" /\ c <> "ymax") ->
  known_metric c = true ->
  exists m, calc_metric y yhat c = Ok m.
Proof.
  destruct sklearn_raises_ValueError as (Hl & Ha & Hc).
  intros [Hne | [Hmin Hmax]] Hk; [apply calc_metric_known; assumption |].
  destruct yhat as [| p yhat]; [| apply calc_metric_known; [assumption .. | discriminate | assumption]].
  assert (Hex : forall (f : list F -> list F -> res F) a b (k : F -> pyobj F),
             raises_only_ValueError f ->
             exists m, except_ValueError_nan (do v <- f a b; Ok (k v)) = Ok m).
  { intros f a b k Hf. destruct (f a b) as [v | e] eqn:E; simpl.
    - eexists; reflexivity.
    - destruct (Hf _ _ _ E) as [msg ->]. eexists; reflexivity. }
  unfold calc_metric.
  destruct (c =? "logloss") eqn:E1; [apply Hex; assumption |].
  destruct (c =? "logloss_pass") eqn:E2; [apply Hex; assumption |].
  destruct (c =? "auc") eqn:E3; [apply Hex; assumption |].
  destruct (c =? "acc") eqn:E4; [apply Hex; assumption |].
  apply String.eqb_neq in Hmin, Hmax. rewrite Hmin, Hmax.
  destruct (c =? "ymean") eqn:E7; [eexists; reflexivity |].
  destruct (c =? "ystd") eqn:E8; [eexists; reflexivity |].
  destruct (c =? "length") eqn:E9; [eexists; reflexivity |].
  exfalso. revert Hk. unfold known_metric, per_era_names. cbn [existsb].
  rewrite E1, E2, E3, E4, Hmin, Hmax, E7, E8, E9. discriminate.
Qed.

Lemma calc_metrics_arrays_known (y yhat : list F) (cols : list string) :
  yhat <> [] \/ (mem "ymin" cols = false /\ mem "ymax" cols = false) ->
  forallb known_metric cols = true ->
  exists ms, calc_metrics_arrays y yhat cols = Ok ms.
Proof.
  intros Hne. induction cols as [| c cols IH]; simpl; intros Hk.
  - eexists. reflexivity.
  - apply andb_true_iff in Hk. destruct Hk as [Hk Hks].
    destruct (@calc_metric_returns y yhat c) as [m ->]; [| exact Hk |].
    + destruct Hne as [Hne | [Hmin Hmax]]; [left; exact Hne | right].
      unfold mem in Hmin, Hmax. cbn [existsb] in Hmin, Hmax.
      apply orb_false_iff in Hmin, Hmax. destruct Hmin as [Hmin _], Hmax as [Hmax _].
      split; intros ->; discriminate.
    + destruct IH as [ms ->]; [| exact Hks | eexists; reflexivity].
      destruct Hne as [Hne | [Hmin Hmax]]; [left; exact Hne | right].
      unfold mem in Hmin, Hmax. cbn [existsb] in Hmin, Hmax.
      apply orb_false_iff in Hmin, Hmax. destruct Hmin as [_ Hmin], Hmax as [_ Hmax].
      split; assumption.
Qed.

Lemma era_metrics_known (df : list (Joined F)) (r0 : Joined F) (pairs : list pair)
      (tournament : option label) (cols : list string) (era_as_str : bool) :
  In r0 df -> forallb known_metric cols = true ->
  isnan (j_era r0) = false \/ (mem "ymin" cols = false /\ mem "ymax" cols = false) ->
  (era_as_str = true -> ERA_INT_TO_STR (j_era r0) <> None) ->
  exists rows,
    era_metrics tournament_str ERA_INT_TO_STR df pairs tournament cols era_as_str (j_era r0)
    = Ok rows.
Proof.
  intros Hin Hk Hnan He. unfold era_metrics.
  assert (Hera : exists e, (if era_as_str then lookup ERA_INT_TO_STR (j_era r0)
                            else Ok (PFloat (j_era r0))) = Ok e).
  { destruct era_as_str; [| eexists; reflexivity].
    unfold lookup. destruct (ERA_INT_TO_STR (j_era r0)); [eexists; reflexivity |].
    exfalso. apply He; reflexivity. }
  destruct Hera as [e ->]. cbn [bind].
  apply mapM_ok. intros ip _. unfold pair_metrics.
  match goal with
  | |- exists y, bind (calc_metrics_arrays ?a ?b cols) _ = _ =>
      destruct (@calc_metrics_arrays_known a b cols) as [ms ->]
  end.
  - destruct Hnan as [Hnan | Hcols]; [left | right; exact Hcols].
    intros Hnil. apply map_eq_nil in Hnil.
    assert (Hr : In r0 (filter (fun r => isin (j_era r) (j_era r0)) df)).
    { apply filter_In. split; auto. apply isin_refl. exact Hnan. }
    rewrite Hnil in Hr. contradiction.
  - exact Hk.
  - eexists. reflexivity.
Qed.
End PerEraReturns.

Lemma unique_nonempty (A : Type) (same : A -> A -> bool) (xs : list A) :
  xs <> [] -> unique same xs <> [].
Proof. destruct xs as [| x xs]; [contradiction |]. intros _. unfold unique. simpl. discriminate. Qed.

Lemma has_column_frame_of_rows (F : Type) `{Float64 F} (c : string) (names : list string)
      (rows : list (list (pyobj F))) :
  has_column c (frame_of_rows names rows) = existsb (fun n => (n =? c)%string) names.
Proof.
  unfold has_column, frame_of_rows, enumerate. cbn [columns].
  generalize 0%nat. induction names as [| n names IH]; intros k; simpl; auto.
  rewrite IH. reflexivity.
Qed.

Lemma known_metric_not (cols : list string) (c : string) :
  forallb known_metric cols = true -> known_metric c = false ->
  existsb (fun n => (n =? c)%string) cols = false.
Proof.
  intros Hk Hc. induction cols as [| n cols IH]; simpl; auto.
  simpl in Hk. apply andb_true_iff in Hk. destruct Hk as [Hn Hk].
  rewrite (IH Hk). destruct (n =? c)%string eqn:E; auto.
  apply String.eqb_eq in E. subst. congruence.
Qed.

Section PerEraCall.
Context {F : Type} `{Float64 F} {sk : Sklearn F}.
Variable tournament_str : label -> string.
Variable ERA_INT_TO_STR : F -> option string.
Variable REGION_INT_TO_STR : F -> option string.

Lemma metrics_per_era_returns (data : list (DataRow F)) (prediction : Prediction F)
      (tournament : option label) (join : string) (h : how) (cols : list string)
      (era_as_str region_as_str split_pairs : bool) :
  raises_only_ValueError log_loss /\
  raises_only_ValueError roc_auc_score /\
  raises_only_ValueError accuracy_score ->
  join_how join = Ok h ->
  forallb known_metric cols = true ->
  (forall r, In r (joined_frame h data prediction) -> isnan (j_era r) = false) \/
  (mem "ymin" cols = false /\ mem "ymax" cols = false) ->
  (era_as_str = true ->
   forall r, In r (joined_frame h data prediction) -> ERA_INT_TO_STR (j_era r) <> None) ->
  (region_as_str = true ->
   forall r, In r (joined_frame h data prediction) -> REGION_INT_TO_STR (j_region r) <> None) ->
  (split_pairs = true -> joined_frame h data prediction <> [] /\ p_pairs prediction <> []) ->
  exists (mpe : DataFrame F) (regions : list (pyobj F)),
    metrics_per_era tournament_str ERA_INT_TO_STR REGION_INT_TO_STR data prediction
                    tournament join cols era_as_str region_as_str split_pairs
    = Ok (mpe, regions).
Proof.
  intros Hsk Hj Hk Hnan He Hr Hs.
  unfold metrics_per_era. rewrite Hj. cbn [bind].
  fold (joined_frame h data prediction).
  set (df := joined_frame h data prediction) in *.
  assert (Hreg : exists regions,
             (if region_as_str
              then mapM (lookup REGION_INT_TO_STR) (unique same_key (map (@j_region F) df))
              else Ok (map PFloat (unique same_key (map (@j_region F) df)))) = Ok regions).
  { destruct region_as_str; [| eexists; reflexivity].
    apply lookups_ok. intros code Hin. apply in_map_iff in Hin.
    destruct Hin as (r & <- & Hin). apply Hr; auto. }
  destruct Hreg as [regions ->]. cbn [bind].
  fold (eras_of df).
  destruct (mapM_ok (era_metrics tournament_str ERA_INT_TO_STR df (p_pairs prediction)
                                 tournament cols era_as_str)
                    (eras_of df)) as [rowss Hrows].
  { intros e Hin. apply unique_from_In in Hin. apply in_map_iff in Hin.
    destruct Hin as (r & <- & Hin).
    apply era_metrics_known; auto.
    destruct Hnan as [Hnan | Hcols]; [left; apply Hnan; exact Hin | right; exact Hcols]. }
  rewrite Hrows. cbn [bind].
  destruct split_pairs; [| eexists; eexists; reflexivity].
  destruct (Hs eq_refl) as [Hdf Hp].
  apply eras_rows in Hrows. destruct Hrows as [_ H1].
  rewrite (@add_split_pairs_columns F tournament_str _ true
             (map snd (flat_map (fun e => map (fun p => (e, p)) (p_pairs prediction))
                                (eras_of df)))).
  - eexists. eexists. reflexivity.
  - unfold pair_cells.
    change (has_column "pair" (frame_of_rows ("era" :: "pair" :: cols) (List.concat rowss)))
      with true.
    cbn iota. rewrite frame_of_rows_pair, H1, map_map. reflexivity.
  - intros Hnil. apply map_eq_nil in Hnil.
    assert (He0 : eras_of df <> []).
    { apply unique_nonempty. intros Hm. apply map_eq_nil in Hm. contradiction. }
    destruct (eras_of df) as [| e0 eras]; [contradiction |].
    destruct (p_pairs prediction) as [| p0 ps]; [contradiction |].
    simpl in Hnil. discriminate.
  - rewrite has_column_frame_of_rows. cbn [existsb]. apply known_metric_not; auto.
  - rewrite has_column_frame_of_rows. cbn [existsb]. apply known_metric_not; auto.
Qed.
End PerEraCall.

(** X3: with a recognised join mode and statistic names that
    [calc_metrics_arrays] knows, [metrics_per_era] returns a frame whatever
    the groups hold (a single class, a NaN target or prediction): sklearn's
    ValueErrors are absorbed.  What is needed besides: that no era of the
    joined frame is NaN, or that neither [ymin] nor [ymax] is asked for (the
    group of a NaN era is empty, and an empty array has no extremum); that
    sklearn raises nothing but ValueError; that the code tables cover the
    codes when names are asked for; and, when [split_pairs] is set, at least
    one joined row and one pair. *)
Theorem X3_per_era_returns :
  forall (F : Type) (Fl : Float64 F) (sk : Sklearn F) (tournament_str : label -> string)
         (ERA_INT_TO_STR REGION_INT_TO_STR : F -> option string)
         (data : list (DataRow F)) (prediction : Prediction F)
         (tournament : option label) (join : string) (h : how) (cols : list string)
         (era_as_str region_as_str split_pairs : bool),
    raises_only_ValueError log_loss /\
    raises_only_ValueError roc_auc_score /\
    raises_only_ValueError accuracy_score ->
    join_how join = Ok h ->
    forallb known_metric cols = true ->
    (forall r, In r (joined_frame h data prediction) -> isnan (j_era r) = false) \/
    (mem "ymin" cols = false /\ mem "ymax" cols = false) ->
    (era_as_str = true ->
     forall r, In r (joined_frame h data prediction) -> ERA_INT_TO_STR (j_era r) <> None) ->
    (region_as_str = true ->
     forall r, In r (joined_frame h data prediction) -> REGION_INT_TO_STR (j_region r) <> None) ->
    (split_pairs = true -> joined_frame h data prediction <> [] /\ p_pairs prediction <> []) ->
    exists (mpe : DataFrame F) (regions : list (pyobj F)),
      metrics_per_era tournament_str ERA_INT_TO_STR REGION_INT_TO_STR data prediction
                      tournament join cols era_as_str region_as_str split_pairs
      = Ok (mpe, regions).
Proof.
  intros F Fl sk ts ERA REGION data prediction tournament join h cols eas ras sp.
  apply metrics_per_era_returns.
Qed.

(** A run of X3: the default join, under which the second era holds a row
    without predictions; and a join on the predictions with a row the data
    does not have, whose era is NaN: its group is empty, of length 0, and
    asking for [ymin] raises. *)
Lemma X3_per_era_returns_witness :
  (exists (mpe : DataFrame float) (regions : list (pyobj float)),
    metrics_per_era (sk := Runs.sklearn) Example.tournament_str
                    Example.ERA_INT_TO_STR Example.REGION_INT_TO_STR
                    Example.data Example.prediction None "data"
                    ["logloss"; "auc"; "acc"; "ymin"] true true true
    = Ok (mpe, regions)) /\
  (exists (mpe : DataFrame float) (regions : list (pyobj float)),
    metrics_per_era (sk := Runs.sklearn) Example.tournament_str
                    Example.ERA_INT_TO_STR Example.REGION_INT_TO_STR
                    Example.data Runs.stray None "yhat"
                    ["logloss"; "length"] false false false
    = Ok (mpe, regions)) /\
  map (@j_era float) (joined_frame how_right Example.data Runs.stray) = [1%float; nan] /\
  option_map (fun mr => column "length" (fst mr))
    (match metrics_per_era (sk := Runs.sklearn) Example.tournament_str
                           Example.ERA_INT_TO_STR Example.REGION_INT_TO_STR
                           Example.data Runs.stray None "yhat"
                           ["logloss"; "length"] false false false with
     | Ok mr => Some mr
     | Raise _ => None
     end)
  = Some (Ok [PInt 1; PInt 1; PInt 0; PInt 0]) /\
  is_value_error
    (metrics_per_era (sk := Runs.sklearn) Example.tournament_str
                     Example.ERA_INT_TO_STR Example.REGION_INT_TO_STR
                     Example.data Runs.stray None "yhat"
                     ["logloss"; "ymin"] false false false) = true.
Proof.
  split; [| split; [| split; [| split]]].
  - apply (@X3_per_era_returns float _ Runs.sklearn Example.tournament_str
             Example.ERA_INT_TO_STR Example.REGION_INT_TO_STR
             Example.data Example.prediction None "data" how_left
             ["logloss"; "auc"; "acc"; "ymin"] true true true).
    + exact (sklearn_documented_raises _ (Example.recorded Example.log_losses)
                                       (Example.recorded Example.areas)).
    + reflexivity.
    + reflexivity.
    + left. intros r Hr. vm_compute in Hr.
      repeat (destruct Hr as [<- | Hr]; [reflexivity |]). contradiction.
    + intros _ r Hr. vm_compute in Hr.
      repeat (destruct Hr as [<- | Hr]; [vm_compute; discriminate |]). contradiction.
    + intros _ r Hr. vm_compute in Hr.
      repeat (destruct Hr as [<- | Hr]; [vm_compute; discriminate |]). contradiction.
    + intros _. split; vm_compute; discriminate.
  - apply (@X3_per_era_returns float _ Runs.sklearn Example.tournament_str
             Example.ERA_INT_TO_STR Example.REGION_INT_TO_STR
             Example.data Runs.stray None "yhat" how_right
             ["logloss"; "length"] false false false).
    + exact (sklearn_documented_raises _ (Example.recorded Example.log_losses)
                                       (Example.recorded Example.areas)).
    + reflexivity.
    + reflexivity.
    + right. split; reflexivity.
    + discriminate.
    + discriminate.
    + discriminate.
  - vm_compute. reflexivity.
  - vm_compute. reflexivity.
  - vm_compute. reflexivity.
Defined.

(** ** An empty join *)

(** X4: when the join leaves no row (no key in common, or every prediction
    row holding a NaN), [metrics_per_era] returns an empty frame with
    [split_pairs] off, and with [split_pairs] on, its default, raises the
    ValueError of unpacking an empty [zip]; the statistic names are not
    looked at.  [metrics_per_name], which always asks for the split, raises
    that ValueError. *)
Theorem X4_empty_join :
  forall (F : Type) (Fl : Float64 F) (sk : Sklearn F) (tournament_str : label -> string)
         (ERA_INT_TO_STR REGION_INT_TO_STR : F -> option string)
         (data : list (DataRow F)) (prediction : Prediction F)
         (tournament : option label) (join : string) (h : how) (cols : list string)
         (era_as_str region_as_str split_pairs : bool),
    join_how join = Ok h ->
    joined_frame h data prediction = [] ->
    metrics_per_era tournament_str ERA_INT_TO_STR REGION_INT_TO_STR data prediction
                    tournament join cols era_as_str region_as_str false
    = Ok (frame_of_rows ("era" :: "pair" :: cols) [], []) /\
    metrics_per_era tournament_str ERA_INT_TO_STR REGION_INT_TO_STR data prediction
                    tournament join cols era_as_str region_as_str true
    = Raise (ValueError "not enough values to unpack (expected 2, got 0)") /\
    metrics_per_name tournament_str ERA_INT_TO_STR REGION_INT_TO_STR data prediction
                     tournament join cols era_as_str region_as_str split_pairs
    = Raise (ValueError "not enough values to unpack (expected 2, got 0)").
Proof.
  intros F Fl sk ts ERA REGION data prediction tournament join h cols eas ras sp Hj Hdf.
  assert (Hera : forall cs a b,
             metrics_per_era ts ERA REGION data prediction tournament join cs a b true
             = Raise (ValueError "not enough values to unpack (expected 2, got 0)")).
  { intros cs a b. unfold metrics_per_era. rewrite Hj. cbn [bind].
    fold (joined_frame h data prediction). rewrite Hdf. destruct b; reflexivity. }
  split; [| split].
  - unfold metrics_per_era. rewrite Hj. cbn [bind].
    fold (joined_frame h data prediction). rewrite Hdf. destruct ras; reflexivity.
  - apply Hera.
  - unfold metrics_per_name. rewrite Hera. reflexivity.
Qed.

(** A run of X4: every prediction row misses a cell. *)
Lemma X4_empty_join_witness :
  metrics_per_era (sk := Runs.sklearn) Example.tournament_str
                  Example.ERA_INT_TO_STR Example.REGION_INT_TO_STR
                  Example.data Runs.unobserved None "yhat" ["logloss"] true true false
  = Ok (frame_of_rows ("era" :: "pair" :: ["logloss"]) [], []) /\
  metrics_per_era (sk := Runs.sklearn) Example.tournament_str
                  Example.ERA_INT_TO_STR Example.REGION_INT_TO_STR
                  Example.data Runs.unobserved None "yhat" ["logloss"] true true true
  = Raise (ValueError "not enough values to unpack (expected 2, got 0)") /\
  metrics_per_name (sk := Runs.sklearn) Example.tournament_str
                   Example.ERA_INT_TO_STR Example.REGION_INT_TO_STR
                   Example.data Runs.unobserved None "yhat" ["logloss"] true true false
  = Raise (ValueError "not enough values to unpack (expected 2, got 0)").
Proof.
  apply (@X4_empty_join float _ Runs.sklearn Example.tournament_str
           Example.ERA_INT_TO_STR Example.REGION_INT_TO_STR
           Example.data Runs.unobserved None "yhat" how_right ["logloss"] true true false).
  - reflexivity.
  - vm_compute. reflexivity.
Defined.

(** ** add_split_pairs, again *)

Section SplitTwice.
Context {F : Type} `{Float64 F}.
Variable tournament_str : label -> string.

Lemma pair_cells_after_split (name tournament : list (pyobj F))
      (df : DataFrame F) (cells : list (pyobj F)) :
  pair_cells df = Ok cells ->
  pair_cells {| index := index df;
                columns := ("name", name) :: ("tournament", tournament) :: columns df |}
  = Ok cells.
Proof.
  unfold pair_cells, has_column, column. cbn [columns existsb find fst index].
  cbn [orb String.eqb Ascii.eqb Bool.eqb]. auto.
Qed.
End SplitTwice.

(** X5: [add_split_pairs] cannot be applied to its own result: the second
    call raises ValueError, the [tournament] column being there already
    (whatever [as_str] is in either call). *)
Theorem X5_add_split_pairs_twice :
  forall (F : Type) (Fl : Float64 F) (tournament_str : label -> string)
         (df df' : DataFrame F) (as_str as_str' : bool),
    add_split_pairs tournament_str df as_str = Ok df' ->
    add_split_pairs tournament_str df' as_str'
    = Raise (ValueError "cannot insert tournament, already exists").
Proof.
  intros F Fl ts df df' a b E.
  destruct (add_split_pairs_inv _ _ _ E) as (nm & tn & Hc & Hi).
  unfold add_split_pairs in E.
  bind_as E cells Ecells. bind_as E pairs Epairs. bind_as E nt Ent.
  destruct df' as [idx cs]. cbn [columns index] in Hc, Hi. subst idx cs.
  unfold add_split_pairs.
  rewrite (pair_cells_after_split nm tn df Ecells). cbn [bind].
  rewrite Epairs. cbn [bind]. rewrite Ent. cbn [bind].
  reflexivity.
Qed.

(** A run of X5. *)
Lemma X5_add_split_pairs_twice_witness :
  add_split_pairs Example.tournament_str
    {| index := [PPair ("m", LInt 1)];
       columns := [("name", [PStr "m"]); ("tournament", [PInt 1]);
                   ("logloss", [PFloat 0.6%float])] |} true
  = Raise (ValueError "cannot insert tournament, already exists").
Proof.
  apply (@X5_add_split_pairs_twice float _ Example.tournament_str
           {| index := [PPair ("m", LInt 1)]; columns := [("logloss", [PFloat 0.6%float])] |}
           {| index := [PPair ("m", LInt 1)];
              columns := [("name", [PStr "m"]); ("tournament", [PInt 1]);
                          ("logloss", [PFloat 0.6%float])] |} false true).
  vm_compute. reflexivity.
Defined.

(** ** The per-era columns behind a per-name call *)

Lemma not_derived (c : string) :
  negb (mem c ["sharpe"; "consis"]) = true <-> c <> "sharpe" /\ c <> "consis".
Proof.
  unfold mem. cbn [existsb]. rewrite orb_false_r, negb_true_iff, orb_false_iff.
  rewrite !String.eqb_neq. tauto.
Qed.

Lemma filter_all (A : Type) (f : A -> bool) (xs : list A) :
  (forall x, In x xs -> f x = true) -> filter f xs = xs.
Proof.
  induction xs as [| x xs IH]; simpl; intros Hf; auto.
  rewrite (Hf x (or_introl eq_refl)). f_equal. apply IH. intros; apply Hf; auto.
Qed.

(** X6: the statistics [metrics_per_name] asks [metrics_per_era] for are the
    requested ones without [sharpe] and [consis], in their order, with
    [logloss] appended, last, when one of the two is requested and [logloss]
    is not: [logloss] is never added twice, a request without repeats stays
    without repeats, and a request for neither derived statistic is passed
    on unchanged.  For [sharpe, auc, consis] they are [auc, logloss]. *)
Theorem X6_era_columns :
  forall cols : list string,
    (forall c, In c (era_columns cols) <->
               (In c cols /\ c <> "sharpe" /\ c <> "consis") \/
               (c = "logloss" /\ (In "sharpe" cols \/ In "consis" cols))) /\
    (NoDup cols -> NoDup (era_columns cols)) /\
    (~ In "sharpe" cols -> ~ In "consis" cols -> era_columns cols = cols) /\
    (In "logloss" cols -> era_columns cols = filter (fun c => negb (mem c ["sharpe"; "consis"])) cols) /\
    (In "sharpe" cols \/ In "consis" cols -> ~ In "logloss" cols ->
     era_columns cols
     = filter (fun c => negb (mem c ["sharpe"; "consis"])) cols ++ ["logloss"]) /\
    era_columns ["sharpe"; "auc"; "consis"] = ["auc"; "logloss"] /\
    era_columns ["consis"; "logloss"; "acc"] = ["logloss"; "acc"].
Proof.
  intros cols. unfold era_columns.
  set (kept := filter (fun c => negb (mem c ["sharpe"; "consis"])) cols).
  assert (Hkept : forall c, In c kept <-> In c cols /\ c <> "sharpe" /\ c <> "consis").
  { intros c. unfold kept. rewrite filter_In, not_derived. tauto. }
  assert (Hreq : mem "sharpe" cols || mem "consis" cols = true
                 <-> In "sharpe" cols \/ In "consis" cols).
  { rewrite orb_true_iff, !mem_In. tauto. }
  split; [| split; [| split; [| split; [| split; [| split]]]]];
    [| | | | | reflexivity | reflexivity].
  - intros c.
    destruct (mem "sharpe" cols || mem "consis" cols).
    + assert (Hd : In "sharpe" cols \/ In "consis" cols) by (apply Hreq; reflexivity).
      destruct (mem "logloss" kept) eqn:El; cbn [negb].
      * rewrite Hkept. split; [tauto |]. intros [Hc | [-> _]]; [exact Hc |].
        apply Hkept. apply mem_In. exact El.
      * rewrite in_app_iff, Hkept. cbn [In].
        split.
        -- intros [Hc | [<- | []]]; [left; exact Hc | right; split; [reflexivity | exact Hd]].
        -- intros [Hc | [-> _]]; [left; exact Hc | right; left; reflexivity].
    + rewrite Hkept. split; [tauto |]. intros [Hc | [_ Hd]]; [exact Hc |].
      apply Hreq in Hd. discriminate.
  - intros Hnd.
    assert (Hk : NoDup kept) by (apply NoDup_filter; exact Hnd).
    destruct (mem "sharpe" cols || mem "consis" cols); [| exact Hk].
    destruct (mem "logloss" kept) eqn:El; cbn [negb]; [exact Hk |].
    apply NoDup_app; [exact Hk | repeat constructor; simpl; tauto |].
    intros c Hc [<- | []]. apply mem_In in Hc. congruence.
  - intros Hs Hc.
    destruct (mem "sharpe" cols || mem "consis" cols).
    + assert (Hd : In "sharpe" cols \/ In "consis" cols) by (apply Hreq; reflexivity). tauto.
    + apply filter_all. intros c Hin. apply not_derived. split; intros ->; contradiction.
  - intros Hl.
    assert (El : mem "logloss" kept = true).
    { apply mem_In. apply Hkept. repeat split; [exact Hl | discriminate | discriminate]. }
    rewrite El. cbn [negb]. destruct (mem "sharpe" cols || mem "consis" cols); reflexivity.
  - intros Hd Hl. apply Hreq in Hd. rewrite Hd.
    assert (El : mem "logloss" kept = false).
    { destruct (mem "logloss" kept) eqn:El; [| reflexivity].
      apply mem_In, Hkept in El. tauto. }
    rewrite El. reflexivity.
Qed.

(** ** Groups with a missing prediction *)

Section MissingPredictions.
Context {F : Type} `{Float64Laws F}.
Variable cross_entropy : list F -> list F -> F.
Variable area_under_curve : list F -> list F -> F.

Lemma sk_log_loss_nan (y yhat : list F) :
  existsb isnan yhat = true -> is_value_error (sk_log_loss cross_entropy y yhat) = true.
Proof.
  intros E. unfold sk_log_loss. rewrite E, orb_true_r.
  destruct (negb (consistent y yhat)); reflexivity.
Qed.

Lemma sk_roc_auc_nan (y yhat : list F) :
  existsb isnan yhat = true -> is_value_error (sk_roc_auc_score area_under_curve y yhat) = true.
Proof.
  intros E. unfold sk_roc_auc_score. rewrite E, orb_true_r.
  destruct (negb (consistent y yhat)); reflexivity.
Qed.

Lemma calc_metrics_nan (y yhat : list F) :
  existsb isnan yhat = true ->
  calc_metrics_arrays (sk := sklearn_documented cross_entropy area_under_curve)
                      y yhat ["logloss"; "logloss_pass"; "auc"]
  = Ok [PFloat nan; PFloat nan; PFloat nan].
Proof.
  intros E. cbn [calc_metrics_arrays]. unfold calc_metric.
  cbn [String.eqb Ascii.eqb Bool.eqb]. cbn [log_loss roc_auc_score sklearn_documented].
  rewrite !value_error_nan by (apply sk_log_loss_nan || apply sk_roc_auc_nan; exact E).
  reflexivity.
Qed.

Lemma threshold_nan (q : F) (yhat : list F) :
  fgeb q (decimal 5 1) = false ->
  threshold (map (fun p => if isnan p then q else p) yhat) = threshold yhat.
Proof.
  intros Hq. unfold threshold. rewrite map_map. apply map_ext. intros p.
  destruct (isnan p) eqn:Ep; [| reflexivity].
  rewrite Hq. unfold fgeb. rewrite (fleb_nan_r _ _ Ep). reflexivity.
Qed.
End MissingPredictions.

(** X7: a group in which some prediction is NaN gets NaN as [logloss],
    [logloss_pass] and [auc]: sklearn, as documented, rejects the arrays and
    the ValueError is absorbed.  [acc] is computed all the same: NaN compares
    false with 0.5, so the thresholding counts a missing prediction as class
    0, as it counts any prediction below 0.5. *)
Theorem X7_missing_prediction :
  forall (F : Type) (Fl : Float64 F) (L : Float64Laws F)
         (cross_entropy area_under_curve : list F -> list F -> F)
         (y yhat : list F),
    existsb isnan yhat = true ->
    calc_metrics_arrays (sk := sklearn_documented cross_entropy area_under_curve)
                        y yhat ["logloss"; "logloss_pass"; "auc"]
    = Ok [PFloat nan; PFloat nan; PFloat nan] /\
    forall (sk : Sklearn F) (q : F),
      fgeb q (decimal 5 1) = false ->
      calc_metric y (map (fun p => if isnan p then q else p) yhat) "acc"
      = calc_metric y yhat "acc".
Proof.
  intros F Fl L ce au y yhat E. split.
  - apply calc_metrics_nan. exact E.
  - intros sk q Hq. unfold calc_metric. cbn [String.eqb Ascii.eqb Bool.eqb].
    rewrite threshold_nan by exact Hq. reflexivity.
Qed.

(** A run of X7: the first of two predictions is missing. *)
Lemma X7_missing_prediction_witness :
  calc_metrics_arrays (sk := sklearn_documented (Example.recorded Example.log_losses)
                                                (Example.recorded Example.areas))
                      [0; 1]%float [PrimFloat.nan; 0.7]%float ["logloss"; "logloss_pass"; "auc"]
  = Ok [PFloat nan; PFloat nan; PFloat nan] /\
  forall (sk : Sklearn float) (q : float),
    fgeb q (decimal 5 1) = false ->
    calc_metric [0; 1]%float
                (map (fun p => if isnan p then q else p) [PrimFloat.nan; 0.7]%float) "acc"
    = calc_metric [0; 1]%float [PrimFloat.nan; 0.7]%float "acc".
Proof.
  apply (@X7_missing_prediction float _ Float64Laws_prim
           (Example.recorded Example.log_losses) (Example.recorded Example.areas)
           [0; 1]%float [PrimFloat.nan; 0.7]%float).
  vm_compute. reflexivity.
Defined.

Lemma mapM_ext_ok (A B : Type) (f : A -> res B) (g : A -> B) (xs : list A) :
  (forall x, In x xs -> f x = Ok (g x)) -> mapM f xs = Ok (map g xs).
Proof.
  induction xs as [| x xs IH]; simpl; intros Hf; auto.
  rewrite (Hf x (or_introl eq_refl)). cbn [bind].
  rewrite IH by (intros; apply Hf; auto). reflexivity.
Qed.

Section UncoveredEra.
Context {F : Type} `{Float64Laws F}.
Variable cross_entropy : list F -> list F -> F.
Variable area_under_curve : list F -> list F -> F.
Variable tournament_str : label -> string.
Variable ERA_INT_TO_STR : F -> option string.

Lemma group_has_nan (df : list (Joined F)) (r0 : Joined F) (w i : nat) :
  In r0 df -> j_yhat r0 = repeat nan w -> isnan (j_era r0) = false ->
  existsb isnan (map (fun r => nth i (j_yhat r) nan)
                     (filter (fun r => isin (j_era r) (j_era r0)) df)) = true.
Proof.
  intros Hin Hy Hnan. apply existsb_exists. exists nan. split; [| apply nan_isnan].
  apply in_map_iff. exists r0. split.
  - rewrite Hy. apply nth_repeat.
  - apply filter_In. split; [exact Hin | apply isin_refl; exact Hnan].
Qed.

Lemma calc_metrics_empty :
  calc_metrics_arrays (sk := sklearn_documented cross_entropy area_under_curve)
                      [] [] ["logloss"; "logloss_pass"; "auc"]
  = Ok [PFloat nan; PFloat nan; PFloat nan].
Proof. reflexivity. Qed.
End UncoveredEra.

(** X8: under [join='data'], an era that holds a data row without a fully
    observed prediction row (no row for its key, or a row [dropna] took out)
    gets NaN as [logloss], [logloss_pass] and [auc] for every pair, sklearn
    being as documented: the joined row carries NaN predictions for all
    pairs. *)
Theorem X8_uncovered_era :
  forall (F : Type) (Fl : Float64 F) (L : Float64Laws F)
         (cross_entropy area_under_curve : list F -> list F -> F)
         (tournament_str : label -> string) (ERA_INT_TO_STR : F -> option string)
         (data : list (DataRow F)) (prediction : Prediction F)
         (tournament : option label) (era_as_str : bool) (d : DataRow F),
    In d data ->
    find_yhat (d_index d) (dropna (p_rows prediction)) = None ->
    (era_as_str = true -> ERA_INT_TO_STR (d_era d) <> None) ->
    era_metrics (sk := sklearn_documented cross_entropy area_under_curve)
                tournament_str ERA_INT_TO_STR (joined_frame how_left data prediction)
                (p_pairs prediction) tournament ["logloss"; "logloss_pass"; "auc"]
                era_as_str (d_era d)
    = Ok (map (fun p => [era_cell ERA_INT_TO_STR era_as_str (d_era d); PPair p;
                         PFloat nan; PFloat nan; PFloat nan])
              (p_pairs prediction)).
Proof.
  intros F Fl L ce au ts ERA data prediction tournament eas d Hin Hf He.
  unfold era_metrics.
  assert (Hera : (if eas then lookup ERA (d_era d) else Ok (PFloat (d_era d)))
                 = Ok (era_cell ERA eas (d_era d))).
  { unfold era_cell, lookup. destruct eas; [| reflexivity].
    destruct (ERA (d_era d)); [reflexivity |]. exfalso. apply He; reflexivity. }
  rewrite Hera. cbn [bind].
  rewrite <- (enumerate_snd (p_pairs prediction)) at 2. rewrite map_map.
  apply mapM_ext_ok. intros ip _. unfold pair_metrics.
  destruct (isnan (d_era d)) eqn:Hnan.
  - rewrite nan_era_group by exact Hnan. cbn [map].
    rewrite calc_metrics_empty. reflexivity.
  - rewrite calc_metrics_nan; [reflexivity |].
    apply (group_has_nan (joined_frame how_left data prediction)
                         (joined d (repeat nan (List.length (p_pairs prediction))))
                         (List.length (p_pairs prediction)) (fst ip)).
    + apply left_join_unmatched; assumption.
    + reflexivity.
    + exact Hnan.
Qed.

(** A run of X8: row "e" of the second era has no fully observed
    prediction row. *)
Lemma X8_uncovered_era_witness :
  era_metrics (sk := sklearn_documented (Example.recorded Example.log_losses)
                                        (Example.recorded Example.areas))
              Example.tournament_str Example.ERA_INT_TO_STR
              (joined_frame how_left Example.data Example.prediction)
              (p_pairs Example.prediction) None ["logloss"; "logloss_pass"; "auc"]
              false (d_era (Example.row "e" 2 3 1))
  = Ok (map (fun p => [era_cell Example.ERA_INT_TO_STR false (d_era (Example.row "e" 2 3 1));
                       PPair p; PFloat nan; PFloat nan; PFloat nan])
            (p_pairs Example.prediction)).
Proof.
  apply (@X8_uncovered_era float _ Float64Laws_prim
           (Example.recorded Example.log_losses) (Example.recorded Example.areas)
           Example.tournament_str Example.ERA_INT_TO_STR
           Example.data Example.prediction None false (Example.row "e" 2 3 1)).
  - simpl. auto 10.
  - vm_compute. reflexivity.
  - discriminate.
Defined.

(** ** The era groups *)

Lemma SFcompare_eq_sym x y : SFcompare x y = Some Eq -> SFcompare y x = Some Eq.
Proof.
  destruct x as [s | s | | s m e], y as [t | t | | t n f]; simpl; try discriminate; auto;
    try destruct s; try destruct t; simpl; try discriminate; auto.
  all: compare_cases; intros; try discriminate; try reflexivity; exfalso; lia.
Qed.

Lemma SFcompare_eq_trans x y z :
  SFcompare x y = Some Eq -> SFcompare y z = Some Eq -> SFcompare x z = Some Eq.
Proof.
  destruct x as [s | s | | s m e], y as [t | t | | t n f], z as [u | u | | u p g]; simpl;
    try discriminate; auto;
    try destruct s; try destruct t; try destruct u; simpl; try discriminate; auto.
  all: compare_cases; intros; try discriminate; try reflexivity; exfalso; lia.
Qed.

Lemma SFeqb_true x y : SFeqb x y = true <-> SFcompare x y = Some Eq.
Proof.
  unfold SFeqb. destruct (SFcompare x y) as [[| |] |]; split; intros; auto; discriminate.
Qed.

#[export] Instance Float64KeyLaws_prim : Float64KeyLaws float.
Proof.
  split; simpl.
  - intros x y. rewrite !FloatAxioms.eqb_spec.
    destruct (SFeqb (Prim2SF x) (Prim2SF y)) eqn:E1, (SFeqb (Prim2SF y) (Prim2SF x)) eqn:E2;
      auto.
    + apply SFeqb_true, SFcompare_eq_sym, SFeqb_true in E1. congruence.
    + apply SFeqb_true, SFcompare_eq_sym, SFeqb_true in E2. congruence.
  - intros x y z. rewrite !FloatAxioms.eqb_spec, !SFeqb_true. apply SFcompare_eq_trans.
  - intros x y. unfold isnan; simpl. rewrite !FloatAxioms.eqb_spec, !SFeqb_true.
    intros E. rewrite (proj2 (SFeqb_true _ _)); [reflexivity |].
    eapply SFcompare_eq_trans; [exact E | apply SFcompare_eq_sym; exact E].
Qed.

#[export] Instance Float64KeyLaws_exact : Float64KeyLaws xreal.
Proof.
  split.
  - intros [| s | a] [| t | b]; simpl; auto.
    + destruct s, t; reflexivity.
    + destruct (Reqb a b) eqn:E1, (Reqb b a) eqn:E2; auto.
      * apply Reqb_true in E1. apply Reqb_false in E2. congruence.
      * apply Reqb_false in E1. apply Reqb_true in E2. congruence.
  - intros [| s | a] [| t | b] [| u | c]; simpl; try discriminate; auto.
    + destruct s, t, u; simpl; auto.
    + rewrite !Reqb_true. congruence.
  - intros [| s | a] y; simpl.
    + discriminate.
    + intros _. destruct s; reflexivity.
    + intros _. unfold isnan; simpl. rewrite Reqb_refl. reflexivity.
Qed.

Section KeyEquivalence.
Context {F : Type} `{Float64KeyLaws F}.

Lemma same_key_sym (a b : F) : same_key a b = same_key b a.
Proof. unfold same_key. rewrite (feqb_sym a b), (andb_comm (isnan a)). reflexivity. Qed.

Lemma same_key_trans (a b c : F) :
  same_key a b = true -> same_key b c = true -> same_key a c = true.
Proof.
  unfold same_key. intros Hab Hbc.
  apply orb_true_iff in Hab. apply orb_true_iff in Hbc. apply orb_true_iff.
  destruct Hab as [Hab | Hab], Hbc as [Hbc | Hbc].
  - left. eapply feqb_trans; eauto.
  - apply andb_true_iff in Hbc. destruct Hbc as [Hb _].
    rewrite feqb_sym in Hab. apply feqb_notnan in Hab. congruence.
  - apply andb_true_iff in Hab. destruct Hab as [_ Hb].
    apply feqb_notnan in Hbc. congruence.
  - apply andb_true_iff in Hab. apply andb_true_iff in Hbc.
    destruct Hab as [Ha _], Hbc as [_ Hc]. right. rewrite Ha, Hc. reflexivity.
Qed.
End KeyEquivalence.

Section Groups.
Variables A K : Type.
Variable same : K -> K -> bool.
Variable key : A -> K.
Hypothesis same_refl : forall a, same a a = true.
Hypothesis same_sym : forall a b, same a b = same b a.
Hypothesis same_trans : forall a b c, same a b = true -> same b c = true -> same a c = true.

(** A key of [unique]'s result is the same as none that came before it. *)
Lemma unique_from_seen (ks seen : list K) (u : K) :
  In u (unique_from same seen ks) -> existsb (same u) seen = false.
Proof.
  revert seen. induction ks as [| k ks IH]; simpl; intros seen Hin; [contradiction |].
  destruct (existsb (same k) seen) eqn:E.
  - apply IH. exact Hin.
  - destruct Hin as [<- | Hin]; [exact E |].
    apply IH in Hin. simpl in Hin. apply orb_false_iff in Hin. tauto.
Qed.

Lemma unique_from_distinct (ks seen : list K) :
  ForallOrdPairs (fun u v => same v u = false) (unique_from same seen ks).
Proof.
  revert seen. induction ks as [| k ks IH]; simpl; intros seen; [constructor |].
  destruct (existsb (same k) seen) eqn:E; [apply IH |].
  constructor; [| apply IH].
  apply Forall_forall. intros v Hv. apply unique_from_seen in Hv.
  simpl in Hv. apply orb_false_iff in Hv. tauto.
Qed.

Lemma unique_from_covers (ks seen : list K) (k : K) :
  In k ks ->
  existsb (same k) seen = true \/ exists u, In u (unique_from same seen ks) /\ same k u = true.
Proof.
  revert seen. induction ks as [| k0 ks IH]; simpl; intros seen Hin; [contradiction |].
  destruct Hin as [-> | Hin].
  - destruct (existsb (same k) seen) eqn:E; [left; reflexivity |].
    right. exists k. split; [left; reflexivity | apply same_refl].
  - destruct (existsb (same k0) seen) eqn:E.
    + apply IH. exact Hin.
    + destruct (IH (k0 :: seen) Hin) as [Hs | (u & Hu & Hku)].
      * simpl in Hs. apply orb_true_iff in Hs. destruct Hs as [Hs | Hs]; [| left; exact Hs].
        right. exists k0. split; [left; reflexivity | exact Hs].
      * right. exists u. split; [right; exact Hu | exact Hku].
Qed.

Lemma groups_skip (us : list K) (x : A) (xs : list A) :
  (forall u, In u us -> same (key x) u = false) ->
  flat_map (fun u => filter (fun y => same (key y) u) (x :: xs)) us
  = flat_map (fun u => filter (fun y => same (key y) u) xs) us.
Proof.
  induction us as [| u us IH]; simpl; intros Hu; auto.
  rewrite (Hu u (or_introl eq_refl)). f_equal. apply IH. intros; apply Hu; auto.
Qed.

Lemma groups_partition (us : list K) (xs : list A) :
  ForallOrdPairs (fun u v => same v u = false) us ->
  (forall x, In x xs -> exists u, In u us /\ same (key x) u = true) ->
  Permutation (flat_map (fun u => filter (fun y => same (key y) u) xs) us) xs.
Proof.
  intros Hd. induction xs as [| x xs IH]; intros Hc.
  - clear. induction us as [| u us IH]; simpl; auto.
  - destruct (Hc x (or_introl eq_refl)) as (u & Hu & Hxu).
    apply in_split in Hu. destruct Hu as (us1 & us2 & ->).
    assert (Hother : forall v, In v (us1 ++ us2) -> same (key x) v = false).
    { intros v Hv. destruct (same (key x) v) eqn:E; [| reflexivity]. exfalso.
      assert (Huv : same u v = true).
      { apply same_trans with (key x); [rewrite same_sym; exact Hxu | exact E]. }
      assert (Hvu : same v u = true) by (rewrite same_sym; exact Huv).
      clear - Hd Hv Huv Hvu. induction us1 as [| w us1 IH]; simpl in *.
      - inversion Hd as [| ? ? Hf _]; subst. rewrite Forall_forall in Hf.
        specialize (Hf v Hv). congruence.
      - inversion Hd as [| ? ? Hf Hd']; subst. destruct Hv as [<- | Hv].
        + rewrite Forall_forall in Hf.
          assert (Hin : In u (us1 ++ u :: us2)) by (apply in_or_app; right; left; reflexivity).
          specialize (Hf u Hin). congruence.
        + apply IH; assumption. }
    rewrite flat_map_app. cbn [flat_map]. rewrite !groups_skip.
    + cbn [filter]. rewrite Hxu. cbn [app].
      apply Permutation_trans
        with (x :: (flat_map (fun u0 => filter (fun y => same (key y) u0) xs) us1
                    ++ filter (fun y => same (key y) u) xs
                    ++ flat_map (fun u0 => filter (fun y => same (key y) u0) xs) us2)).
      * apply Permutation_sym, Permutation_middle.
      * constructor.
        specialize (IH (fun y Hy => Hc y (or_intror Hy))).
        rewrite flat_map_app in IH. exact IH.
    + intros v Hv. apply Hother. apply in_or_app. right. exact Hv.
    + intros v Hv. apply Hother. apply in_or_app. left. exact Hv.
Qed.

Lemma unique_groups (xs : list A) :
  Permutation
    (flat_map (fun u => filter (fun y => same (key y) u) xs) (unique same (map key xs))) xs.
Proof.
  apply groups_partition.
  - apply unique_from_distinct.
  - intros x Hx.
    destruct (@unique_from_covers (map key xs) [] (key x)) as [Hs | Hu].
    + apply in_map. exact Hx.
    + discriminate.
    + exact Hu.
Qed.
End Groups.

Section EraGroups.
Context {F : Type} `{Float64KeyLaws F}.

Lemma isin_same_key (x e : F) : isin x e = negb (isnan x) && same_key x e.
Proof.
  unfold isin, same_key. destruct (feqb x e) eqn:E.
  - rewrite (feqb_notnan _ _ E). rewrite feqb_sym in E. rewrite (feqb_notnan _ _ E).
    reflexivity.
  - rewrite andb_false_r. destruct (isnan x); reflexivity.
Qed.

Lemma filter_andb (A : Type) (f g : A -> bool) (xs : list A) :
  filter (fun x => f x && g x) xs = filter g (filter f xs).
Proof.
  induction xs as [| x xs IH]; simpl; auto.
  destruct (f x); simpl; [destruct (g x) |]; rewrite IH; reflexivity.
Qed.

Lemma era_group_numbers (df : list (Joined F)) (e : F) :
  era_group df e
  = filter (fun r => same_key (j_era r) e) (filter (fun r => negb (isnan (j_era r))) df).
Proof.
  unfold era_group. rewrite <- filter_andb. apply filter_ext. intros r. apply isin_same_key.
Qed.
End EraGroups.

(** X10: the loop over the eras scores every joined row whose era is a
    number in exactly one era group: the groups of the eras, taken in the
    order of the loop, are a rearrangement of these rows, and the group of an
    era that is a number is not empty.  The group of a NaN era is empty: a row
    whose era is NaN is in no group.  No era comes twice. *)
Theorem X10_era_groups :
  forall (F : Type) (Fl : Float64 F) (K : Float64KeyLaws F) (df : list (Joined F)),
    Permutation (flat_map (era_group df) (eras_of df))
                (filter (fun r => negb (isnan (j_era r))) df) /\
    (forall e, In e (eras_of df) -> isnan e = false -> era_group df e <> []) /\
    (forall e, isnan e = true -> era_group df e = []) /\
    ForallOrdPairs (fun e1 e2 => same_key e1 e2 = false) (eras_of df).
Proof.
  intros F Fl K df. split; [| split; [| split]].
  - rewrite (flat_map_ext _ _ (era_group_numbers df)).
    apply (groups_partition same_key (@j_era F)).
    + apply same_key_sym.
    + apply same_key_trans.
    + apply unique_from_distinct.
    + intros r Hr. apply filter_In in Hr. destruct Hr as [Hr _].
      destruct (@unique_from_covers F same_key same_key_refl (map (@j_era F) df) []
                                    (j_era r)) as [Hs | Hu].
      * apply in_map. exact Hr.
      * discriminate.
      * exact Hu.
  - intros e He Hnan Hnil. apply unique_from_In in He. apply in_map_iff in He.
    destruct He as (r & <- & Hr).
    assert (Hin : In r (era_group df (j_era r))).
    { apply filter_In. split; [exact Hr | apply isin_refl; exact Hnan]. }
    rewrite Hnil in Hin. contradiction.
  - intros e He. apply nan_era_group. exact He.
  - unfold eras_of, unique.
    generalize (unique_from_distinct same_key (map (@j_era F) df) []).
    generalize (unique_from same_key [] (map (@j_era F) df)). intros us Hd.
    induction Hd as [| u us Hu Hd IH]; constructor; auto.
    rewrite Forall_forall in *. intros v Hv. rewrite same_key_sym. apply Hu. exact Hv.
Qed.

(** A run of X10: the join on the predictions of a frame with a row, "z",
    that the data does not have: its era is NaN, the loop has the eras 1 and
    NaN, and the second group is empty. *)
Lemma X10_era_groups_witness :
  (Permutation (flat_map (era_group (joined_frame how_right Example.data Runs.stray))
                         (eras_of (joined_frame how_right Example.data Runs.stray)))
               (filter (fun r => negb (isnan (j_era r)))
                       (joined_frame how_right Example.data Runs.stray)) /\
   (forall e, In e (eras_of (joined_frame how_right Example.data Runs.stray)) ->
              isnan e = false ->
              era_group (joined_frame how_right Example.data Runs.stray) e <> []) /\
   (forall e, isnan e = true ->
              era_group (joined_frame how_right Example.data Runs.stray) e = []) /\
   ForallOrdPairs (fun e1 e2 => same_key e1 e2 = false)
                  (eras_of (joined_frame how_right Example.data Runs.stray))) /\
  map (@j_index float) (joined_frame how_right Example.data Runs.stray) = ["a"; "z"] /\
  eras_of (joined_frame how_right Example.data Runs.stray) = [1%float; nan] /\
  map (fun e => map (@j_index float)
                    (era_group (joined_frame how_right Example.data Runs.stray) e))
      (eras_of (joined_frame how_right Example.data Runs.stray))
  = [["a"]; []] /\
  map (fun e => map (@j_index float)
                    (era_group (joined_frame how_left Example.data Example.prediction) e))
      (eras_of (joined_frame how_left Example.data Example.prediction))
  = [["a"; "b"]; ["c"; "d"; "e"]].
Proof.
  split; [| split; [| split; [| split]]].
  - apply (@X10_era_groups float _ Float64KeyLaws_prim
             (joined_frame how_right Example.data Runs.stray)).
  - vm_compute. reflexivity.
  - vm_compute. reflexivity.
  - vm_compute. reflexivity.
  - vm_compute. reflexivity.
Defined.

(** ** The summary frame *)

Lemma label_eqb_eq (a b : label) : label_eqb a b = true <-> a = b.
Proof.
  destruct a as [s | s], b as [t | t]; simpl.
  - rewrite Z.eqb_eq. split; congruence.
  - split; discriminate.
  - split; discriminate.
  - rewrite String.eqb_eq. split; congruence.
Qed.

Lemma pair_eqb_eq (p q : pair) : pair_eqb p q = true <-> p = q.
Proof.
  destruct p as [n t], q as [m u]. unfold pair_eqb. cbn [fst snd].
  rewrite andb_true_iff, String.eqb_eq, label_eqb_eq. split.
  - intros [-> ->]. reflexivity.
  - intros [= -> ->]. auto.
Qed.

Lemma unique_pairs_NoDup (ps : list pair) : NoDup (unique pair_eqb ps).
Proof.
  unfold unique. generalize (unique_from_distinct pair_eqb ps []).
  generalize (unique_from pair_eqb [] ps). intros us Hd.
  induction Hd as [| u us Hu Hd IH]; constructor; auto.
  intros Hin. rewrite Forall_forall in Hu. specialize (Hu u Hin).
  assert (Ht : pair_eqb u u = true) by (apply pair_eqb_eq; reflexivity). congruence.
Qed.

Lemma unique_pairs_In (ps : list pair) (p : pair) : In p (unique pair_eqb ps) <-> In p ps.
Proof.
  split.
  - apply unique_from_In.
  - intros Hin.
    destruct (@unique_from_covers pair pair_eqb
                (fun a => proj2 (pair_eqb_eq a a) eq_refl) ps [] p Hin) as [Hs | (u & Hu & E)].
    + discriminate.
    + apply pair_eqb_eq in E. subst. exact Hu.
Qed.

Section SummaryFrame.
Context {F : Type} `{Float64 F} {sk : Sklearn F}.
Variable tournament_str : label -> string.
Variable ERA_INT_TO_STR : F -> option string.
Variable REGION_INT_TO_STR : F -> option string.

Lemma metrics_per_name_inv (data : list (DataRow F)) (prediction : Prediction F)
      (tournament : option label) (join : string) (cols : list string)
      (era_as_str region_as_str split_pairs : bool)
      (metrics : DataFrame F) (info : list (pyobj F) * list (pyobj F)) :
  metrics_per_name tournament_str ERA_INT_TO_STR REGION_INT_TO_STR data prediction
                   tournament join cols era_as_str region_as_str split_pairs
  = Ok (metrics, info) ->
  exists mpe regions era pv mm series,
    metrics_per_era tournament_str ERA_INT_TO_STR REGION_INT_TO_STR data prediction
                    tournament join (era_columns cols) false false true
    = Ok (mpe, regions) /\
    column "era" mpe = Ok era /\
    (if era_as_str then mapM (lookup ERA_INT_TO_STR) (unique same_key (map to_float era))
     else Ok (map PFloat (unique same_key (map to_float era)))) = Ok (fst info) /\
    (if region_as_str then mapM (lookup REGION_INT_TO_STR) (map to_float regions)
     else Ok regions) = Ok (snd info) /\
    (if mem "logloss" (era_columns cols) then do pv <- pivot mpe; Ok (Some pv) else Ok None)
    = Ok pv /\
    groupby_pair_mean mpe "era" = Ok mm /\
    mapM (name_metric mpe pv) cols = Ok series /\
    (if split_pairs
     then add_split_pairs tournament_str
            {| index := map (fun pm => PPair (fst pm)) mm; columns := series |} true
     else Ok {| index := map (fun pm => PPair (fst pm)) mm; columns := series |}) = Ok metrics.
Proof.
  unfold metrics_per_name. intros E.
  bind_as E mr Empe. destruct mr as [mpe regions]. cbn [fst snd] in E.
  bind_as E era Eera. bind_as E info_era Einfo. bind_as E info_region Ereg.
  bind_as E pv Epv. bind_as E mm Emm. bind_as E series Eseries. bind_as E df Esplit.
  apply Ok_inj in E. injection E as <- <-.
  exists mpe, regions, era, pv, mm, series. cbn [fst snd]. repeat split; assumption.
Qed.

Lemma series_names (mpe : DataFrame F) (pv : option (list (pair * list F)))
      (cols : list string) (series : list (string * list (pyobj F))) :
  mapM (name_metric mpe pv) cols = Ok series -> map fst series = cols.
Proof.
  intros E. rewrite <- (map_id cols). eapply mapM_map; [| exact E].
  intros c r _ Hr. apply name_metric_name in Hr. exact Hr.
Qed.

Lemma groupby_pairs (mpe : DataFrame F) (c : string) (mm : list (pair * F)) (kp : list pair) :
  rectangular mpe -> groupby_pair_mean mpe c = Ok mm ->
  column "pair" mpe = Ok (map PPair kp) ->
  map fst mm = sort_by pair_leb (unique pair_eqb kp).
Proof.
  intros Hr Hg Hp. unfold groupby_pair_mean in Hg.
  bind_as Hg cells Hk. apply Ok_inj in Hg. subst mm.
  rewrite map_map. cbn [fst]. rewrite map_id. unfold pivot_pairs.
  destruct (keyed_pairs c Hr Hk) as (pr & pairs & Hpr & Hm & ->).
  rewrite Hp in Hpr. apply Ok_inj in Hpr. subst pr.
  rewrite mapM_as_pair in Hm. apply Ok_inj in Hm. subst pairs. reflexivity.
Qed.

Lemma pivot_pairs_of (mpe : DataFrame F) (pv : list (pair * list F)) (kp : list pair) :
  rectangular mpe -> pivot mpe = Ok pv ->
  column "pair" mpe = Ok (map PPair kp) ->
  map fst pv = sort_by pair_leb (unique pair_eqb kp).
Proof.
  intros Hr Hp Hc. destruct (pivot_columns mpe Hp) as (cells & Hk & ->).
  rewrite map_map. cbn [fst]. rewrite map_id. unfold pivot_pairs.
  destruct (keyed_pairs "logloss" Hr Hk) as (pr & pairs & Hpr & Hm & ->).
  rewrite Hc in Hpr. apply Ok_inj in Hpr. subst pr.
  rewrite mapM_as_pair in Hm. apply Ok_inj in Hm. subst pairs. reflexivity.
Qed.

Lemma name_metric_length (mpe : DataFrame F) (pv : option (list (pair * list F)))
      (kp : list pair) (c : string) (r : string * list (pyobj F)) :
  rectangular mpe ->
  column "pair" mpe = Ok (map PPair kp) ->
  (forall pv', pv = Some pv' -> pivot mpe = Ok pv') ->
  name_metric mpe pv c = Ok r ->
  List.length (snd r) = List.length (sort_by pair_leb (unique pair_eqb kp)).
Proof.
  intros Hr Hp Hpv E. unfold name_metric in E.
  bind_as E m Em. apply Ok_inj in E. subst r. cbn [snd].
  assert (Hd : forall stat, derived stat pv = Ok m ->
                            List.length m = List.length (sort_by pair_leb (unique pair_eqb kp))).
  { intros stat Hs. unfold derived in Hs. destruct pv as [pv' |]; [| discriminate].
    apply Ok_inj in Hs. subst m. rewrite length_map.
    rewrite <- (@pivot_pairs_of mpe pv' kp Hr (Hpv pv' eq_refl) Hp). rewrite length_map. reflexivity. }
  assert (Ha : forall col, averaged mpe col = Ok m ->
                           List.length m = List.length (sort_by pair_leb (unique pair_eqb kp))).
  { intros col Hs. unfold averaged in Hs. bind_as Hs mm Emm. apply Ok_inj in Hs. subst m.
    rewrite length_map. rewrite <- (@groupby_pairs mpe col mm kp Hr Emm Hp). rewrite length_map.
    reflexivity. }
  destruct (c =? "consis"); [eapply Hd; exact Em |].
  destruct (c =? "sharpe"); [eapply Hd; exact Em |].
  destruct (c =? "logloss"); [eapply Ha; exact Em |].
  destruct (c =? "auc"); [eapply Ha; exact Em |].
  destruct (c =? "acc"); [eapply Ha; exact Em |].
  destruct (c =? "ystd"); [eapply Ha; exact Em |].
  discriminate.
Qed.
End SummaryFrame.

Section SummaryFrameMore.
Context {F : Type} `{Float64 F} {sk : Sklearn F}.
Variable tournament_str : label -> string.
Variable ERA_INT_TO_STR : F -> option string.
Variable REGION_INT_TO_STR : F -> option string.

(** The pair column of the frame a per-era call with [split_pairs] returns. *)
Lemma per_era_split_pairs (data : list (DataRow F)) (prediction : Prediction F)
      (tournament : option label) (join : string) (cols : list string)
      (era_as_str region_as_str : bool)
      (mpe : DataFrame F) (regions : list (pyobj F)) :
  metrics_per_era tournament_str ERA_INT_TO_STR REGION_INT_TO_STR data prediction
                  tournament join cols era_as_str region_as_str true
  = Ok (mpe, regions) ->
  exists h,
    join_how join = Ok h /\
    eras_of (joined_frame h data prediction) <> [] /\
    column "pair" mpe
    = Ok (map PPair (map snd (row_keys (joined_frame h data prediction) (p_pairs prediction)))).
Proof.
  intros E.
  destruct (metrics_per_era_inv _ _ _ _ _ _ _ _ _ _ _ E) as (h & rowss & Hj & _ & Hrows & Hsp).
  exists h. split; [exact Hj |].
  apply eras_rows in Hrows. destruct Hrows as [_ H1].
  assert (Hc : pair_cells (frame_of_rows ("era" :: "pair" :: cols) (List.concat rowss))
               = Ok (map PPair (map snd (row_keys (joined_frame h data prediction)
                                                  (p_pairs prediction))))).
  { unfold pair_cells.
    change (has_column "pair" (frame_of_rows ("era" :: "pair" :: cols) (List.concat rowss)))
      with true.
    cbn iota. rewrite frame_of_rows_pair, H1, map_map. reflexivity. }
  eapply add_split_pairs_of_pairs in Hsp; [| exact Hc]. destruct Hsp as [Hne ->].
  split.
  - intros He. apply Hne. unfold row_keys. rewrite He. reflexivity.
  - transitivity (column "pair" (frame_of_rows ("era" :: "pair" :: cols) (List.concat rowss))).
    + apply column_after_split; discriminate.
    + rewrite frame_of_rows_pair, H1, map_map. reflexivity.
Qed.

Lemma row_keys_pairs (df : list (Joined F)) (pairs : list pair) (p : pair) :
  eras_of df <> [] -> (In p (map snd (row_keys df pairs)) <-> In p pairs).
Proof.
  unfold row_keys. intros He. rewrite in_map_iff. split.
  - intros ([e q] & <- & Hin). apply in_flat_map in Hin. destruct Hin as (e' & _ & Hin).
    apply in_map_iff in Hin. destruct Hin as (q' & [= _ <-] & Hq). exact Hq.
  - intros Hin. destruct (eras_of df) as [| e0 eras]; [contradiction |].
    exists (e0, p). split; [reflexivity |]. apply in_flat_map. exists e0.
    split; [left; reflexivity |]. apply in_map. exact Hin.
Qed.
End SummaryFrameMore.

(** X9: the summary frame of [metrics_per_name] has, left to right, [name]
    and [tournament] when [split_pairs] is set, then exactly the requested
    columns in the order they were asked for, each of them one of the six
    summary statistics; it has one row per pair of the prediction, no pair
    twice, and every column is as long as the index. *)
Theorem X9_per_name_frame :
  forall (F : Type) (Fl : Float64 F) (sk : Sklearn F) (tournament_str : label -> string)
         (ERA_INT_TO_STR REGION_INT_TO_STR : F -> option string)
         (data : list (DataRow F)) (prediction : Prediction F)
         (tournament : option label) (join : string) (cols : list string)
         (era_as_str region_as_str split_pairs : bool)
         (metrics : DataFrame F) (info : list (pyobj F) * list (pyobj F)),
    metrics_per_name tournament_str ERA_INT_TO_STR REGION_INT_TO_STR data prediction
                     tournament join cols era_as_str region_as_str split_pairs
    = Ok (metrics, info) ->
    column_names metrics = split_names split_pairs ++ cols /\
    (forall c, In c cols -> known_summary c = true) /\
    rectangular metrics /\
    exists ps : list pair,
      index metrics = map PPair ps /\
      NoDup ps /\
      (forall p, In p ps <-> In p (p_pairs prediction)).
Proof.
  intros F Fl sk ts ERA REGION data prediction tournament join cols eas ras sp metrics info E.
  destruct (metrics_per_name_inv _ _ _ _ _ _ _ _ _ _ _ E)
    as (mpe & regions & era & pv & mm & series & Hmpe & _ & _ & _ & Hpv & Hmm & Hser & Hsp).
  pose proof (metrics_per_era_rectangular _ _ _ _ _ _ _ _ _ _ _ Hmpe) as Hrect.
  destruct (per_era_split_pairs _ _ _ _ _ _ _ _ _ _ Hmpe) as (h & Hj & Heras & Hpair).
  set (kp := map snd (row_keys (joined_frame h data prediction) (p_pairs prediction))) in *.
  pose proof (@groupby_pairs F Fl mpe "era" mm kp Hrect Hmm Hpair) as Hidx.
  assert (Hpivot : forall pv', pv = Some pv' -> pivot mpe = Ok pv').
  { intros pv' ->. destruct (mem "logloss" (era_columns cols)); [| discriminate].
    destruct (pivot mpe) as [pv0 |]; [| discriminate]. cbn [bind] in Hpv.
    apply Ok_inj in Hpv. congruence. }
  set (base := {| index := map (fun pm : pair * F => @PPair F (fst pm)) mm; columns := series |}).
  assert (Hbase : rectangular base).
  { intros col Hcol. cbn [index base columns] in *. rewrite length_map.
    rewrite <- (length_map fst mm), Hidx.
    destruct (In_nth_error _ _ Hcol) as [n Hn].
    assert (Hin : exists c, In c cols /\ name_metric mpe pv c = Ok col).
    { clear - Hser Hcol. revert series Hser Hcol.
      induction cols as [| c cs IH]; simpl; intros series Hser Hcol.
      - apply Ok_inj in Hser. subst. contradiction.
      - bind_as Hser r Er. bind_as Hser rs Ers. apply Ok_inj in Hser. subst series.
        destruct Hcol as [<- | Hcol].
        + exists c. split; [left; reflexivity | exact Er].
        + destruct (IH rs eq_refl Hcol) as (c' & Hc' & Hn'). exists c'. split; [right |]; auto. }
    destruct Hin as (c & _ & Hc).
    eapply name_metric_length; eauto. }
  split; [| split; [| split]].
  - destruct sp.
    + destruct (add_split_pairs_inv _ _ _ Hsp) as (nm & tn & Hc & _).
      unfold column_names. rewrite Hc. cbn [map fst split_names app columns].
      do 2 f_equal. eapply series_names. exact Hser.
    + apply Ok_inj in Hsp. subst metrics. unfold column_names. cbn [columns split_names app].
      eapply series_names. exact Hser.
  - intros c Hc.
    destruct (series_column mpe pv cols [] c Hser Hc) as (m & Hnm & _).
    destruct (known_summary c) eqn:Ek; [reflexivity |].
    rewrite (name_metric_unknown _ mpe pv c Ek) in Hnm. discriminate.
  - destruct sp.
    + eapply add_split_pairs_rectangular; [exact Hbase | exact Hsp].
    + apply Ok_inj in Hsp. subst metrics. exact Hbase.
  - exists (map fst mm). split; [| split].
    + assert (Hi : index metrics = index base).
      { destruct sp.
        - destruct (add_split_pairs_inv _ _ _ Hsp) as (nm & tn & _ & Hi). exact Hi.
        - apply Ok_inj in Hsp. subst metrics. reflexivity. }
      rewrite Hi. cbn [index base]. rewrite map_map. reflexivity.
    + rewrite Hidx. eapply Permutation_NoDup; [apply Permutation_sym, sort_by_perm |].
      apply unique_pairs_NoDup.
    + intros p. rewrite Hidx. rewrite <- (row_keys_pairs (joined_frame h data prediction) (p_pairs prediction) p Heras).
      fold kp. rewrite <- (unique_pairs_In kp p). split.
      * apply Permutation_in, sort_by_perm.
      * apply Permutation_in, Permutation_sym, sort_by_perm.
Qed.

(** A run of X9. *)
Lemma X9_per_name_frame_witness :
  metrics_per_name (sk := Runs.sklearn) Example.tournament_str
                   Example.ERA_INT_TO_STR Example.REGION_INT_TO_STR
                   Example.data Example.prediction None "yhat" ["logloss"; "consis"; "acc"]
                   true true true
  = Ok (Runs.summary, ([PStr "era1"; PStr "era2"], [PStr "validation"; PStr "test"])) /\
  column_names Runs.summary = split_names true ++ ["logloss"; "consis"; "acc"] /\
  (forall c, In c ["logloss"; "consis"; "acc"] -> known_summary c = true) /\
  rectangular Runs.summary /\
  exists ps : list pair,
    index Runs.summary = map PPair ps /\
    NoDup ps /\
    (forall p, In p ps <-> In p (p_pairs Example.prediction)).
Proof.
  split.
  - vm_compute. reflexivity.
  - apply (@X9_per_name_frame float _ Runs.sklearn Example.tournament_str
             Example.ERA_INT_TO_STR Example.REGION_INT_TO_STR
             Example.data Example.prediction None "yhat" ["logloss"; "consis"; "acc"]
             true true true Runs.summary
             ([PStr "era1"; PStr "era2"], [PStr "validation"; PStr "test"])).
    vm_compute. reflexivity.
Defined.

(** ** An empty group *)

Section EmptyGroup.
Context {F : Type} `{Float64 F} {sk : Sklearn F}.
Hypothesis sklearn_raises_ValueError :
  raises_only_ValueError log_loss /\
  raises_only_ValueError roc_auc_score /\
  raises_only_ValueError accuracy_score.

Lemma calc_metric_raises (y yhat : list F) (c : string) (e : exn) :
  calc_metric y yhat c = Raise e -> exists msg, e = ValueError msg.
Proof.
  destruct sklearn_raises_ValueError as (Hl & Ha & Hc).
  assert (Hex : forall (f : list F -> list F -> res F) (a b : list F) (k : F -> pyobj F),
             raises_only_ValueError f ->
             except_ValueError_nan (do v <- f a b; Ok (k v)) = Raise e -> False).
  { intros f a b k Hf. destruct (f a b) as [v | e'] eqn:E; simpl; [discriminate |].
    destruct (Hf _ _ _ E) as [msg ->]. discriminate. }
  unfold calc_metric.
  destruct (c =? "logloss"); [intros E; exfalso; eapply Hex; [exact Hl | exact E] |].
  destruct (c =? "logloss_pass"); [intros E; exfalso; eapply Hex; [exact Hl | exact E] |].
  destruct (c =? "auc"); [intros E; exfalso; eapply Hex; [exact Ha | exact E] |].
  destruct (c =? "acc"); [intros E; exfalso; eapply Hex; [exact Hc | exact E] |].
  destruct (c =? "ymin").
  { destruct yhat; simpl; intros [= <-]; eexists; reflexivity. }
  destruct (c =? "ymax").
  { destruct yhat; simpl; intros [= <-]; eexists; reflexivity. }
  destruct (c =? "ymean"); [discriminate |].
  destruct (c =? "ystd"); [discriminate |].
  destruct (c =? "length"); [discriminate |].
  intros [= <-]. eexists; reflexivity.
Qed.

Lemma calc_metrics_arrays_raises (y yhat : list F) (cols : list string) (e : exn) :
  calc_metrics_arrays y yhat cols = Raise e -> exists msg, e = ValueError msg.
Proof.
  induction cols as [| c cols IH]; simpl; [discriminate |].
  destruct (calc_metric y yhat c) as [m | e'] eqn:E; cbn [bind].
  - destruct (calc_metrics_arrays y yhat cols) as [ms | e'']; cbn [bind]; [discriminate |].
    intros [= <-]. apply IH. reflexivity.
  - intros [= <-]. eapply calc_metric_raises. exact E.
Qed.

Lemma calc_metrics_arrays_extremum (y : list F) (cols : list string) :
  In "ymin" cols \/ In "ymax" cols ->
  exists e, calc_metrics_arrays y [] cols = Raise e.
Proof.
  induction cols as [| c cols IH]; simpl; [tauto |].
  intros Hin.
  destruct (calc_metric y [] c) as [m | e] eqn:E; cbn [bind]; [| eexists; reflexivity].
  destruct IH as [e' ->]; [| eexists; reflexivity].
  destruct Hin as [[-> | Hin] | [-> | Hin]]; auto; discriminate.
Qed.
End EmptyGroup.

(** X11: [calc_metrics_arrays] raises nothing but ValueError (sklearn raising
    nothing else).  On arrays of size zero it does raise one, numpy's, as
    soon as [ymin] or [ymax] is requested, while [ymean] alone is NaN and
    [length] is 0. *)
Theorem X11_calc_metrics_arrays_raises :
  forall (F : Type) (Fl : Float64 F) (sk : Sklearn F),
    raises_only_ValueError log_loss /\
    raises_only_ValueError roc_auc_score /\
    raises_only_ValueError accuracy_score ->
    (forall (y yhat : list F) (cols : list string) (e : exn),
        calc_metrics_arrays y yhat cols = Raise e -> exists msg, e = ValueError msg) /\
    (forall (y : list F) (cols : list string),
        In "ymin" cols \/ In "ymax" cols ->
        exists msg, calc_metrics_arrays y [] cols = Raise (ValueError msg)) /\
    (forall y : list F,
        calc_metrics_arrays y [] ["ymean"; "length"] = Ok [PFloat nan; PInt 0]).
Proof.
  intros F Fl sk Hsk. split; [| split].
  - intros y yhat cols e. apply calc_metrics_arrays_raises. exact Hsk.
  - intros y cols Hin.
    destruct (calc_metrics_arrays_extremum Hsk y cols Hin) as [e He].
    destruct (calc_metrics_arrays_raises Hsk _ _ _ He) as [msg ->].
    exists msg. exact He.
  - intros y. reflexivity.
Qed.

(** X11 on sklearn as documented. *)
Lemma X11_calc_metrics_arrays_raises_witness :
  (forall (y yhat : list float) (cols : list string) (e : exn),
      calc_metrics_arrays (sk := Runs.sklearn) y yhat cols = Raise e ->
      exists msg, e = ValueError msg) /\
  (forall (y : list float) (cols : list string),
      In "ymin" cols \/ In "ymax" cols ->
      exists msg, calc_metrics_arrays (sk := Runs.sklearn) y [] cols = Raise (ValueError msg)) /\
  (forall y : list float,
      calc_metrics_arrays (sk := Runs.sklearn) y [] ["ymean"; "length"]
      = Ok [PFloat nan; PInt 0]).
Proof.
  apply (@X11_calc_metrics_arrays_raises float _ Runs.sklearn).
  exact (sklearn_documented_raises _ (Example.recorded Example.log_losses)
                                   (Example.recorded Example.areas)).
Defined.

(** ** concordance on misaligned inputs *)

Section Misaligned.
Context {F : Type} `{Float64 F}.
Variable not_in_index : list string -> list string -> string.

Lemma loc_cases (prediction : Prediction F) (d : list (DataRow F)) :
  (exists yh, loc not_in_index prediction d = Ok yh /\
              forall r, In r d -> find_yhat (d_index r) (p_rows prediction) <> None) \/
  (misaligned prediction d /\
   loc not_in_index prediction d
   = Raise (KeyError (not_in_index (map (@d_index F) d) (map fst (p_rows prediction))))).
Proof.
  assert (Hd : (forall r, In r d -> find_yhat (d_index r) (p_rows prediction) <> None) \/
               misaligned prediction d).
  { unfold misaligned. induction d as [| r d IH].
    - left. intros r [].
    - destruct (find_yhat (d_index r) (p_rows prediction)) as [yh |] eqn:E.
      + destruct IH as [Hall | (r' & Hr' & Hf)].
        * left. intros r' [<- | Hr']; [congruence | apply Hall; exact Hr'].
        * right. exists r'. split; [right; exact Hr' | exact Hf].
      + right. exists r. split; [left; reflexivity | exact E]. }
  destruct Hd as [Hall | Hm].
  - left. unfold loc.
    destruct (rows_at_found (p_rows prediction) (map (@d_index F) d)) as [yh E].
    + intros k Hk. apply in_map_iff in Hk. destruct Hk as (r & <- & Hr). apply Hall. exact Hr.
    + rewrite E. exists yh. split; [reflexivity | exact Hall].
  - right. split; [exact Hm | apply loc_misaligned; exact Hm].
Qed.
End Misaligned.

(** X12: when the data can be clustered and a row of the validation, test
    or live region has no row of predictions, [concordance] raises KeyError,
    the error of [.loc] on labels of which one is not in the index, and
    returns no frame.  The error is that of the first of the three regions
    with such a row; its message is the one pandas builds from the labels of
    that region and the index of the predictions. *)
Theorem X12_concordance_misaligned :
  forall (F : Type) (Fl : Float64 F)
         (REGION_INT_TO_STR : F -> option string)
         (kmeans_fit : list (list F) -> list F -> Z)
         (ks_2samp : list F -> list F -> res F)
         (not_in_index : list string -> list string -> string)
         (data : list (DataRow F)) (prediction : Prediction F)
         (region : string) (d : DataRow F),
    clusterable REGION_INT_TO_STR data ->
    In region ["validation"; "test"; "live"] ->
    In d (in_region REGION_INT_TO_STR region data) ->
    find_yhat (d_index d) (p_rows prediction) = None ->
    exists (before : list string) (region' : string) (after : list string),
      ["validation"; "test"; "live"] = before ++ region' :: after /\
      (forall r, In r before -> aligned_region REGION_INT_TO_STR data prediction r) /\
      misaligned prediction (in_region REGION_INT_TO_STR region' data) /\
      concordance REGION_INT_TO_STR kmeans_fit ks_2samp not_in_index data prediction
      = Raise (KeyError (not_in_index
                           (map (@d_index F) (in_region REGION_INT_TO_STR region' data))
                           (map fst (p_rows prediction)))).
Proof.
  intros F Fl REGION kmeans ks msg data prediction region d [Hn Hne] Hr Hd Hf.
  unfold concordance, concord_rows, fit.
  assert (Hfit : (List.length (map (@d_x F) data) <? n_clusters)%nat = false).
  { rewrite length_map. apply Nat.ltb_ge. exact Hn. }
  rewrite Hfit. cbn [bind]. unfold region_block.
  assert (Hp : forall r, In r ["validation"; "test"; "live"] ->
                         predict (kmeans (map (@d_x F) data))
                                 (map (@d_x F) (in_region REGION r data))
                         = Ok (map (kmeans (map (@d_x F) data))
                                   (map (@d_x F) (in_region REGION r data)))).
  { intros r Hin. specialize (Hne r Hin). unfold predict.
    destruct (in_region REGION r data); [contradiction | reflexivity]. }
  rewrite (Hp "validation") by (simpl; auto). cbn [bind].
  destruct (loc_cases msg prediction (in_region REGION "validation" data))
    as [(yh0 & -> & H0) | (Hm & ->)]; cbn [bind].
  2: { exists [], "validation", ["test"; "live"].
       split; [reflexivity |]. split; [intros r [] |]. split; [exact Hm | reflexivity]. }
  rewrite (Hp "test") by (simpl; auto). cbn [bind].
  destruct (loc_cases msg prediction (in_region REGION "test" data))
    as [(yh1 & -> & H1) | (Hm & ->)]; cbn [bind].
  2: { exists ["validation"], "test", ["live"].
       split; [reflexivity |]. split; [| split; [exact Hm | reflexivity]].
       intros r [<- | []]. exact H0. }
  rewrite (Hp "live") by (simpl; auto). cbn [bind].
  destruct (loc_cases msg prediction (in_region REGION "live" data))
    as [(yh2 & -> & H2) | (Hm & ->)]; cbn [bind].
  2: { exists ["validation"; "test"], "live", [].
       split; [reflexivity |]. split; [| split; [exact Hm | reflexivity]].
       intros r [<- | [<- | []]]; assumption. }
  exfalso. destruct Hr as [<- | [<- | [<- | []]]].
  - exact (H0 d Hd Hf).
  - exact (H1 d Hd Hf).
  - exact (H2 d Hd Hf).
Qed.

(** A run of X12: the test rows, "c" and "d", have no predictions. *)
Lemma X12_concordance_misaligned_witness :
  (exists (before : list string) (region' : string) (after : list string),
      ["validation"; "test"; "live"] = before ++ region' :: after /\
      (forall r, In r before ->
                 aligned_region Example.REGION_INT_TO_STR Example.data Runs.validation_only r) /\
      misaligned Runs.validation_only (in_region Example.REGION_INT_TO_STR region' Example.data) /\
      concordance Example.REGION_INT_TO_STR Example.kmeans_fit Example.ks_2samp
                  Example.not_in_index Example.data Runs.validation_only
      = Raise (KeyError (Example.not_in_index
                           (map (@d_index float)
                                (in_region Example.REGION_INT_TO_STR region' Example.data))
                           (map fst (p_rows Runs.validation_only))))) /\
  concordance Example.REGION_INT_TO_STR Example.kmeans_fit Example.ks_2samp
              Example.not_in_index Example.data Runs.validation_only
  = Raise (KeyError "None of [Index(['c', 'd'], dtype='object')] are in the [index]").
Proof.
  split.
  - apply (@X12_concordance_misaligned float _ Example.REGION_INT_TO_STR
             Example.kmeans_fit Example.ks_2samp Example.not_in_index
             Example.data Runs.validation_only
             "test" (Example.row "c" 2 2 1)).
    + split; [unfold n_clusters; simpl; lia |].
      intros region [<- | [<- | [<- | []]]]; vm_compute; discriminate.
    + simpl. auto.
    + vm_compute. left. reflexivity.
    + vm_compute. reflexivity.
  - vm_compute. reflexivity.
Defined.

(** ** The cells of the per-era frame *)

Lemma mapM_Forall2 (A B : Type) (f : A -> res B) (xs : list A) (ys : list B) :
  mapM f xs = Ok ys -> Forall2 (fun x y => f x = Ok y) xs ys.
Proof.
  revert ys. induction xs as [| x xs IH]; simpl; intros ys E.
  - apply Ok_inj in E. subst. constructor.
  - bind_as E y Ey. bind_as E ys' Eys. apply Ok_inj in E. subst. constructor; auto.
Qed.

Lemma Forall2_concat (A B C : Type) (g : A -> list B) (P : A * B -> C -> Prop)
      (xs : list A) (yss : list (list C)) :
  Forall2 (fun x ys => Forall2 (fun b y => P (x, b) y) (g x) ys) xs yss ->
  Forall2 P (flat_map (fun x => map (fun b => (x, b)) (g x)) xs) (List.concat yss).
Proof.
  induction 1 as [| x ys xs yss Hx Hxs IH]; simpl; [constructor |].
  apply Forall2_app; [| exact IH].
  clear - Hx. induction Hx; simpl; constructor; auto.
Qed.

Lemma Forall2_map_r (A B C : Type) (P : A -> C -> Prop) (f : B -> C)
      (xs : list A) (ys : list B) :
  Forall2 (fun x y => P x (f y)) xs ys -> Forall2 P xs (map f ys).
Proof. induction 1; simpl; constructor; auto. Qed.

Lemma Forall2_weaken (A B : Type) (P Q : A -> B -> Prop) (xs : list A) (ys : list B) :
  (forall x y, P x y -> Q x y) -> Forall2 P xs ys -> Forall2 Q xs ys.
Proof. intros Hpq. induction 1; constructor; auto. Qed.

Lemma position_In (c : string) (names : list string) :
  In c names -> exists j, position c names = Some j.
Proof.
  induction names as [| n names IH]; simpl; [contradiction |].
  intros Hin. destruct (n =? c)%string eqn:E; [eexists; reflexivity |].
  destruct Hin as [-> | Hin]; [rewrite String.eqb_refl in E; discriminate |].
  destruct (IH Hin) as [j ->]. eexists; reflexivity.
Qed.

Section PerEraCells.
Context {F : Type} `{Float64 F} {sk : Sklearn F}.
Variable tournament_str : label -> string.
Variable ERA_INT_TO_STR : F -> option string.
Variable REGION_INT_TO_STR : F -> option string.

Lemma column_frame_of_rows (c : string) (names : list string) (rows : list (list (pyobj F)))
      (j : nat) :
  position c names = Some j ->
  column c (frame_of_rows names rows) = Ok (map (fun r => nth j r (PFloat nan)) rows).
Proof.
  unfold column, frame_of_rows, enumerate. cbn [columns].
  assert (Hgen : forall k j,
             position c names = Some j ->
             find (fun col : string * list (pyobj F) => (fst col =? c)%string)
                  (map (fun jn : nat * string =>
                          (snd jn, map (fun r => nth (fst jn) r (PFloat nan)) rows))
                       (combine (seq k (List.length names)) names))
             = Some (c, map (fun r => nth (k + j) r (PFloat nan)) rows)).
  { induction names as [| n names IH]; simpl; intros k j0 Hp; [discriminate |].
    destruct (n =? c)%string eqn:E.
    - apply String.eqb_eq in E. subst n. injection Hp as <-.
      rewrite Nat.add_0_r. reflexivity.
    - destruct (position c names) as [j' |]; [| discriminate]. injection Hp as <-.
      rewrite (IH (S k) j' eq_refl). rewrite Nat.add_succ_r. reflexivity. }
  intros Hp. rewrite (Hgen 0%nat j Hp). reflexivity.
Qed.

Lemma calc_metrics_arrays_nth (y yhat : list F) (cols : list string) (ms : list (pyobj F))
      (c : string) (j : nat) :
  calc_metrics_arrays y yhat cols = Ok ms -> position c cols = Some j ->
  calc_metric y yhat c = Ok (nth j ms (PFloat nan)).
Proof.
  revert ms j. induction cols as [| c0 cols IH]; simpl; intros ms j E Hp; [discriminate |].
  bind_as E m Em. bind_as E ms' Ems. apply Ok_inj in E. subst ms.
  destruct (c0 =? c)%string eqn:Ec.
  - apply String.eqb_eq in Ec. subst c0. injection Hp as <-. exact Em.
  - destruct (position c cols) as [j' |]; [| discriminate]. injection Hp as <-.
    simpl. apply IH; reflexivity.
Qed.

Lemma per_era_rows (df : list (Joined F)) (pairs : list pair) (tournament : option label)
      (cols : list string) (era_as_str : bool) (eras : list F)
      (rowss : list (list (list (pyobj F)))) :
  mapM (era_metrics tournament_str ERA_INT_TO_STR df pairs tournament cols era_as_str) eras
  = Ok rowss ->
  Forall2 (fun k row =>
             exists ms,
               calc_metrics_arrays (group_y tournament_str tournament df k) (group_yhat df k) cols
               = Ok ms /\
               row = era_cell ERA_INT_TO_STR era_as_str (fst k) :: PPair (snd (snd k)) :: ms)
          (flat_map (fun e => map (fun ip => (e, ip)) (enumerate pairs)) eras)
          (List.concat rowss).
Proof.
  intros E. apply mapM_Forall2 in E. apply Forall2_concat.
  eapply Forall2_weaken; [| exact E]. cbn beta. intros e rows He.
  unfold era_metrics in He. bind_as He ec Eera. apply lookup_era_cell in Eera. subst ec.
  apply mapM_Forall2 in He. eapply Forall2_weaken; [| exact He]. cbn beta.
  intros ip row Hrow. unfold pair_metrics in Hrow. bind_as Hrow ms Ems.
  apply Ok_inj in Hrow. subst row. exists ms. split; [exact Ems | reflexivity].
Qed.
End PerEraCells.

(** X13: a statistic cell of the per-era frame is that statistic of its
    row's two arrays: the predictions of the row's pair on the rows of the
    row's era, and the targets of these rows in the pair's own tournament or,
    when the call names a tournament, in that one for every pair. *)
Theorem X13_per_era_cells :
  forall (F : Type) (Fl : Float64 F) (sk : Sklearn F) (tournament_str : label -> string)
         (ERA_INT_TO_STR REGION_INT_TO_STR : F -> option string)
         (data : list (DataRow F)) (prediction : Prediction F)
         (tournament : option label) (join : string) (cols : list string)
         (era_as_str region_as_str split_pairs : bool)
         (mpe : DataFrame F) (regions : list (pyobj F)) (c : string),
    metrics_per_era tournament_str ERA_INT_TO_STR REGION_INT_TO_STR data prediction
                    tournament join cols era_as_str region_as_str split_pairs
    = Ok (mpe, regions) ->
    In c cols ->
    ~ In c ["name"; "tournament"; "era"; "pair"] ->
    exists (h : how) (cells : list (pyobj F)),
      join_how join = Ok h /\
      column c mpe = Ok cells /\
      Forall2 (fun k cell =>
                 calc_metric (group_y tournament_str tournament
                                      (joined_frame h data prediction) k)
                             (group_yhat (joined_frame h data prediction) k) c
                 = Ok cell)
              (indexed_keys (joined_frame h data prediction) (p_pairs prediction))
              cells.
Proof.
  intros F Fl sk ts ERA REGION data prediction tournament join cols eas ras sp mpe regions c
         E Hc Hn.
  destruct (metrics_per_era_inv _ _ _ _ _ _ _ _ _ _ _ E) as (h & rowss & Hj & _ & Hrows & Hsp).
  destruct (position_In c cols Hc) as [j Hpos].
  assert (Hne : c <> "name" /\ c <> "tournament" /\ c <> "era" /\ c <> "pair").
  { simpl in Hn. repeat split; intros ->; apply Hn; auto. }
  destruct Hne as (Hname & Htour & Hera & Hpair).
  assert (Hp : position c ("era" :: "pair" :: cols) = Some (S (S j))).
  { cbn [position]. apply String.eqb_neq in Hera, Hpair.
    rewrite String.eqb_sym in Hera. rewrite String.eqb_sym in Hpair.
    rewrite Hera, Hpair, Hpos. reflexivity. }
  exists h, (map (fun r => nth (S (S j)) r (PFloat nan)) (List.concat rowss)).
  split; [exact Hj |]. split.
  - destruct sp.
    + destruct (add_split_pairs_inv _ _ _ Hsp) as (nm & tn & Hcs & Hi).
      destruct mpe as [idx cs]. cbn [columns index] in *. subst cs.
      transitivity (column c (frame_of_rows ("era" :: "pair" :: cols) (List.concat rowss))).
      * apply column_after_split; assumption.
      * apply column_frame_of_rows. exact Hp.
    + apply Ok_inj in Hsp. subst mpe. apply column_frame_of_rows. exact Hp.
  - apply Forall2_map_r. apply per_era_rows in Hrows.
    eapply Forall2_weaken; [| exact Hrows]. cbn beta.
    intros k row (ms & Hms & ->). cbn [nth].
    eapply calc_metrics_arrays_nth; eauto.
Qed.

(** A run of X13: the [logloss] column. *)
Lemma X13_per_era_cells_witness :
  exists (h : how) (cells : list (pyobj float)),
    join_how "yhat" = Ok h /\
    column "logloss" Runs.per_era_frame = Ok cells /\
    Forall2 (fun k cell =>
               calc_metric (sk := Runs.sklearn)
                           (group_y Example.tournament_str (Some (LInt 3))
                                    (joined_frame h Example.data Example.prediction) k)
                           (group_yhat (joined_frame h Example.data Example.prediction) k)
                           "logloss"
               = Ok cell)
            (indexed_keys (joined_frame h Example.data Example.prediction)
                          (p_pairs Example.prediction))
            cells.
Proof.
  apply (@X13_per_era_cells float _ Runs.sklearn Example.tournament_str
                Example.ERA_INT_TO_STR Example.REGION_INT_TO_STR
                Example.data Example.prediction (Some (LInt 3)) "yhat" ["logloss"; "length"]
                true true true Runs.per_era_frame [PStr "validation"; PStr "test"] "logloss").
  - vm_compute. reflexivity.
  - simpl. auto.
  - simpl. intros [E | [E | [E | [E | []]]]]; discriminate.
Defined.

(** ** The info of a per-name call *)

Section UniqueBlocks.
Variable A : Type.
Variable same : A -> A -> bool.
Hypothesis same_refl : forall a, same a a = true.

Lemma unique_from_idem (xs seen : list A) :
  unique_from same seen (unique_from same seen xs) = unique_from same seen xs.
Proof.
  revert seen. induction xs as [| x xs IH]; simpl; intros seen; auto.
  destruct (existsb (same x) seen) eqn:E; [apply IH |].
  simpl. rewrite E. f_equal. apply IH.
Qed.

Lemma unique_from_skip (x : A) (n : nat) (rest seen : list A) :
  existsb (same x) seen = true ->
  unique_from same seen (repeat x n ++ rest) = unique_from same seen rest.
Proof. intros E. induction n as [| n IH]; simpl; auto. rewrite E. exact IH. Qed.

Lemma unique_from_blocks (n : nat) (xs seen : list A) :
  unique_from same seen (flat_map (fun x => repeat x (S n)) xs) = unique_from same seen xs.
Proof.
  revert seen. induction xs as [| x xs IH]; intros seen; auto.
  cbn [flat_map repeat app unique_from].
  destruct (existsb (same x) seen) eqn:E.
  - rewrite unique_from_skip by exact E. apply IH.
  - f_equal. rewrite unique_from_skip; [apply IH |].
    simpl. rewrite same_refl. reflexivity.
Qed.
End UniqueBlocks.

Lemma map_const_repeat (A B : Type) (b : B) (xs : list A) :
  map (fun _ => b) xs = repeat b (List.length xs).
Proof. induction xs as [| x xs IH]; simpl; auto. rewrite IH. reflexivity. Qed.

Lemma row_keys_eras (A B : Type) (eras : list A) (p0 : B) (ps : list B) :
  map (fun k : A * B => fst k) (flat_map (fun e => map (fun p => (e, p)) (p0 :: ps)) eras)
  = flat_map (fun e => repeat e (S (List.length ps))) eras.
Proof.
  induction eras as [| e es IH]; [reflexivity |].
  cbn [flat_map]. rewrite map_app, IH, map_map. cbn [fst].
  rewrite (map_const_repeat e (p0 :: ps)). reflexivity.
Qed.

(** X14: the info of [metrics_per_name] lists the eras and the regions of
    the joined frame, each once, in order of first appearance: by name when
    [era_as_str] or [region_as_str] is set (the default), else by code. *)
Theorem X14_per_name_info :
  forall (F : Type) (Fl : Float64 F) (sk : Sklearn F) (tournament_str : label -> string)
         (ERA_INT_TO_STR REGION_INT_TO_STR : F -> option string)
         (data : list (DataRow F)) (prediction : Prediction F)
         (tournament : option label) (join : string) (cols : list string)
         (era_as_str region_as_str split_pairs : bool)
         (metrics : DataFrame F) (info : list (pyobj F) * list (pyobj F)),
    metrics_per_name tournament_str ERA_INT_TO_STR REGION_INT_TO_STR data prediction
                     tournament join cols era_as_str region_as_str split_pairs
    = Ok (metrics, info) ->
    exists h : how,
      join_how join = Ok h /\
      code_names ERA_INT_TO_STR era_as_str (eras_of (joined_frame h data prediction))
      = Ok (fst info) /\
      code_names REGION_INT_TO_STR region_as_str (regions_of (joined_frame h data prediction))
      = Ok (snd info).
Proof.
  intros F Fl sk ts ERA REGION data prediction tournament join cols eas ras sp metrics info E.
  destruct (metrics_per_name_inv _ _ _ _ _ _ _ _ _ _ _ E)
    as (mpe & regions & era & pv & mm & series & Hmpe & Hera & Hie & Hir & _).
  destruct (metrics_per_era_inv _ _ _ _ _ _ _ _ _ _ _ Hmpe)
    as (h & rowss & Hj & Hregs & Hrows & Hsp).
  exists h. split; [exact Hj |].
  set (df := joined_frame h data prediction) in *.
  apply Ok_inj in Hregs. subst regions.
  assert (Hpairs : p_pairs prediction <> []).
  { intros Hnil. pose proof Hrows as Hkeys. apply eras_rows in Hkeys. destruct Hkeys as [_ H1].
    assert (Hc : pair_cells (frame_of_rows ("era" :: "pair" :: era_columns cols)
                                           (List.concat rowss))
                 = Ok (map PPair (map snd (row_keys df (p_pairs prediction))))).
    { unfold pair_cells.
      change (has_column "pair" (frame_of_rows ("era" :: "pair" :: era_columns cols)
                                               (List.concat rowss))) with true.
      cbn iota. rewrite frame_of_rows_pair, H1, map_map. reflexivity. }
    eapply add_split_pairs_of_pairs in Hsp; [| exact Hc]. destruct Hsp as [Hne _].
    apply Hne. unfold row_keys. rewrite Hnil. clear.
    generalize (eras_of df). intros es. induction es as [| e es IH]; simpl; auto. }
  assert (Heras : unique same_key (map to_float era) = eras_of df).
  { apply eras_rows in Hrows. destruct Hrows as [H0 _].
    assert (Hcol : column "era" mpe
                   = Ok (map (fun r => nth 0 r (PFloat nan)) (List.concat rowss))).
    { destruct (add_split_pairs_inv _ _ _ Hsp) as (nm & tn & Hcs & _).
      destruct mpe as [idx cs]. cbn [columns] in Hcs. subst cs.
      transitivity (column "era" (frame_of_rows ("era" :: "pair" :: era_columns cols)
                                                (List.concat rowss))).
      - apply column_after_split; discriminate.
      - apply frame_of_rows_era. }
    rewrite Hera in Hcol. apply Ok_inj in Hcol. subst era.
    rewrite H0, map_map. cbn [era_cell to_float fst].
    destruct (p_pairs prediction) as [| p0 ps] eqn:Ep; [contradiction |].
    rewrite row_keys_eras. unfold unique. rewrite unique_from_blocks by apply same_key_refl.
    unfold eras_of, unique. apply unique_from_idem. }
  split.
  - unfold code_names. rewrite <- Heras. exact Hie.
  - unfold code_names, regions_of. rewrite map_map in Hir. cbn [to_float] in Hir.
    rewrite map_id in Hir. exact Hir.
Qed.

(** A run of X14. *)
Lemma X14_per_name_info_witness :
  exists h : how,
    join_how "yhat" = Ok h /\
    code_names Example.ERA_INT_TO_STR true
               (eras_of (joined_frame h Example.data Example.prediction))
    = Ok (fst ([@PStr float "era1"; PStr "era2"], [@PStr float "validation"; PStr "test"])) /\
    code_names Example.REGION_INT_TO_STR true
               (regions_of (joined_frame h Example.data Example.prediction))
    = Ok (snd ([@PStr float "era1"; PStr "era2"], [@PStr float "validation"; PStr "test"])).
Proof.
  apply (@X14_per_name_info float _ Runs.sklearn Example.tournament_str
           Example.ERA_INT_TO_STR Example.REGION_INT_TO_STR
           Example.data Example.prediction None "yhat" ["logloss"; "consis"; "acc"]
           true true true Runs.summary
           ([PStr "era1"; PStr "era2"], [PStr "validation"; PStr "test"])).
  vm_compute. reflexivity.
Defined.

(** ** The averaged columns of the summary *)

Lemma filter_combine3 (A B C D : Type) (test : B -> bool) (f : C -> D)
      (es : list A) (ps : list B) (vs : list C) :
  List.length es = List.length ps -> List.length vs = List.length ps ->
  map snd (filter (fun cl : A * B * D => test (snd (fst cl)))
                  (combine (combine es ps) (map f vs)))
  = map (fun pv => f (snd pv)) (filter (fun pv : B * C => test (fst pv)) (combine ps vs)).
Proof.
  revert es vs. induction ps as [| p ps IH]; intros [| e es] [| v vs]; simpl;
    try discriminate; auto.
  intros He Hv. destruct (test p); simpl; rewrite IH by lia; reflexivity.
Qed.

Section Averaged.
Context {F : Type} `{Float64 F} {sk : Sklearn F}.

Lemma groupby_pair_mean_cells (mpe : DataFrame F) (c : string) (mm : list (pair * F))
      (kp : list pair) (v : list (pyobj F)) :
  rectangular mpe ->
  column "pair" mpe = Ok (map PPair kp) ->
  column c mpe = Ok v ->
  groupby_pair_mean mpe c = Ok mm ->
  mm = map (fun p => (p, pd_mean (map (fun pv => to_float (snd pv))
                                      (filter (fun pv => pair_eqb (fst pv) p) (combine kp v)))))
           (sort_by pair_leb (unique pair_eqb kp)).
Proof.
  intros Hr Hp Hv Hg. unfold groupby_pair_mean, keyed in Hg.
  bind_as Hg cells Hk. apply Ok_inj in Hg. subst mm.
  bind_as Hk era Eera. rewrite Hp, Hv in Hk. cbn [bind] in Hk.
  rewrite mapM_as_pair in Hk. cbn [bind] in Hk. apply Ok_inj in Hk. subst cells.
  pose proof (column_length _ Hr Eera) as Le.
  pose proof (column_length _ Hr Hp) as Lp.
  pose proof (column_length _ Hr Hv) as Lv.
  rewrite length_map in Lp.
  unfold pivot_pairs.
  rewrite combine3_pairs by (rewrite ?length_map; congruence).
  apply map_ext. intros p. f_equal. f_equal.
  apply (filter_combine3 (fun q => pair_eqb q p) to_float (map to_float era) kp v);
    rewrite ?length_map; congruence.
Qed.
End Averaged.

Lemma name_metric_averaged (F : Type) (Fl : Float64 F) (mpe : DataFrame F)
      (pv : option (list (pair * list F))) (c : string) (m : list (pyobj F)) :
  In c ["logloss"; "auc"; "acc"; "ystd"] ->
  name_metric mpe pv c = Ok (c, m) -> averaged mpe c = Ok m.
Proof.
  intros Hc E. unfold name_metric in E. bind_as E m' Em. apply Ok_inj in E.
  injection E as ->.
  simpl in Hc. destruct Hc as [<- | [<- | [<- | [<- | []]]]]; exact Em.
Qed.

(** X15: a [logloss], [auc], [acc] or [ystd] column of the summary holds,
    for each pair, the mean of that column of the per-era frame over the
    pair's rows, one per era, the NaN cells left out of both the sum and the
    count: the sum, left to right, of the cells that are not NaN, over their
    number. *)
Theorem X15_per_name_mean :
  forall (F : Type) (Fl : Float64 F) (sk : Sklearn F) (tournament_str : label -> string)
         (ERA_INT_TO_STR REGION_INT_TO_STR : F -> option string)
         (data : list (DataRow F)) (prediction : Prediction F)
         (tournament : option label) (join : string) (cols : list string)
         (era_as_str region_as_str split_pairs : bool)
         (metrics : DataFrame F) (info : list (pyobj F) * list (pyobj F)) (c : string),
    metrics_per_name tournament_str ERA_INT_TO_STR REGION_INT_TO_STR data prediction
                     tournament join cols era_as_str region_as_str split_pairs
    = Ok (metrics, info) ->
    In c cols ->
    In c ["logloss"; "auc"; "acc"; "ystd"] ->
    exists (mpe : DataFrame F) (regions : list (pyobj F)) (kp : list pair) (v : list (pyobj F)),
      metrics_per_era tournament_str ERA_INT_TO_STR REGION_INT_TO_STR data prediction
                      tournament join (era_columns cols) false false true
      = Ok (mpe, regions) /\
      column "pair" mpe = Ok (map PPair kp) /\
      column c mpe = Ok v /\
      index metrics = map PPair (sort_by pair_leb (unique pair_eqb kp)) /\
      column c metrics
      = Ok (map (fun p =>
                   let cells := filter (fun x => negb (isnan x))
                                       (map (fun pv => to_float (snd pv))
                                            (filter (fun pv => pair_eqb (fst pv) p)
                                                    (combine kp v))) in
                   PFloat (fdiv (fold_left fadd cells (of_Z 0))
                                (of_Z (Z.of_nat (List.length cells)))))
                (sort_by pair_leb (unique pair_eqb kp))).
Proof.
  intros F Fl sk ts ERA REGION data prediction tournament join cols eas ras sp metrics info c
         E Hc Hknown.
  destruct (metrics_per_name_inv _ _ _ _ _ _ _ _ _ _ _ E)
    as (mpe & regions & era & pv & mm & series & Hmpe & _ & _ & _ & _ & Hmm & Hser & Hsp).
  pose proof (metrics_per_era_rectangular _ _ _ _ _ _ _ _ _ _ _ Hmpe) as Hrect.
  destruct (per_era_split_pairs _ _ _ _ _ _ _ _ _ _ Hmpe) as (h & _ & _ & Hpair).
  set (kp := map snd (row_keys (joined_frame h data prediction) (p_pairs prediction))) in *.
  destruct (series_column mpe pv cols (map (fun pm : pair * F => @PPair F (fst pm)) mm) c
                          Hser Hc) as (m & Hnm & Hcol).
  apply name_metric_averaged in Hnm; [| exact Hknown].
  unfold averaged in Hnm. bind_as Hnm mc Emc. apply Ok_inj in Hnm. subst m.
  assert (Hv : exists v, column c mpe = Ok v).
  { unfold groupby_pair_mean, keyed in Emc.
    destruct (column "era" mpe); [| discriminate]. cbn [bind] in Emc.
    destruct (column "pair" mpe); [| discriminate]. cbn [bind] in Emc.
    destruct (column c mpe) as [v |]; [| discriminate]. exists v. reflexivity. }
  destruct Hv as [v Hv].
  exists mpe, regions, kp, v.
  split; [exact Hmpe |]. split; [exact Hpair |]. split; [exact Hv |].
  pose proof (@groupby_pairs F Fl mpe "era" mm kp Hrect Hmm Hpair) as Hidx.
  rewrite (@groupby_pair_mean_cells F Fl mpe c mc kp v Hrect Hpair Hv Emc) in Hcol.
  rewrite map_map in Hcol. cbn [snd] in Hcol.
  assert (Hn : c <> "name" /\ c <> "tournament").
  { simpl in Hknown. split; intros ->;
      destruct Hknown as [Hk | [Hk | [Hk | [Hk | []]]]]; discriminate. }
  destruct Hn as [Hname Htour].
  destruct sp.
  - destruct (add_split_pairs_inv _ _ _ Hsp) as (nm & tn & Hcs & Hi).
    destruct metrics as [idx cs]. cbn [columns index] in *. subst cs idx.
    split; [rewrite <- Hidx, map_map; reflexivity |].
    transitivity (column c {| index := map (fun pm : pair * F => @PPair F (fst pm)) mm;
                              columns := series |}).
    + apply column_after_split; assumption.
    + exact Hcol.
  - apply Ok_inj in Hsp. subst metrics. cbn [index].
    split; [rewrite <- Hidx, map_map; reflexivity |]. exact Hcol.
Qed.

(** A run of X15: the [logloss] column under the default join.  The
    second era holds a row without predictions, its log-loss is NaN for both
    pairs, and the mean of a pair is its log-loss on the first era. *)
Lemma X15_per_name_mean_witness :
  metrics_per_name (sk := Runs.sklearn) Example.tournament_str
                   Example.ERA_INT_TO_STR Example.REGION_INT_TO_STR
                   Example.data Example.prediction None "data" ["logloss"; "acc"]
                   true true true
  = Ok (Runs.summary_data,
        ([PStr "era1"; PStr "era2"], [PStr "validation"; PStr "test"; PStr "live"])) /\
  column "logloss" Runs.summary_data
  = Ok [PFloat 1.2628643221541276; PFloat 0.43375028385236158]%float /\
  option_map (fun mr => column "logloss" (fst mr))
    (match metrics_per_era (sk := Runs.sklearn) Example.tournament_str
                           Example.ERA_INT_TO_STR Example.REGION_INT_TO_STR
                           Example.data Example.prediction None "data"
                           (era_columns ["logloss"; "acc"]) false false true with
     | Ok mr => Some mr
     | Raise _ => None
     end)
  = Some (Ok [PFloat 0.43375028385236158; PFloat 1.2628643221541276;
              PFloat nan; PFloat nan]%float) /\
  exists (mpe : DataFrame float) (regions : list (pyobj float)) (kp : list pair)
         (v : list (pyobj float)),
    metrics_per_era (sk := Runs.sklearn) Example.tournament_str
                    Example.ERA_INT_TO_STR Example.REGION_INT_TO_STR
                    Example.data Example.prediction None "data"
                    (era_columns ["logloss"; "acc"]) false false true
    = Ok (mpe, regions) /\
    column "pair" mpe = Ok (map PPair kp) /\
    column "logloss" mpe = Ok v /\
    index Runs.summary_data = map PPair (sort_by pair_leb (unique pair_eqb kp)) /\
    column "logloss" Runs.summary_data
    = Ok (map (fun p =>
                 let cells := filter (fun x => negb (isnan x))
                                     (map (fun pv => to_float (snd pv))
                                          (filter (fun pv => pair_eqb (fst pv) p)
                                                  (combine kp v))) in
                 PFloat (fdiv (fold_left fadd cells (of_Z 0))
                              (of_Z (Z.of_nat (List.length cells)))))
              (sort_by pair_leb (unique pair_eqb kp))).
Proof.
  split; [| split; [| split]].
  - vm_compute. reflexivity.
  - vm_compute. reflexivity.
  - vm_compute. reflexivity.
  - apply (@X15_per_name_mean float _ Runs.sklearn Example.tournament_str
             Example.ERA_INT_TO_STR Example.REGION_INT_TO_STR
             Example.data Example.prediction None "data" ["logloss"; "acc"]
             true true true Runs.summary_data
             ([PStr "era1"; PStr "era2"], [PStr "validation"; PStr "test"; PStr "live"])
             "logloss").
    + vm_compute. reflexivity.
    + simpl. auto.
    + simpl. auto.
Defined.

(** ** A prediction row that the data does not have *)

Lemma mapM_lookup_raise (F : Type) (table : F -> option string) (codes : list F) (z : F) :
  In z codes -> table z = None -> mapM (lookup table) codes = Raise (KeyError "code").
Proof.
  induction codes as [| c codes IH]; simpl; [contradiction |].
  intros Hin Hz. unfold lookup at 1. destruct (table c) eqn:E; cbn [bind].
  - destruct Hin as [-> | Hin]; [congruence |]. rewrite (IH Hin Hz). reflexivity.
  - reflexivity.
Qed.

Section NanCode.
Context {F : Type} `{Float64Laws F} {K : Float64KeyLaws F}.

Lemma same_key_nan (u : F) : same_key nan u = true -> isnan u = true.
Proof.
  unfold same_key. intros E. apply orb_true_iff in E. destruct E as [E | E].
  - apply feqb_notnan in E. rewrite nan_isnan in E. discriminate.
  - apply andb_true_iff in E. tauto.
Qed.

Lemma unique_has_nan (codes : list F) :
  In nan codes -> exists u, In u (unique same_key codes) /\ isnan u = true.
Proof.
  intros Hin.
  destruct (@unique_from_covers F same_key same_key_refl codes [] nan Hin)
    as [Hs | (u & Hu & E)]; [discriminate |].
  exists u. split; [exact Hu | apply same_key_nan; exact E].
Qed.
End NanCode.

(** X16: under [join='yhat'], a fully observed prediction row whose key the
    data does not have joins with NaN as its era and region; with
    [region_as_str] set, the lookup of the region names then raises KeyError
    (the table having no NaN key) before any statistic is computed. *)
Theorem X16_unmatched_prediction :
  forall (F : Type) (Fl : Float64 F) (L : Float64Laws F) (K : Float64KeyLaws F)
         (sk : Sklearn F) (tournament_str : label -> string)
         (ERA_INT_TO_STR REGION_INT_TO_STR : F -> option string)
         (data : list (DataRow F)) (prediction : Prediction F)
         (tournament : option label) (cols : list string)
         (era_as_str split_pairs : bool) (r : string * list F),
    In r (dropna (p_rows prediction)) ->
    find_data (fst r) data = None ->
    (forall z, isnan z = true -> REGION_INT_TO_STR z = None) ->
    In (unmatched_yhat r) (joined_frame how_right data prediction) /\
    exists k : string,
      metrics_per_era tournament_str ERA_INT_TO_STR REGION_INT_TO_STR data prediction
                      tournament "yhat" cols era_as_str true split_pairs
      = Raise (KeyError k).
Proof.
  intros F Fl L K sk ts ERA REGION data prediction tournament cols eas sp r Hr Hf Hnan.
  assert (Hin : In (unmatched_yhat r) (joined_frame how_right data prediction)).
  { unfold joined_frame, merge. apply in_map_iff. exists r. rewrite Hf. auto. }
  split; [exact Hin |]. exists "code".
  unfold metrics_per_era. cbn [join_how String.eqb Ascii.eqb Bool.eqb bind].
  fold (joined_frame how_right data prediction).
  destruct (@unique_has_nan F Fl L K (map (@j_region F) (joined_frame how_right data prediction)))
    as (u & Hu & Hnu).
  { apply in_map_iff. exists (unmatched_yhat r). split; [reflexivity | exact Hin]. }
  rewrite (mapM_lookup_raise REGION _ u Hu (Hnan u Hnu)). reflexivity.
Qed.

Lemma region_names_nan (z : float) : isnan z = true -> Example.REGION_INT_TO_STR z = None.
Proof.
  intros Hz.
  assert (Hne : forall x : float, PrimFloat.eqb x z = false).
  { intros x. destruct (PrimFloat.eqb x z) eqn:E; [| reflexivity].
    change (feqb x z = true) in E. rewrite feqb_sym in E. apply feqb_notnan in E. congruence. }
  unfold Example.REGION_INT_TO_STR, Example.name_of. cbn [find fst]. rewrite !Hne. reflexivity.
Qed.

(** A run of X16: row "z" is not in the data. *)
Lemma X16_unmatched_prediction_witness :
  In (unmatched_yhat ("z", [0.1; 0.2]%float))
     (joined_frame how_right Example.data Runs.stray) /\
  exists k : string,
    metrics_per_era (sk := Runs.sklearn) Example.tournament_str
                    Example.ERA_INT_TO_STR Example.REGION_INT_TO_STR
                    Example.data Runs.stray None "yhat" ["logloss"] false true false
    = Raise (KeyError k).
Proof.
  apply (@X16_unmatched_prediction float _ Float64Laws_prim Float64KeyLaws_prim Runs.sklearn
           Example.tournament_str Example.ERA_INT_TO_STR Example.REGION_INT_TO_STR
           Example.data Runs.stray None ["logloss"] false false ("z", [0.1; 0.2]%float)).
  - vm_compute. right. left. reflexivity.
  - vm_compute. reflexivity.
  - exact region_names_nan.
Defined.

(** ** The range of consis *)

(** X17: on the exact model, [consis] of a pair with at least one era is a
    number between 0 and 1 (a NaN log-loss lowers it, never makes it NaN);
    of no era at all it is NaN. *)
Theorem X17_consis_range :
  forall logloss : list xreal,
    logloss <> [] ->
    (exists r : R, consis logloss = XFin r /\ (0 <= r <= 1)%R) /\
    consis (@nil xreal) = XNaN.
Proof.
  intros logloss Hne. split.
  - rewrite consis_fraction.
    set (k := List.length (filter beats_benchmark logloss)).
    set (n := List.length logloss).
    assert (Hkn : (k <= n)%nat) by apply filter_length_le.
    assert (Hn : (0 < n)%nat).
    { unfold n. destruct logloss; [contradiction | simpl; lia]. }
    exists (IZR (Z.of_nat k) / IZR (Z.of_nat n))%R. split.
    + unfold of_nat. cbn [of_Z Float64_exact fdiv]. apply xdiv_fin.
      pose proof (xof_nat_pos Hn). lra.
    + pose proof (xof_nat_pos Hn) as Hpos.
      assert (Hk0 : (0 <= IZR (Z.of_nat k))%R) by (apply IZR_le; lia).
      assert (Hk1 : (IZR (Z.of_nat k) <= IZR (Z.of_nat n))%R) by (apply IZR_le; lia).
      split.
      * unfold Rdiv. apply Rmult_le_pos; [exact Hk0 |].
        left. apply Rinv_0_lt_compat. exact Hpos.
      * apply (Rmult_le_reg_r (IZR (Z.of_nat n))); [exact Hpos |].
        unfold Rdiv. rewrite Rmult_assoc, Rinv_l, Rmult_1_r, Rmult_1_l by lra. exact Hk1.
  - unfold consis, pd_mean_bool. simpl. rewrite Reqb_refl. reflexivity.
Qed.

(** A run of X17: one era beats the benchmark, one has no log-loss. *)
Lemma X17_consis_range_witness :
  (exists r : R, consis [XFin (1 / 2); XNaN] = XFin r /\ (0 <= r <= 1)%R) /\
  consis (@nil xreal) = XNaN.
Proof.
  apply (@X17_consis_range [XFin (1 / 2); XNaN]). discriminate.
Defined.

(** ** The pivot of the per-era frame *)

Lemma Forall2_map_eq (A B C : Type) (f : A -> C) (g : B -> C) (xs : list A) (ys : list B) :
  Forall2 (fun x y => g y = f x) xs ys -> map g ys = map f xs.
Proof. induction 1; simpl; congruence. Qed.

Lemma combine_map3 (A B C D : Type) (f : A -> B) (g : A -> C) (h : A -> D) (xs : list A) :
  combine (combine (map f xs) (map g xs)) (map h xs) = map (fun x => (f x, g x, h x)) xs.
Proof. induction xs as [| x xs IH]; simpl; congruence. Qed.

Lemma find_map (A B : Type) (f : A -> B) (q : B -> bool) (xs : list A) :
  find q (map f xs) = option_map f (find (fun x => q (f x)) xs).
Proof.
  induction xs as [| x xs IH]; simpl; auto. destruct (q (f x)); [reflexivity | exact IH].
Qed.

Lemma find_first (A : Type) (q : A -> bool) (xs ys : list A) :
  find q (xs ++ ys) = match find q xs with Some x => Some x | None => find q ys end.
Proof. induction xs as [| x xs IH]; simpl; auto. destruct (q x); auto. Qed.

Lemma find_same (A : Type) (f g : A -> bool) (xs : list A) :
  (forall x, f x = g x) -> find f xs = find g xs.
Proof. intros E. induction xs as [| x xs IH]; simpl; auto. rewrite E, IH. reflexivity. Qed.

Lemma insert_sorted_map (A B : Type) (f : A -> B) (leb : B -> B -> bool) (x : A) (xs : list A) :
  map f (insert_sorted (fun a b => leb (f a) (f b)) x xs)
  = insert_sorted leb (f x) (map f xs).
Proof.
  induction xs as [| y ys IH]; simpl; auto.
  destruct (leb (f x) (f y)); simpl; [reflexivity | rewrite IH; reflexivity].
Qed.

Lemma sort_by_map (A B : Type) (f : A -> B) (leb : B -> B -> bool) (xs : list A) :
  map f (sort_by (fun a b => leb (f a) (f b)) xs) = sort_by leb (map f xs).
Proof.
  induction xs as [| x xs IH]; simpl; auto. rewrite insert_sorted_map, IH. reflexivity.
Qed.

Lemma existsb_none (A : Type) (f : A -> bool) (xs : list A) :
  existsb f xs = false <-> Forall (fun x => f x = false) xs.
Proof.
  induction xs as [| x xs IH]; simpl.
  - split; [constructor | reflexivity].
  - rewrite orb_false_iff, IH. split.
    + intros [Hx Hxs]. constructor; assumption.
    + intros Hall. inversion Hall; subst. split; assumption.
Qed.

Lemma has_duplicates_none (A : Type) (same : A -> A -> bool) (xs : list A) :
  has_duplicates same xs = false <-> ForallOrdPairs (fun x y => same x y = false) xs.
Proof.
  induction xs as [| x xs IH]; simpl.
  - split; [constructor | reflexivity].
  - rewrite orb_false_iff, IH, existsb_none. split.
    + intros [Hx Hxs]. constructor; assumption.
    + intros Hall. inversion Hall; subst. split; assumption.
Qed.

Lemma ordpairs_app (A : Type) (R : A -> A -> Prop) (xs ys : list A) :
  ForallOrdPairs R xs -> ForallOrdPairs R ys ->
  (forall x y, In x xs -> In y ys -> R x y) ->
  ForallOrdPairs R (xs ++ ys).
Proof.
  intros Hx Hy Hc. induction Hx as [| x xs Hf Hx IH]; simpl; [exact Hy |].
  constructor.
  - apply Forall_app. split; [exact Hf |].
    apply Forall_forall. intros y Hin. apply Hc; [left; reflexivity | exact Hin].
  - apply IH. intros a b Ha Hb. apply Hc; [right; exact Ha | exact Hb].
Qed.

Lemma ordpairs_app_l (A : Type) (R : A -> A -> Prop) (xs ys : list A) :
  ForallOrdPairs R (xs ++ ys) -> ForallOrdPairs R xs.
Proof.
  induction xs as [| x xs IH]; simpl; intros Hall; [constructor |].
  inversion Hall as [| ? ? Hf Hrest]; subst. constructor.
  - apply Forall_app in Hf. tauto.
  - apply IH. exact Hrest.
Qed.

Lemma blocks_fst (A B : Type) (us : list A) (bs : list B) :
  map fst (flat_map (fun e => map (fun b => (e, b)) bs) us)
  = flat_map (fun e => repeat e (List.length bs)) us.
Proof.
  induction us as [| u us IH]; [reflexivity |].
  cbn [flat_map]. rewrite map_app, IH, map_map. cbn [fst].
  rewrite (map_const_repeat u bs). reflexivity.
Qed.

Lemma blocks_snd (A B : Type) (us : list A) (bs : list B) :
  map snd (flat_map (fun e => map (fun b => (e, b)) bs) us) = flat_map (fun _ => bs) us.
Proof.
  induction us as [| u us IH]; [reflexivity |].
  cbn [flat_map]. rewrite map_app, IH, map_map. cbn [snd]. rewrite map_id. reflexivity.
Qed.

Lemma blocks_map (A B C : Type) (g : B -> C) (us : list A) (bs : list B) :
  map (fun k => (fst k, g (snd k))) (flat_map (fun e => map (fun b => (e, b)) bs) us)
  = flat_map (fun e => map (fun c => (e, c)) (map g bs)) us.
Proof.
  induction us as [| u us IH]; [reflexivity |].
  cbn [flat_map]. rewrite map_app, IH, !map_map. reflexivity.
Qed.

Lemma unique_from_all_seen (A : Type) (same : A -> A -> bool) (seen ys : list A) :
  (forall y, In y ys -> existsb (same y) seen = true) -> unique_from same seen ys = [].
Proof.
  induction ys as [| y ys IH]; simpl; intros Hs; auto.
  rewrite (Hs y (or_introl eq_refl)). apply IH. intros; apply Hs; auto.
Qed.

Lemma unique_from_nodup (ps rest seen : list pair) :
  NoDup ps ->
  (forall p, In p ps -> existsb (pair_eqb p) seen = false) ->
  (forall q, In q rest -> In q ps \/ existsb (pair_eqb q) seen = true) ->
  unique_from pair_eqb seen (ps ++ rest) = ps.
Proof.
  intros Hnd. revert seen. induction Hnd as [| p ps Hp Hnd IH]; intros seen Hs Hr.
  - apply unique_from_all_seen. intros q Hq. destruct (Hr q Hq) as [[] | E]. exact E.
  - cbn [app unique_from]. rewrite (Hs p (or_introl eq_refl)). f_equal. apply IH.
    + intros q Hq. cbn [existsb]. rewrite (Hs q (or_intror Hq)), orb_false_r.
      destruct (pair_eqb q p) eqn:E; [| reflexivity].
      apply pair_eqb_eq in E. subst. contradiction.
    + intros q Hq. destruct (Hr q Hq) as [[<- | Hin] | E].
      * right. cbn [existsb]. rewrite (proj2 (pair_eqb_eq p p) eq_refl). reflexivity.
      * left. exact Hin.
      * right. cbn [existsb]. rewrite E. apply orb_true_r.
Qed.

Lemma unique_pairs_blocks (A : Type) (u : A) (us : list A) (ps : list pair) :
  NoDup ps -> unique pair_eqb (flat_map (fun _ => ps) (u :: us)) = ps.
Proof.
  intros Hnd. unfold unique. cbn [flat_map]. apply unique_from_nodup; auto.
  intros q Hq. left. apply in_flat_map in Hq. destruct Hq as (_ & _ & Hq). exact Hq.
Qed.

Lemma find_pair (ips : list (nat * pair)) (ip : nat * pair) :
  NoDup (map snd ips) -> In ip ips ->
  find (fun ip' => pair_eqb (snd ip') (snd ip)) ips = Some ip.
Proof.
  induction ips as [| a ips IH]; simpl; intros Hnd Hin; [contradiction |].
  inversion Hnd as [| ? ? Ha Hnd']; subst.
  destruct (pair_eqb (snd a) (snd ip)) eqn:E.
  - destruct Hin as [-> | Hin]; [reflexivity |].
    apply pair_eqb_eq in E. exfalso. apply Ha. rewrite E. apply in_map. exact Hin.
  - destruct Hin as [-> | Hin]; [| apply IH; assumption].
    rewrite (proj2 (pair_eqb_eq _ _) eq_refl) in E. discriminate.
Qed.

Lemma find_blocks_none (A B : Type) (t : A -> bool) (q : B -> bool)
      (us : list A) (bs : list B) :
  find q bs = None ->
  find (fun k : A * B => t (fst k) && q (snd k))
       (flat_map (fun u => map (fun b => (u, b)) bs) us) = None.
Proof.
  intros Hq. destruct (find _ (flat_map _ us)) as [k |] eqn:E; [| reflexivity].
  apply find_some in E. destruct E as [Hin Hk]. apply in_flat_map in Hin.
  destruct Hin as (u & _ & Hin). apply in_map_iff in Hin. destruct Hin as (b & <- & Hb).
  cbn [fst snd] in Hk. apply andb_true_iff in Hk.
  pose proof (find_none _ _ Hq b Hb) as Hn. destruct Hk. congruence.
Qed.

Lemma find_block (A B : Type) (t : A -> bool) (q : B -> bool) (u : A) (bs : list B) :
  find (fun k : A * B => t (fst k) && q (snd k)) (map (fun b => (u, b)) bs)
  = if t u then option_map (fun b => (u, b)) (find q bs) else None.
Proof.
  induction bs as [| b bs IH]; simpl; [destruct (t u); reflexivity |].
  destruct (t u); simpl in *; [| exact IH].
  destruct (q b); [reflexivity | exact IH].
Qed.

Section KeyedBlocks.
Context {F : Type} `{Float64KeyLaws F}.

Lemma distinct_same (us : list F) (u e : F) :
  ForallOrdPairs (fun u v => same_key v u = false) us ->
  In u us -> In e us -> same_key u e = true -> u = e.
Proof.
  intros Hd. induction Hd as [| a us Ha Hd IH]; simpl; [contradiction |].
  rewrite Forall_forall in Ha.
  intros [<- | Hu] [<- | He] E; auto.
  - specialize (Ha e He). rewrite same_key_sym in Ha. congruence.
  - specialize (Ha u Hu). congruence.
Qed.

Lemma find_blocks (B : Type) (us : list F) (bs : list B) (q : B -> bool) (e : F) :
  (forall u, In u us -> same_key u e = true -> u = e) -> In e us ->
  find (fun k : F * B => same_key (fst k) e && q (snd k))
       (flat_map (fun u => map (fun b => (u, b)) bs) us)
  = option_map (fun b => (e, b)) (find q bs).
Proof.
  induction us as [| u us IH]; simpl; intros Hs He; [contradiction |].
  rewrite find_first, (find_block (fun u => same_key u e) q u bs).
  destruct (same_key u e) eqn:E.
  - assert (u = e) by (apply Hs; auto). subst u.
    destruct (find q bs) as [b |] eqn:Eq; [reflexivity |].
    cbn [option_map]. exact (find_blocks_none (fun u => same_key u e) q us bs Eq).
  - destruct He as [-> | He]; [rewrite same_key_refl in E; discriminate |].
    apply IH; [| exact He]. intros v Hv. apply Hs. right. exact Hv.
Qed.

Lemma keys_distinct (us : list F) (pairs : list pair) :
  ForallOrdPairs (fun u v => same_key v u = false) us -> NoDup pairs ->
  has_duplicates same_cell (flat_map (fun e => map (fun p => (e, p)) pairs) us) = false.
Proof.
  intros Hd Hnd. apply has_duplicates_none.
  induction Hd as [| u us Hu Hd IH]; [constructor |].
  cbn [flat_map]. apply ordpairs_app; [| exact IH |].
  - clear - Hnd. induction Hnd as [| p ps Hp Hnd IH]; [constructor |].
    cbn [map]. constructor; [| exact IH].
    apply Forall_forall. intros y Hy. apply in_map_iff in Hy. destruct Hy as (q & <- & Hq).
    unfold same_cell. cbn [fst snd].
    destruct (pair_eqb p q) eqn:E; [| apply andb_false_r].
    apply pair_eqb_eq in E. subst. contradiction.
  - intros x y Hx Hy. apply in_map_iff in Hx. destruct Hx as (p & <- & _).
    apply in_flat_map in Hy. destruct Hy as (v & Hv & Hy).
    apply in_map_iff in Hy. destruct Hy as (q & <- & _).
    unfold same_cell. cbn [fst snd]. rewrite Forall_forall in Hu.
    rewrite same_key_sym, (Hu v Hv). reflexivity.
Qed.

Lemma keys_nodup (u : F) (us : list F) (pairs : list pair) :
  has_duplicates same_cell (flat_map (fun e => map (fun p => (e, p)) pairs) (u :: us)) = false ->
  NoDup pairs.
Proof.
  intros Hd. apply has_duplicates_none in Hd. cbn [flat_map] in Hd.
  apply ordpairs_app_l in Hd.
  induction pairs as [| p ps IH]; [constructor |].
  cbn [map] in Hd. inversion Hd as [| ? ? Hf Hrest]; subst. constructor; [| apply IH; exact Hrest].
  intros Hin. rewrite Forall_forall in Hf.
  specialize (Hf (u, p) (in_map _ _ _ Hin)). unfold same_cell in Hf. cbn [fst snd] in Hf.
  rewrite same_key_refl, (proj2 (pair_eqb_eq p p) eq_refl) in Hf. discriminate.
Qed.

(** The pivot of a frame whose rows are keyed by the eras of [us], each
    once, and the pairs of [pairs], with the cell [V] in each row. *)
Lemma pivot_cells (us : list F) (pairs : list pair) (V : F * (nat * pair) -> F) :
  let ks := flat_map (fun e => map (fun ip => (e, ip)) (enumerate pairs)) us in
  let cells := map (fun k => (fst k, snd (snd k), V k)) ks in
  ForallOrdPairs (fun u v => same_key v u = false) us ->
  unique same_key us = us ->
  us <> [] -> pairs <> [] -> NoDup pairs ->
  map (fun p => (p, map (cell_at cells p) (pivot_eras cells))) (pivot_pairs cells)
  = map (fun ip => (snd ip, map (fun e => V (e, ip)) (sort_by key_leb us)))
        (sort_by (fun a b : nat * pair => pair_leb (snd a) (snd b)) (enumerate pairs)).
Proof.
  intros ks cells Hd Hu Hus Hps Hnd.
  assert (Heras : pivot_eras cells = sort_by key_leb us).
  { unfold pivot_eras, cells. rewrite map_map. cbn [fst].
    change (map (fun x : F * (nat * pair) => fst x) ks) with (map (@fst F (nat * pair)) ks).
    unfold ks. rewrite blocks_fst.
    destruct (enumerate pairs) as [| ip0 ips] eqn:Ee.
    { exfalso. apply Hps. rewrite <- (enumerate_snd pairs), Ee. reflexivity. }
    cbn [List.length]. unfold unique.
    rewrite unique_from_blocks by apply same_key_refl. fold (unique same_key us).
    rewrite Hu. reflexivity. }
  assert (Hpairs : pivot_pairs cells = map snd (sort_by (fun a b : nat * pair =>
                                                            pair_leb (snd a) (snd b))
                                                         (enumerate pairs))).
  { unfold pivot_pairs, cells. rewrite map_map. cbn [fst snd].
    rewrite sort_by_map, enumerate_snd. f_equal.
    rewrite <- (map_map snd snd ks). unfold ks. rewrite blocks_snd.
    assert (Hb : map snd (flat_map (fun _ : F => enumerate pairs) us)
                 = flat_map (fun _ : F => pairs) us).
    { clear. induction us as [| u us IH]; [reflexivity |].
      cbn [flat_map]. rewrite map_app, IH, enumerate_snd. reflexivity. }
    rewrite Hb. destruct us as [| u0 us']; [contradiction |].
    apply unique_pairs_blocks. exact Hnd. }
  rewrite Heras, Hpairs, map_map. apply map_ext_in. intros ip Hip.
  apply (Permutation_in _ (sort_by_perm _ _)) in Hip.
  f_equal. apply map_ext_in. intros e He.
  apply (Permutation_in _ (sort_by_perm _ _)) in He.
  unfold cell_at, cells. rewrite find_map. cbn [fst snd]. unfold same_cell. cbn [fst snd].
  assert (Hs : forall u, In u us -> same_key u e = true -> u = e).
  { intros u Hin E. eapply distinct_same; eauto. }
  pose proof (@find_blocks (nat * pair) us (enumerate pairs)
                (fun ip' => pair_eqb (snd ip') (snd ip)) e Hs He) as Hf.
  cbn beta in Hf. unfold ks. rewrite Hf.
  rewrite find_pair; [reflexivity | rewrite enumerate_snd; exact Hnd | exact Hip].
Qed.
End KeyedBlocks.

Lemma flat_map_nil (A B : Type) (us : list A) : flat_map (fun _ : A => @nil B) us = [].
Proof. induction us as [| u us IH]; simpl; auto. Qed.


Section PerEraFrame.
Context {F : Type} `{Float64 F} {sk : Sklearn F}.
Variable tournament_str : label -> string.
Variable ERA_INT_TO_STR : F -> option string.
Variable REGION_INT_TO_STR : F -> option string.

(** The frame of a per-era call by code, with the split: its key columns
    and its statistic cells, row by row. *)
Lemma per_era_frame (data : list (DataRow F)) (prediction : Prediction F)
      (tournament : option label) (join : string) (cols : list string)
      (mpe : DataFrame F) (regions : list (pyobj F)) :
  metrics_per_era tournament_str ERA_INT_TO_STR REGION_INT_TO_STR data prediction
                  tournament join cols false false true
  = Ok (mpe, regions) ->
  exists h,
    join_how join = Ok h /\
    eras_of (joined_frame h data prediction) <> [] /\
    p_pairs prediction <> [] /\
    regions = map PFloat (regions_of (joined_frame h data prediction)) /\
    column "era" mpe
    = Ok (map (fun k => PFloat (fst k))
              (indexed_keys (joined_frame h data prediction) (p_pairs prediction))) /\
    column "pair" mpe
    = Ok (map (fun k => PPair (snd (snd k)))
              (indexed_keys (joined_frame h data prediction) (p_pairs prediction))) /\
    forall c, In c cols -> ~ In c ["name"; "tournament"; "era"; "pair"] ->
      exists cells,
        column c mpe = Ok cells /\
        Forall2 (fun k cell =>
                   calc_metric (group_y tournament_str tournament
                                        (joined_frame h data prediction) k)
                               (group_yhat (joined_frame h data prediction) k) c
                   = Ok cell)
                (indexed_keys (joined_frame h data prediction) (p_pairs prediction))
                cells.
Proof.
  intros E.
  destruct (metrics_per_era_inv _ _ _ _ _ _ _ _ _ _ _ E) as (h & rowss & Hj & Hregs & Hrows & Hsp).
  exists h. split; [exact Hj |].
  set (df := joined_frame h data prediction) in *.
  apply Ok_inj in Hregs.
  pose proof (per_era_rows _ _ _ _ _ _ _ _ Hrows) as Hcells.
  fold (indexed_keys df (p_pairs prediction)) in Hcells.
  set (ks := indexed_keys df (p_pairs prediction)) in *.
  set (rows := List.concat rowss) in *.
  assert (H0 : map (fun r => nth 0 r (PFloat nan)) rows = map (fun k => PFloat (fst k)) ks).
  { apply Forall2_map_eq. eapply Forall2_weaken; [| exact Hcells]. cbn beta.
    intros k row (ms & _ & ->). reflexivity. }
  assert (H1 : map (fun r => nth 1 r (PFloat nan)) rows
               = map (fun k => PPair (snd (snd k))) ks).
  { apply Forall2_map_eq. eapply Forall2_weaken; [| exact Hcells]. cbn beta.
    intros k row (ms & _ & ->). reflexivity. }
  assert (Hc : pair_cells (frame_of_rows ("era" :: "pair" :: cols) rows)
               = Ok (map PPair (map (fun k => snd (snd k)) ks))).
  { unfold pair_cells.
    change (has_column "pair" (frame_of_rows ("era" :: "pair" :: cols) rows)) with true.
    cbn iota. rewrite frame_of_rows_pair, H1, map_map. reflexivity. }
  eapply add_split_pairs_of_pairs in Hsp; [| exact Hc]. destruct Hsp as [Hne ->].
  split; [| split; [| split; [| split; [| split]]]].
  - intros He. apply Hne. unfold ks, indexed_keys. rewrite He. reflexivity.
  - intros Hp. apply Hne. unfold ks, indexed_keys, enumerate. rewrite Hp. cbn [List.length seq combine map].
    rewrite flat_map_nil. reflexivity.
  - symmetry. exact Hregs.
  - transitivity (column "era" (frame_of_rows ("era" :: "pair" :: cols) rows)).
    + apply column_after_split; discriminate.
    + rewrite frame_of_rows_era, H0. reflexivity.
  - transitivity (column "pair" (frame_of_rows ("era" :: "pair" :: cols) rows)).
    + apply column_after_split; discriminate.
    + rewrite frame_of_rows_pair, H1. reflexivity.
  - intros c Hin Hn.
    destruct (position_In c cols Hin) as [j Hpos].
    assert (Hnames : c <> "name" /\ c <> "tournament" /\ c <> "era" /\ c <> "pair").
    { simpl in Hn. repeat split; intros ->; apply Hn; auto. }
    destruct Hnames as (Hname & Htour & Hera & Hpair).
    assert (Hp : position c ("era" :: "pair" :: cols) = Some (S (S j))).
    { cbn [position]. apply String.eqb_neq in Hera, Hpair.
      rewrite String.eqb_sym in Hera. rewrite String.eqb_sym in Hpair.
      rewrite Hera, Hpair, Hpos. reflexivity. }
    exists (map (fun r => nth (S (S j)) r (PFloat nan)) rows). split.
    + transitivity (column c (frame_of_rows ("era" :: "pair" :: cols) rows)).
      * apply column_after_split; assumption.
      * apply column_frame_of_rows. exact Hp.
    + apply Forall2_map_r. eapply Forall2_weaken; [| exact Hcells]. cbn beta.
      intros k row (ms & Hms & ->). cbn [nth].
      eapply calc_metrics_arrays_nth; eauto.
Qed.

Lemma calc_metric_logloss (y yhat : list F) (cell : pyobj F) :
  calc_metric y yhat "logloss" = Ok cell ->
  to_float cell = match log_loss y yhat with Ok m => m | Raise _ => nan end.
Proof.
  unfold calc_metric. cbn [String.eqb Ascii.eqb Bool.eqb].
  destruct (log_loss y yhat) as [m | [msg | msg | msg]]; cbn; intros E;
    try discriminate; apply Ok_inj in E; subst; reflexivity.
Qed.

(** The (era, pair, value) triples of a column of such a frame. *)
Lemma keyed_per_era (mpe : DataFrame F) (c : string) (ks : list (F * (nat * pair)))
      (cells : list (pyobj F)) (V : F * (nat * pair) -> F) :
  column "era" mpe = Ok (map (fun k => PFloat (fst k)) ks) ->
  column "pair" mpe = Ok (map (fun k => PPair (snd (snd k))) ks) ->
  column c mpe = Ok cells ->
  Forall2 (fun k cell => to_float cell = V k) ks cells ->
  keyed mpe c = Ok (map (fun k => (fst k, snd (snd k), V k)) ks).
Proof.
  intros He Hp Hc Hv. unfold keyed. rewrite He, Hp, Hc. cbn [bind].
  rewrite <- (map_map (fun k : F * (nat * pair) => snd (snd k)) PPair).
  rewrite mapM_as_pair. cbn [bind].
  rewrite map_map. cbn [to_float].
  rewrite (Forall2_map_eq V to_float Hv).
  rewrite combine_map3. reflexivity.
Qed.
End PerEraFrame.

Section PivotPerEra.
Context {F : Type} `{Float64KeyLaws F} {sk : Sklearn F}.
Variable tournament_str : label -> string.
Variable ERA_INT_TO_STR : F -> option string.
Variable REGION_INT_TO_STR : F -> option string.

Lemma eras_distinct (df : list (Joined F)) :
  ForallOrdPairs (fun u v => same_key v u = false) (eras_of df).
Proof. apply unique_from_distinct. Qed.

Lemma eras_unique (df : list (Joined F)) : unique same_key (eras_of df) = eras_of df.
Proof. unfold eras_of, unique. apply unique_from_idem. Qed.

Lemma indexed_row_keys (df : list (Joined F)) (pairs : list pair) :
  map (fun k : F * (nat * pair) => (fst k, snd (snd k))) (indexed_keys df pairs)
  = flat_map (fun e => map (fun p => (e, p)) pairs) (eras_of df).
Proof.
  unfold indexed_keys.
  rewrite (blocks_map (@snd nat pair) (eras_of df) (enumerate pairs)), enumerate_snd.
  reflexivity.
Qed.

(** The pivot of the per-era frame is the table of the log-losses; it can
    be built exactly when no pair comes twice. *)
Lemma pivot_per_era (data : list (DataRow F)) (prediction : Prediction F)
      (tournament : option label) (join : string) (cols : list string)
      (mpe : DataFrame F) (regions : list (pyobj F)) :
  metrics_per_era tournament_str ERA_INT_TO_STR REGION_INT_TO_STR data prediction
                  tournament join cols false false true
  = Ok (mpe, regions) ->
  In "logloss" cols ->
  exists h,
    join_how join = Ok h /\
    (NoDup (p_pairs prediction) ->
     pivot mpe = Ok (logloss_table tournament_str tournament
                                   (joined_frame h data prediction) (p_pairs prediction))) /\
    (forall pv, pivot mpe = Ok pv -> NoDup (p_pairs prediction)).
Proof.
  intros E Hl.
  destruct (per_era_frame _ _ _ _ _ _ _ _ E)
    as (h & Hj & Heras & Hpairs & _ & Hera & Hpair & Hcol).
  exists h. split; [exact Hj |].
  set (df := joined_frame h data prediction) in *.
  set (ks := indexed_keys df (p_pairs prediction)) in *.
  destruct (Hcol "logloss" Hl) as (cells & Hc & Hcells).
  { simpl. intros [E' | [E' | [E' | [E' | []]]]]; discriminate. }
  assert (Hk : keyed mpe "logloss"
               = Ok (map (fun k => (fst k, snd (snd k),
                                    era_logloss tournament_str tournament df k)) ks)).
  { apply keyed_per_era with (cells := cells); try assumption.
    eapply Forall2_weaken; [| exact Hcells]. cbn beta. intros k cell Hcell.
    apply calc_metric_logloss in Hcell. exact Hcell. }
  assert (Hkeys : map fst (map (fun k => (fst k, snd (snd k),
                                          era_logloss tournament_str tournament df k)) ks)
                  = flat_map (fun e => map (fun p => (e, p)) (p_pairs prediction))
                             (eras_of df)).
  { rewrite map_map. cbn [fst]. apply indexed_row_keys. }
  unfold pivot. rewrite Hk. cbn [bind]. rewrite Hkeys. split.
  - intros Hnd. rewrite (keys_distinct (eras_distinct df) Hnd).
    f_equal. unfold logloss_table.
    apply (pivot_cells (us := eras_of df) (pairs := p_pairs prediction)
                       (era_logloss tournament_str tournament df)
                       (eras_distinct df) (eras_unique df) Heras Hpairs Hnd).
  - intros pv Hpv.
    destruct (has_duplicates same_cell _) eqn:Ed in Hpv; [discriminate |].
    destruct (eras_of df) as [| u us]; [contradiction |].
    eapply keys_nodup. exact Ed.
Qed.
End PivotPerEra.


Section SummaryCall.
Context {F : Type} `{Float64KeyLaws F} {sk : Sklearn F}.
Variable tournament_str : label -> string.
Variable ERA_INT_TO_STR : F -> option string.
Variable REGION_INT_TO_STR : F -> option string.





End SummaryCall.

(** ** The derived columns of the summary *)

(** C5: [consis] of a pair is the number of eras whose log-loss is strictly
    below the benchmark over the number of eras, the mean of the indicator
    down the pair's column of the pivot.  The pivot of the per-era frame is
    the table of the log-losses, a column per pair and a row per era, both
    ascending; the [consis] column of [metrics_per_name] holds, in a pair's
    row, the fraction for the pair's column of that table.  The benchmark is
    0.693 as a binary64 number; on [0.5, 0.8, 0.6, 0.9] the fraction is
    0.5. *)
Theorem C5_consis_fraction :
  (forall (F : Type) (Fl : Float64 F) (logloss : list F),
      consis logloss =
      fdiv (of_nat (List.length (filter beats_benchmark logloss)))
           (of_nat (List.length logloss))) /\
  (forall (F : Type) (Fl : Float64 F) (K : Float64KeyLaws F) (sk : Sklearn F)
          (tournament_str : label -> string) (eras regions : F -> option string)
          (data : list (DataRow F)) (prediction : Prediction F) (tournament : option label)
          (join : string) (cols : list string) (era_as_str region_as_str split_pairs : bool)
          (metrics : DataFrame F) (info : list (pyobj F) * list (pyobj F)),
      metrics_per_name tournament_str eras regions data prediction tournament join cols
                       era_as_str region_as_str split_pairs = Ok (metrics, info) ->
      In "consis" cols ->
      exists h mpe rs,
        join_how join = Ok h /\
        metrics_per_era tournament_str eras regions data prediction tournament join
                        (era_columns cols) false false true = Ok (mpe, rs) /\
        pivot mpe = Ok (logloss_table tournament_str tournament
                                      (joined_frame h data prediction) (p_pairs prediction)) /\
        index metrics
        = map (fun pc => PPair (fst pc))
              (logloss_table tournament_str tournament
                             (joined_frame h data prediction) (p_pairs prediction)) /\
        column "consis" metrics =
        Ok (map (fun pc =>
                   PFloat (fdiv (of_nat (List.length (filter beats_benchmark (snd pc))))
                                (of_nat (List.length (snd pc)))))
                (logloss_table tournament_str tournament
                               (joined_frame h data prediction) (p_pairs prediction)))) /\
  (LOGLOSS_BENCHMARK : float) = 0.693%float /\
  (LOGLOSS_BENCHMARK : xreal) = XFin (693 / 1000) /\
  map beats_benchmark [0.5; 0.8; 0.6; 0.9]%float = [true; false; true; false] /\
  consis [0.5; 0.8; 0.6; 0.9]%float = 0.5%float.
Proof.
  split; [| split; [| split; [| split; [| split]]]].
  - intros. apply consis_fraction.
  - intros F Fl K sk ts eras regions data prediction tournament join cols eas ras sp
           metrics info Hm Hc.
    destruct (metrics_per_name_consis _ _ _ _ _ _ _ _ _ _ _ Hm Hc)
      as (mpe & rs & pv & He & Hp & Hi & Hcol).
    assert (Hl : In "logloss" (era_columns cols)).
    { apply mem_In. apply era_columns_logloss. left. exact Hc. }
    destruct (pivot_per_era _ _ _ _ _ _ _ _ He Hl) as (h & Hj & Hpivot & Hnd).
    pose proof (Hpivot (Hnd pv Hp)) as Htable.
    rewrite Htable in Hp. apply Ok_inj in Hp. subst pv.
    exists h, mpe, rs.
    split; [exact Hj |]. split; [exact He |]. split; [exact Htable |]. split; [exact Hi |].
    rewrite Hcol. f_equal. apply map_ext. intros pc. rewrite consis_fraction. reflexivity.
  - exact benchmark64.
  - exact xbenchmark.
  - vm_compute. reflexivity.
  - vm_compute. reflexivity.
Qed.

(** A run of C5: four eras and two pairs.  The table has the pairs and the
    eras in ascending order; the benchmark itself does not count, the float
    just below it does. *)
Lemma C5_consis_fraction_witness :
  metrics_per_name (sk := Example.sklearn Example.duo_losses [])
                   Example.tournament_str Example.ERA_INT_TO_STR Example.REGION_INT_TO_STR
                   Example.mixed_eras Example.duo None "data" ["consis"] true true true =
  Ok ({| index := [PPair ("k", LInt 2); PPair ("m", LInt 1)];
         columns := [("name", [PStr "k"; PStr "m"]);
                     ("tournament", [PStr "elizabeth"; PStr "bernie"]);
                     ("consis", [PFloat 0.75%float; PFloat 0.5%float])] |},
      ([PStr "era3"; PStr "era1"; PStr "era4"; PStr "era2"], [PStr "validation"])) /\
  logloss_table (sk := Example.sklearn Example.duo_losses []) Example.tournament_str None
                (joined_frame how_left Example.mixed_eras Example.duo) (p_pairs Example.duo)
  = [(("k", LInt 2), [0.693; 0.69299999999999984; 0.65; 0.1]);
     (("m", LInt 1), [0.5; 0.8; 0.6; 0.9])]%float /\
  exists h mpe rs,
    join_how "data" = Ok h /\
    metrics_per_era (sk := Example.sklearn Example.duo_losses [])
                    Example.tournament_str Example.ERA_INT_TO_STR Example.REGION_INT_TO_STR
                    Example.mixed_eras Example.duo None "data" (era_columns ["consis"])
                    false false true = Ok (mpe, rs) /\
    pivot mpe
    = Ok (logloss_table (sk := Example.sklearn Example.duo_losses [])
                        Example.tournament_str None
                        (joined_frame h Example.mixed_eras Example.duo)
                        (p_pairs Example.duo)) /\
    [PPair ("k", LInt 2); PPair ("m", LInt 1)]
    = map (fun pc => @PPair float (fst pc))
          (logloss_table (sk := Example.sklearn Example.duo_losses [])
                         Example.tournament_str None
                         (joined_frame h Example.mixed_eras Example.duo)
                         (p_pairs Example.duo)) /\
    Ok [PFloat 0.75%float; PFloat 0.5%float] =
    Ok (map (fun pc =>
               PFloat (fdiv (of_nat (List.length (filter beats_benchmark (snd pc))))
                            (of_nat (List.length (snd pc)))))
            (logloss_table (sk := Example.sklearn Example.duo_losses [])
                           Example.tournament_str None
                           (joined_frame h Example.mixed_eras Example.duo)
                           (p_pairs Example.duo))).
Proof.
  split; [| split].
  - vm_compute. reflexivity.
  - vm_compute. reflexivity.
  - apply (proj1 (proj2 C5_consis_fraction) float _ Float64KeyLaws_prim
             (Example.sklearn Example.duo_losses [])
             Example.tournament_str Example.ERA_INT_TO_STR Example.REGION_INT_TO_STR
             Example.mixed_eras Example.duo None "data" ["consis"] true true true
             {| index := [PPair ("k", LInt 2); PPair ("m", LInt 1)];
                columns := [("name", [PStr "k"; PStr "m"]);
                            ("tournament", [PStr "elizabeth"; PStr "bernie"]);
                            ("consis", [PFloat 0.75%float; PFloat 0.5%float])] |}
             ([PStr "era3"; PStr "era1"; PStr "era4"; PStr "era2"], [PStr "validation"])).
    + vm_compute. reflexivity.
    + left. reflexivity.
Defined.

(** C3, as the code has it: the [sharpe] column of [metrics_per_name] holds,
    in a pair's row, [sharpe] of the pair's column of the pivot, the table
    of the log-losses: the mean over the eras of the benchmark minus the
    log-loss, NaN cells left out, over the sample standard deviation of the
    log-losses (pandas' [std], [ddof=1]: squared deviations summed over
    n - 1).  The benchmark is 0.693 as a binary64 number.  On the exact
    model that is the benchmark minus the mean, over the standard deviation;
    on [0.6, 0.7] it is 0.043 / sqrt 0.005, between 0.608 and 0.6082, and
    the IEEE run gives 0.60811183182043071. *)
Theorem C3_sharpe :
  (forall (F : Type) (Fl : Float64 F) (logloss : list F),
      sharpe logloss
      = let gaps := filter (fun x => negb (isnan x))
                           (map (fun v => fsub LOGLOSS_BENCHMARK v) logloss) in
        fdiv (fdiv (fold_left fadd gaps (of_Z 0)) (of_Z (Z.of_nat (List.length gaps))))
             (pd_std logloss)) /\
  (forall logloss : list xreal,
      sharpe logloss = fdiv (fsub LOGLOSS_BENCHMARK (pd_mean logloss)) (pd_std logloss)) /\
  (LOGLOSS_BENCHMARK : float) = 0.693%float /\
  (LOGLOSS_BENCHMARK : xreal) = XFin (693 / 1000) /\
  (forall (F : Type) (Fl : Float64 F) (logloss : list F),
      pd_std logloss =
      let seen := filter (fun x => negb (isnan x)) logloss in
      fsqrt (if (List.length seen <=? 1)%nat then nan
             else fdiv (np_sum (map (sq_dev (np_mean seen)) seen))
                       (of_nat (List.length seen - 1)))) /\
  (forall (F : Type) (Fl : Float64 F) (K : Float64KeyLaws F) (sk : Sklearn F)
          (tournament_str : label -> string) (eras regions : F -> option string)
          (data : list (DataRow F)) (prediction : Prediction F) (tournament : option label)
          (join : string) (cols : list string) (era_as_str region_as_str split_pairs : bool)
          (metrics : DataFrame F) (info : list (pyobj F) * list (pyobj F)),
      metrics_per_name tournament_str eras regions data prediction tournament join cols
                       era_as_str region_as_str split_pairs = Ok (metrics, info) ->
      In "sharpe" cols ->
      exists h mpe rs,
        join_how join = Ok h /\
        metrics_per_era tournament_str eras regions data prediction tournament join
                        (era_columns cols) false false true = Ok (mpe, rs) /\
        pivot mpe = Ok (logloss_table tournament_str tournament
                                      (joined_frame h data prediction) (p_pairs prediction)) /\
        index metrics
        = map (fun pc => PPair (fst pc))
              (logloss_table tournament_str tournament
                             (joined_frame h data prediction) (p_pairs prediction)) /\
        column "sharpe" metrics
        = Ok (map (fun pc => PFloat (sharpe (snd pc)))
                  (logloss_table tournament_str tournament
                                 (joined_frame h data prediction) (p_pairs prediction)))) /\
  (exists r : R,
      sharpe [XFin (6 / 10); XFin (7 / 10)] = XFin r /\ (608 / 1000 < r < 6082 / 10000)%R) /\
  sharpe [0.6; 0.7]%float = 0.60811183182043071%float /\
  (PrimFloat.ltb 0.608 (sharpe [0.6; 0.7]%float) &&
   PrimFloat.ltb (sharpe [0.6; 0.7]%float) 0.6082)%bool = true.
Proof.
  split; [| split; [| split; [| split; [| split; [| split; [| split; [| split]]]]]]].
  - intros. reflexivity.
  - exact sharpe_exact.
  - exact benchmark64.
  - exact xbenchmark.
  - intros. reflexivity.
  - intros F Fl K sk ts eras regions data prediction tournament join cols eas ras sp
           metrics info Hm Hc.
    destruct (metrics_per_name_sharpe _ _ _ _ _ _ _ _ _ _ _ Hm Hc)
      as (mpe & rs & pv & He & Hp & Hi & Hcol).
    assert (Hl : In "logloss" (era_columns cols)).
    { apply mem_In. apply era_columns_logloss. right. exact Hc. }
    destruct (pivot_per_era _ _ _ _ _ _ _ _ He Hl) as (h & Hj & Hpivot & Hnd).
    pose proof (Hpivot (Hnd pv Hp)) as Htable.
    rewrite Htable in Hp. apply Ok_inj in Hp. subst pv.
    exists h, mpe, rs.
    split; [exact Hj |]. split; [exact He |]. split; [exact Htable |]. split; [exact Hi |].
    exact Hcol.
  - exact sharpe_example_exact.
  - vm_compute. reflexivity.
  - vm_compute. reflexivity.
Qed.

(** A run of C3: four eras and two pairs. *)
Lemma C3_sharpe_witness :
  metrics_per_name (sk := Example.sklearn Example.duo_losses [])
                   Example.tournament_str Example.ERA_INT_TO_STR Example.REGION_INT_TO_STR
                   Example.mixed_eras Example.duo None "inner" ["sharpe"] true true false =
  Ok ({| index := [PPair ("k", LInt 2); PPair ("m", LInt 1)];
         columns := [("sharpe", [PFloat 0.54819547465119356%float;
                                 PFloat (-0.038340579025361962)%float])] |},
      ([PStr "era3"; PStr "era1"; PStr "era4"; PStr "era2"], [PStr "validation"])) /\
  logloss_table (sk := Example.sklearn Example.duo_losses []) Example.tournament_str None
                (joined_frame how_inner Example.mixed_eras Example.duo) (p_pairs Example.duo)
  = [(("k", LInt 2), [0.693; 0.69299999999999984; 0.65; 0.1]);
     (("m", LInt 1), [0.5; 0.8; 0.6; 0.9])]%float /\
  exists h mpe rs,
    join_how "inner" = Ok h /\
    metrics_per_era (sk := Example.sklearn Example.duo_losses [])
                    Example.tournament_str Example.ERA_INT_TO_STR Example.REGION_INT_TO_STR
                    Example.mixed_eras Example.duo None "inner" (era_columns ["sharpe"])
                    false false true = Ok (mpe, rs) /\
    pivot mpe
    = Ok (logloss_table (sk := Example.sklearn Example.duo_losses [])
                        Example.tournament_str None
                        (joined_frame h Example.mixed_eras Example.duo)
                        (p_pairs Example.duo)) /\
    [PPair ("k", LInt 2); PPair ("m", LInt 1)]
    = map (fun pc => @PPair float (fst pc))
          (logloss_table (sk := Example.sklearn Example.duo_losses [])
                         Example.tournament_str None
                         (joined_frame h Example.mixed_eras Example.duo)
                         (p_pairs Example.duo)) /\
    Ok [PFloat 0.54819547465119356%float; PFloat (-0.038340579025361962)%float]
    = Ok (map (fun pc => PFloat (sharpe (snd pc)))
              (logloss_table (sk := Example.sklearn Example.duo_losses [])
                             Example.tournament_str None
                             (joined_frame h Example.mixed_eras Example.duo)
                             (p_pairs Example.duo))).
Proof.
  split; [| split].
  - vm_compute. reflexivity.
  - vm_compute. reflexivity.
  - apply (proj1 (proj2 (proj2 (proj2 (proj2 (proj2 C3_sharpe))))) float _ Float64KeyLaws_prim
             (Example.sklearn Example.duo_losses [])
             Example.tournament_str Example.ERA_INT_TO_STR Example.REGION_INT_TO_STR
             Example.mixed_eras Example.duo None "inner" ["sharpe"] true true false
             {| index := [PPair ("k", LInt 2); PPair ("m", LInt 1)];
                columns := [("sharpe", [PFloat 0.54819547465119356%float;
                                        PFloat (-0.038340579025361962)%float])] |}
             ([PStr "era3"; PStr "era1"; PStr "era4"; PStr "era2"], [PStr "validation"])).
    + vm_compute. reflexivity.
    + left. reflexivity.
Defined.

(** C3 as stated fails on binary64: the code takes the mean of the
    differences [0.693 - logloss], not the difference of 0.693 and the mean.
    On [0.6, 0.7] the two differ in the last digits; on the benchmark and
    the float just above it the code gives -0.5 and the stated formula
    -1. *)
Lemma C3_counterexample :
  sharpe [0.6; 0.7]%float = 0.60811183182043071%float /\
  fdiv (fsub LOGLOSS_BENCHMARK (pd_mean [0.6; 0.7]%float)) (pd_std [0.6; 0.7]%float)
  = 0.60811183182043149%float /\
  sharpe [0.693; 0.69300000000000006]%float = (-0.5)%float /\
  fdiv (fsub LOGLOSS_BENCHMARK (pd_mean [0.693; 0.69300000000000006]%float))
       (pd_std [0.693; 0.69300000000000006]%float)
  = (-1)%float /\
  feqb (sharpe [0.693; 0.69300000000000006]%float)
       (fdiv (fsub LOGLOSS_BENCHMARK (pd_mean [0.693; 0.69300000000000006]%float))
             (pd_std [0.693; 0.69300000000000006]%float))
  = false.
Proof. repeat split; vm_compute; reflexivity. Qed.

(** ** Unknown names and join modes, through the whole call *)



